(** * Importador CNPJ: the merge engine of [importar-dados.py]

    A shallow embedding of the class [ImportadorCNPJMultiPasta] and of the
    fragment of pandas and SQLite it runs on, and of the geocoding script
    [georreferenciar.py], followed by the properties of the incremental
    UPSERT, of the intra-chunk deduplication, of the chronological ordering
    of the files and of the reference-table loader, and by further
    properties of the scan, of the engine, of a whole run and of the
    geocoding loop.

    Conventions of the model.
    - A Python string is a [string]: one character per code point below 256
      (the files are decoded as latin-1).
    - A pandas frame is the list of its rows; a row ([Series]) is a finite
      map from column label to cell. The rows carry the labels of the
      schema, which the source assigns positionally when the column count
      matches; a frame of another width is a frame whose rows lack those
      labels.
    - A float is a binary64 value: a finite one, written as the rational it
      equals, an infinity or nan. A numeric literal becomes the float
      nearest to it, ties to even; the sign of a zero is not kept (SQLite
      stores both zeros as 0). The program never computes with a capital
      value: it parses it, compares it with zero and stores it.
    - A file is what [read_csv] makes of it: its rows, or an exception.
      The reader with [chunksize] is lazy: a file that ends in an
      exception has first yielded the whole chunks before the error.
    - An SQLite value is NULL, a text or a number ([option dado]); the
      INTEGER and REAL storage classes are not told apart, and the
      re-encoding SQLite applies to digit-only texts stored in the DATE
      columns is left out: the only DATE column the program compares is
      [data_atualizacao], whose values [YYYY-MM-01] are not numeric
      literals and stay texts.
    - A table is the list of its rows in rowid order. *)

From Stdlib Require Import QArith Ascii String.
From stdpp Require Import gmap strings list fin_maps sorting.

#[local] Open Scope string_scope.
#[local] Open Scope Z_scope.

(** ** Python values and strings *)

Module Py.

(** A float other than nan: a finite value, written as the rational it
    equals, or an infinity. The sign of a zero is not kept. *)
Inductive real :=
| Finito (q : Q)
| Infinito (negativo : bool).

(** A Python float. *)
Inductive flutuante :=
| Real (x : real)
| NaN.

Coercion Finito : Q >-> real.
Coercion Real : real >-> flutuante.
Bind Scope Q_scope with real.
Bind Scope Q_scope with flutuante.

Inductive pyval :=
| PyNone
| PyStr (s : string)
| PyFloat (x : flutuante).

#[global] Instance Q_eq_dec : EqDecision Q.
Proof. solve_decision. Defined.

#[global] Instance real_eq_dec : EqDecision real.
Proof. solve_decision. Defined.

#[global] Instance flutuante_eq_dec : EqDecision flutuante.
Proof. solve_decision. Defined.

#[global] Instance pyval_eq_dec : EqDecision pyval.
Proof. solve_decision. Defined.

(** Exceptions the row loop of the importer can meet. *)
Inductive excecao :=
| KeyError (rotulo : string)
| AttributeError
| IntegrityError
| OperationalError.

Inductive resultado (A : Type) :=
| Retorna (a : A)
| Levanta (e : excecao).
Arguments Retorna {A} a.
Arguments Levanta {A} e.

#[global] Instance excecao_eq_dec : EqDecision excecao.
Proof. solve_decision. Defined.

#[global] Instance resultado_eq_dec {A : Type} `{EqDecision A} : EqDecision (resultado A).
Proof. solve_decision. Defined.

(** Sequencing: an exception ends the computation. *)
Definition liga {A B : Type} (m : resultado A) (f : A -> resultado B) : resultado B :=
  match m with
  | Retorna a => f a
  | Levanta e => Levanta e
  end.

Notation "x <- m ;; k" := (liga m (fun x => k))
  (at level 100, m at next level, right associativity).

(** [str.isspace] on code points below 256. *)
Definition isspace (a : ascii) : bool :=
  let n := Z.of_N (N_of_ascii a) in
  ((9 <=? n) && (n <=? 13)) || ((28 <=? n) && (n <=? 32))
  || (n =? 133) || (n =? 160).

Fixpoint lstrip (s : string) : string :=
  match s with
  | EmptyString => EmptyString
  | String a s' => if isspace a then lstrip s' else s
  end.

(** [rstrip] drops the trailing run of white space. *)
Fixpoint rstrip (s : string) : string :=
  match s with
  | EmptyString => EmptyString
  | String a s' =>
      match rstrip s' with
      | EmptyString => if isspace a then EmptyString else String a EmptyString
      | t => String a t
      end
  end.

Definition strip (s : string) : string := rstrip (lstrip s).

(** [s.replace(a, b)] for one-character arguments. *)
Fixpoint str_replace (a b : ascii) (s : string) : string :=
  match s with
  | EmptyString => EmptyString
  | String c s' => String (if Ascii.eqb c a then b else c) (str_replace a b s')
  end.

(** One character of [str.isdigit]: the ten decimal digits and the
    superscripts one, two and three. *)
Definition isdigit_char (a : ascii) : bool :=
  let n := Z.of_N (N_of_ascii a) in
  ((48 <=? n) && (n <=? 57)) || (n =? 178) || (n =? 179) || (n =? 185).

Fixpoint todos (p : ascii -> bool) (s : string) : bool :=
  match s with
  | EmptyString => true
  | String a s' => p a && todos p s'
  end.

(** [str.isdigit]: false on the empty string. *)
Definition isdigit (s : string) : bool :=
  match s with
  | EmptyString => false
  | _ => todos isdigit_char s
  end.

(** Slices [s[:n]], [s[i:j]] and [s[i:]]; like Python's, they truncate. *)
Definition ate (n : nat) (s : string) : string := substring 0 n s.
Definition fatia (i j : nat) (s : string) : string := substring i (j - i) s.
Definition desde (i : nat) (s : string) : string :=
  substring i (String.length s - i) s.

(** [str.upper] on code points below 256: the letters a to z and the
    accented letters from 224 to 254 (the division sign 247 apart) move 32
    places down, and the sharp s (223) becomes SS. The capitals of the
    micro sign (181) and of the y with diaeresis (255) lie above 255; the
    two characters stand for them, as no pattern of the program holds
    either. *)
Definition upper_char (a : ascii) : string :=
  let n := N_of_ascii a in
  if ((97 <=? n) && (n <=? 122))%N || ((224 <=? n) && (n <=? 254) && negb (n =? 247))%N
  then String (ascii_of_N (n - 32)) EmptyString
  else if (n =? 223)%N then "SS"
  else String a EmptyString.

Fixpoint upper (s : string) : string :=
  match s with
  | EmptyString => EmptyString
  | String a s' => upper_char a ++ upper s'
  end.

(** [sub in s]. *)
Definition contem (sub s : string) : bool :=
  match index 0 sub s with
  | Some _ => true
  | None => false
  end.

(** *** Numeric literals

    The two readers of the capital column: [float(str)] of Python and
    [pandas.to_numeric] with [errors='coerce']. Both read a sign, digits
    with at most one decimal point and at least one digit, and an exponent;
    they differ in the white space they allow around, in the underscores
    and in the words for the infinities and for nan. *)

Definition digito (a : ascii) : option Z :=
  let n := Z.of_N (N_of_ascii a) in
  if (48 <=? n) && (n <=? 57) then Some (n - 48) else None.

(** Reads the leading digits of [s] into [acc]; returns the value, the
    number of digits read and what is left. *)
Fixpoint le_digitos (s : string) (acc : Z) (n : nat) : Z * nat * string :=
  match s with
  | EmptyString => (acc, n, EmptyString)
  | String a s' =>
      match digito a with
      | Some d => le_digitos s' (10 * acc + d) (S n)
      | None => (acc, n, s)
      end
  end.

(** An optional sign. *)
Definition le_sinal (s : string) : bool * string :=
  match s with
  | String "-" r => (true, r)
  | String "+" r => (false, r)
  | _ => (false, s)
  end.

(** Digits with an optional decimal point: the digits read as one integer,
    their number, the number of those after the point and what is left. *)
Definition le_mantissa (s : string) : Z * nat * nat * string :=
  let '(m1, n1, t2) := le_digitos s 0 0 in
  match t2 with
  | String "." r =>
      let '(m2, n2, t3) := le_digitos r m1 0 in (m2, (n1 + n2)%nat, n2, t3)
  | _ => (m1, n1, 0%nat, t2)
  end.

(** An exponent: e or E, an optional sign and at least one digit. *)
Definition le_expoente (s : string) : option (Z * string) :=
  match s with
  | String c r =>
      if Ascii.eqb c "e" || Ascii.eqb c "E" then
        let '(neg, r1) := le_sinal r in
        let '(x, n, r2) := le_digitos r1 0 0 in
        if (0 <? n)%nat then Some (if neg then - x else x, r2) else None
      else None
  | EmptyString => None
  end.

(** A decimal literal that fills the whole string. *)
Record literal := Literal {
  lit_negativo : bool;
  lit_mantissa : Z;
  lit_expoente : Z;
  lit_digitos : nat;
  lit_tem_expoente : bool
}.

Definition le_literal (s : string) : option literal :=
  let '(neg, t1) := le_sinal s in
  let '(m, n, dec, t2) := le_mantissa t1 in
  if (n =? 0)%nat then None
  else
    match t2 with
    | EmptyString => Some (Literal neg m (- Z.of_nat dec) n false)
    | _ =>
        match le_expoente t2 with
        | Some (x, EmptyString) => Some (Literal neg m (x - Z.of_nat dec) n true)
        | _ => None
        end
    end.

(** The rational a literal denotes: mantissa times a power of ten. *)
Definition valor_decimal (l : literal) : Q :=
  let m := if lit_negativo l then - lit_mantissa l else lit_mantissa l in
  if 0 <=? lit_expoente l
  then Qmake (m * 10 ^ lit_expoente l) 1
  else Qmake m (Z.to_pos (10 ^ (- lit_expoente l))).

(** *** Rounding to a float *)

(** [n / d] rounded to the nearest integer, ties to even, for [d > 0]. *)
Definition meio_par (n d : Z) : Z :=
  let q := n / d in
  match (2 * (n mod d)) ?= d with
  | Lt => q
  | Gt => q + 1
  | Eq => if Z.even q then q else q + 1
  end.

(** [floor (log2 (n / d))] for positive [n] and [d]. *)
Definition piso_log2 (n d : Z) : Z :=
  let k := Z.log2 n - Z.log2 d in
  if (if 0 <=? k then d * 2 ^ k <=? n else d <=? n * 2 ^ (- k)) then k else k - 1.

(** The binary64 value nearest to a rational, ties to even: 53 significant
    bits, no exponent below -1074, an infinity from 2^1024 on. *)
Definition binary64 (q : Q) : real :=
  let n := Z.abs (Qnum q) in
  let d := Z.pos (Qden q) in
  if n =? 0 then Finito 0
  else
    let e := Z.max (piso_log2 n d - 52) (-1074) in
    let m := if 0 <=? e then meio_par n (d * 2 ^ e) else meio_par (n * 2 ^ (- e)) d in
    if (0 <=? e) && (2 ^ 1024 <=? m * 2 ^ e) then Infinito (Qnum q <? 0)
    else if 0 <=? e then Finito (Qmake (Z.sgn (Qnum q) * m * 2 ^ e) 1)
    else Finito (Qred (Qmake (Z.sgn (Qnum q) * m) (Z.to_pos (2 ^ (- e))))).

(** *** White space, letter case and underscores *)

(** White space for the C library: the space and the controls 9 to 13. *)
Definition isspace_ascii (a : ascii) : bool :=
  let n := Z.of_N (N_of_ascii a) in
  ((9 <=? n) && (n <=? 13)) || (n =? 32).

(** White space [float] drops around a literal: that of the C library and
    the spaces above 127. *)
Definition isspace_float (a : ascii) : bool :=
  let n := Z.of_N (N_of_ascii a) in
  isspace_ascii a || (n =? 133) || (n =? 160).

Fixpoint lstrip_de (p : ascii -> bool) (s : string) : string :=
  match s with
  | EmptyString => EmptyString
  | String a s' => if p a then lstrip_de p s' else s
  end.

Fixpoint rstrip_de (p : ascii -> bool) (s : string) : string :=
  match s with
  | EmptyString => EmptyString
  | String a s' =>
      match rstrip_de p s' with
      | EmptyString => if p a then EmptyString else String a EmptyString
      | t => String a t
      end
  end.

(** [s] without the characters of [p] at its two ends. *)
Definition apara (p : ascii -> bool) (s : string) : string :=
  rstrip_de p (lstrip_de p s).

(** Letter case as [strcasecmp] folds it: the letters a to z only. *)
Definition maiuscula (a : ascii) : ascii :=
  let n := N_of_ascii a in
  if ((97 <=? n) && (n <=? 122))%N then ascii_of_N (n - 32) else a.

Fixpoint maiusculas (s : string) : string :=
  match s with
  | EmptyString => EmptyString
  | String a s' => String (maiuscula a) (maiusculas s')
  end.

(** The underscores [float] accepts, each between two digits, taken out;
    [depois_de_digito] tells whether the previous character is a digit. *)
Fixpoint sem_sublinhados (depois_de_digito : bool) (s : string) : option string :=
  match s with
  | EmptyString => Some EmptyString
  | String a r =>
      if Ascii.eqb a "_" then
        match r with
        | String b _ =>
            if depois_de_digito && bool_decide (is_Some (digito b))
            then sem_sublinhados false r
            else None
        | EmptyString => None
        end
      else String a <$> sem_sublinhados (bool_decide (is_Some (digito a))) r
  end.

(** *** [float(s)]

    [None] stands for the ValueError. The value is the float nearest to
    the literal. *)
Definition py_float (s : string) : option flutuante :=
  match sem_sublinhados false (apara isspace_float s) with
  | None => None
  | Some t =>
      let '(neg, palavra) := le_sinal t in
      let u := maiusculas palavra in
      if String.eqb u "INF" || String.eqb u "INFINITY" then Some (Real (Infinito neg))
      else if String.eqb u "NAN" then Some NaN
      else
        match le_literal t with
        | Some l => Some (Real (binary64 (valor_decimal l)))
        | None => None
        end
  end.

(** *** [pandas.to_numeric(s, errors='coerce')] on one string

    The C parser of pandas allows the white space of the C library around
    a literal, and knows the words inf and infinity, with a sign and in
    any letter case, only as the whole string. A literal beyond the range
    of a float is an error to it, and every error gives nan. The value is
    the float nearest to the literal: the parser computes it with one
    multiplication or division by a power of ten, which is exact for the
    literals of at most 15 digits without exponent and can differ in the
    last place for longer ones. *)
Definition to_numeric (s : string) : flutuante :=
  match le_literal (apara isspace_ascii s) with
  | Some l =>
      match binary64 (valor_decimal l) with
      | Finito x => Real (Finito x)
      | Infinito _ => NaN
      end
  | None =>
      let u := maiusculas s in
      if String.eqb u "INF" || String.eqb u "+INF"
         || String.eqb u "INFINITY" || String.eqb u "+INFINITY"
      then Real (Infinito false)
      else if String.eqb u "-INF" || String.eqb u "-INFINITY"
      then Real (Infinito true)
      else NaN
  end.

(** [fillna(0)] on one float. *)
Definition fillna_0 (x : flutuante) : flutuante :=
  match x with
  | NaN => Real (Finito 0)
  | _ => x
  end.

(** Truth value of a float: every float but zero. *)
Definition q_nao_zero (x : flutuante) : bool :=
  match x with
  | Real (Finito q) => negb (Qnum q =? 0)
  | _ => true
  end.

End Py.
Export Py.


(** ** The fragment of SQLite the importer runs on *)

Module Sql.

(** A non-NULL value. NULL is [None], so a row stores no NULL: a column
    that is NULL is absent from the row's map. *)
Inductive dado :=
| Texto (s : string)
| Numero (x : real).

#[global] Instance dado_eq_dec : EqDecision dado.
Proof. solve_decision. Defined.

Abbreviation valor := (option dado).
Abbreviation registro := (gmap string dado).

(** Parameter binding of the [sqlite3] module; SQLite takes a nan for
    NULL. *)
Definition bind (v : pyval) : valor :=
  match v with
  | PyNone => None
  | PyStr s => Some (Texto s)
  | PyFloat (Real x) => Some (Numero x)
  | PyFloat NaN => None
  end.

(** Order of two numbers: by value, the infinities at the two ends. *)
Definition compara_real (x y : real) : comparison :=
  match x, y with
  | Finito a, Finito b => Qcompare a b
  | Infinito true, Infinito true | Infinito false, Infinito false => Eq
  | Infinito true, _ | _, Infinito false => Lt
  | _, Infinito true | Infinito false, _ => Gt
  end.

(** Order of two non-NULL values: every number sorts before every text,
    numbers compare by value and texts byte by byte. *)
Definition compara (a b : dado) : comparison :=
  match a, b with
  | Numero x, Numero y => compara_real x y
  | Numero _, Texto _ => Lt
  | Texto _, Numero _ => Gt
  | Texto s, Texto t => String.compare s t
  end.

(** Three-valued logic: [None] is the unknown truth value. *)
Definition sql_eq (a b : valor) : option bool :=
  match a, b with
  | Some x, Some y => Some (match compara x y with Eq => true | _ => false end)
  | _, _ => None
  end.

Definition sql_gt (a b : valor) : option bool :=
  match a, b with
  | Some x, Some y => Some (match compara x y with Gt => true | _ => false end)
  | _, _ => None
  end.

Definition sql_not (a : option bool) : option bool := negb <$> a.

Definition sql_ne (a b : valor) : option bool := sql_not (sql_eq a b).

Definition sql_and (a b : option bool) : option bool :=
  match a, b with
  | Some false, _ => Some false
  | _, Some false => Some false
  | Some true, Some true => Some true
  | _, _ => None
  end.

Definition sql_or (a b : option bool) : option bool :=
  match a, b with
  | Some true, _ => Some true
  | _, Some true => Some true
  | Some false, Some false => Some false
  | _, _ => None
  end.

Definition sql_is_null (a : valor) : option bool :=
  Some (match a with None => true | Some _ => false end).

Definition sql_is_not_null (a : valor) : option bool :=
  Some (match a with None => false | Some _ => true end).

(** A WHERE clause or a WHEN condition holds only when it is true. *)
Definition verdadeiro (c : option bool) : bool :=
  match c with
  | Some true => true
  | _ => false
  end.

Definition NULLIF (a b : valor) : valor :=
  if verdadeiro (sql_eq a b) then None else a.

Definition COALESCE (a b : valor) : valor :=
  match a with
  | Some _ => a
  | None => b
  end.

Definition CASE_WHEN (c : option bool) (entao senao : valor) : valor :=
  if verdadeiro c then entao else senao.

Definition vazio : valor := Some (Texto "").

(** Writing one column of a row. *)
Definition grava (c : string) (v : valor) (r : registro) : registro :=
  match v with
  | Some d => <[c := d]> r
  | None => delete c r
  end.

(** The SET list of an UPDATE, its right-hand sides already evaluated on
    the old row; of two assignments to one column the rightmost stays. *)
Definition sql_set (atribs : list (string * valor)) (r : registro) : registro :=
  foldl (fun acc cv => grava cv.1 cv.2 acc) r atribs.

(** [UPDATE t SET ... WHERE onde]: the new table and [cursor.rowcount],
    the number of rows the WHERE selected (changed in value or not). *)
Definition sql_update (set : registro -> list (string * valor))
    (onde : registro -> option bool) (tb : list registro) : list registro * nat :=
  ((fun r => if verdadeiro (onde r) then sql_set (set r) r else r) <$> tb,
   length (filter (fun r => verdadeiro (onde r) = true) tb)).

(** [SELECT 1 FROM t WHERE onde] then [fetchone()]: is there a row? *)
Definition sql_existe (onde : registro -> option bool) (tb : list registro) : bool :=
  existsb (fun r => verdadeiro (onde r)) tb.

(** Two rows collide on a key when every key column is equal and not NULL. *)
Definition colide (pk : list string) (r1 r2 : registro) : bool :=
  forallb (fun c => verdadeiro (sql_eq (r1 !! c) (r2 !! c))) pk.

(** [INSERT INTO t (colunas) VALUES (valores)] on a table declared with
    the NOT NULL columns [nao_nulos] and the primary key [pk] ([[]] when
    the table has none). An empty column list is a syntax error. *)
Definition sql_insert (nao_nulos pk colunas : list string) (valores : list valor)
    (tb : list registro) : resultado (list registro) :=
  let novo := sql_set (zip colunas valores) ∅ in
  match colunas with
  | [] => Levanta OperationalError
  | _ =>
      if negb (forallb (fun c => bool_decide (is_Some (novo !! c))) nao_nulos)
      then Levanta IntegrityError
      else if match pk with [] => false | _ => existsb (colide pk novo) tb end
      then Levanta IntegrityError
      else Retorna (tb ++ [novo])%list
  end.

End Sql.
Export Sql.

(** ** The importer *)

Module Importador.

(** The table types of [mapeamento_arquivos] and [estrutura_colunas]. *)
Inductive tipo :=
| Empresa
| Estabelecimento
| Socio
| Cnae
| Municipio
| NaturezaJuridica
| Pais
| QualificacaoSocio
| MotivoSituacao.

#[global] Instance tipo_eq_dec : EqDecision tipo.
Proof. solve_decision. Defined.

Definition tipo_para_nat (t : tipo) : nat :=
  match t with
  | Empresa => 0 | Estabelecimento => 1 | Socio => 2 | Cnae => 3
  | Municipio => 4 | NaturezaJuridica => 5 | Pais => 6
  | QualificacaoSocio => 7 | MotivoSituacao => 8
  end%nat.

Definition nat_para_tipo (n : nat) : tipo :=
  match n with
  | 0 => Empresa | 1 => Estabelecimento | 2 => Socio | 3 => Cnae
  | 4 => Municipio | 5 => NaturezaJuridica | 6 => Pais
  | 7 => QualificacaoSocio | _ => MotivoSituacao
  end%nat.

#[global] Instance tipo_countable : Countable tipo.
Proof.
  refine (inj_countable' tipo_para_nat nat_para_tipo _).
  intros []; reflexivity.
Defined.

(** [self.estrutura_colunas]. *)
Definition estrutura_colunas (t : tipo) : list string :=
  match t with
  | Empresa =>
      ["cnpj_basico"; "razao_social"; "natureza_juridica";
       "qualificacao_responsavel"; "capital_social"; "porte_empresa";
       "ente_federativo_responsavel"]
  | Estabelecimento =>
      ["cnpj_basico"; "cnpj_ordem"; "cnpj_dv"; "identificador_matriz_filial";
       "nome_fantasia"; "situacao_cadastral"; "data_situacao_cadastral";
       "motivo_situacao_cadastral"; "nome_cidade_exterior"; "pais";
       "data_inicio_atividade"; "cnae_fiscal_principal"; "cnae_fiscal_secundaria";
       "tipo_logradouro"; "logradouro"; "numero"; "complemento";
       "bairro"; "cep"; "uf"; "municipio"; "ddd1"; "telefone1";
       "ddd2"; "telefone2"; "ddd_fax"; "fax"; "email"; "situacao_especial";
       "data_situacao_especial"]
  | Socio =>
      ["cnpj_basico"; "identificador_socio"; "nome_socio_razao_social";
       "cpf_cnpj_socio"; "qualificacao_socio"; "data_entrada_sociedade";
       "pais"; "representante_legal"; "nome_representante_legal";
       "qualificacao_representante_legal"; "faixa_etaria"]
  | _ => ["codigo"; "descricao"]
  end.

(** The constraints of the DDL of [_get_schema_fallback]: NOT NULL columns
    and PRIMARY KEY ([socio] declares no key). *)
Definition nao_nulos (t : tipo) : list string :=
  match t with
  | Empresa => ["razao_social"]
  | Socio => ["nome_socio_razao_social"]
  | Estabelecimento => []
  | _ => ["descricao"]
  end.

Definition chave_primaria (t : tipo) : list string :=
  match t with
  | Empresa => ["cnpj_basico"]
  | Estabelecimento => ["cnpj_basico"; "cnpj_ordem"; "cnpj_dv"]
  | Socio => []
  | _ => ["codigo"]
  end.

(** The natural key of each main table, as [_remover_duplicatas] and the
    lookups of [_upsert_chunk_inteligente] take it. *)
Definition chave_natural (t : tipo) : list string :=
  match t with
  | Empresa => ["cnpj_basico"]
  | Estabelecimento => ["cnpj_basico"; "cnpj_ordem"; "cnpj_dv"]
  | Socio => ["cnpj_basico"; "nome_socio_razao_social"; "cpf_cnpj_socio"]
  | _ => []
  end.

(** A row of a frame and a frame. *)
Abbreviation linha := (gmap string pyval).
Abbreviation quadro := (list (gmap string pyval)).

(** The store: one table per type. *)
Record banco := Banco {
  tb_empresa : list registro;
  tb_estabelecimento : list registro;
  tb_socio : list registro;
  tb_cnae : list registro;
  tb_municipio : list registro;
  tb_natureza_juridica : list registro;
  tb_pais : list registro;
  tb_qualificacao_socio : list registro;
  tb_motivo_situacao : list registro
}.

#[global] Instance banco_eq_dec : EqDecision banco.
Proof. solve_decision. Defined.

Definition tabela_de (t : tipo) (b : banco) : list registro :=
  match t with
  | Empresa => tb_empresa b
  | Estabelecimento => tb_estabelecimento b
  | Socio => tb_socio b
  | Cnae => tb_cnae b
  | Municipio => tb_municipio b
  | NaturezaJuridica => tb_natureza_juridica b
  | Pais => tb_pais b
  | QualificacaoSocio => tb_qualificacao_socio b
  | MotivoSituacao => tb_motivo_situacao b
  end.

Definition com_tabela (t : tipo) (tb : list registro) (b : banco) : banco :=
  let '(Banco e es s c m n p q mo) := b in
  match t with
  | Empresa => Banco tb es s c m n p q mo
  | Estabelecimento => Banco e tb s c m n p q mo
  | Socio => Banco e es tb c m n p q mo
  | Cnae => Banco e es s tb m n p q mo
  | Municipio => Banco e es s c tb n p q mo
  | NaturezaJuridica => Banco e es s c m tb p q mo
  | Pais => Banco e es s c m n tb q mo
  | QualificacaoSocio => Banco e es s c m n p tb mo
  | MotivoSituacao => Banco e es s c m n p q tb
  end.

(** The store after [criar_tabelas] on a new file. *)
Definition banco_vazio : banco := Banco [] [] [] [] [] [] [] [] [].

(** *** Reading a row *)

(** [row[c]]. *)
Definition celula (row : linha) (c : string) : resultado pyval :=
  match row !! c with
  | Some v => Retorna v
  | None => Levanta (KeyError c)
  end.

(** [row.get(c, padrao)]. *)
Definition row_get (row : linha) (c : string) (padrao : pyval) : pyval :=
  default padrao (row !! c).

(** The bound values of [row[c]] for the columns [cols], in order. *)
Fixpoint le_celulas (row : linha) (cols : list string) : resultado (list (string * valor)) :=
  match cols with
  | [] => Retorna []
  | c :: resto =>
      v <- celula row c;;
      vs <- le_celulas row resto;;
      Retorna ((c, bind v) :: vs)
  end.

(** [[col for col in self.estrutura_colunas[tabela]
      if col in row and row[col] is not None]]. *)
Definition colunas_preenchidas (t : tipo) (row : linha) : list string :=
  List.filter
    (fun c => match row !! c with
              | Some PyNone | None => false
              | Some _ => true
              end)
    (estrutura_colunas t).

(** [float(s.replace(',', '.')) if s.strip() else 0.0], and [0.0] when the
    conversion raises. *)
Definition float_de_str (s : string) : flutuante :=
  match strip s with
  | EmptyString => 0
  | _ => default (Real 0) (py_float (str_replace "," "." s))
  end.

(** The capital the UPDATE of [empresa] binds (lines 627-632). *)
Definition capital_do_update (row : linha) : pyval :=
  match row_get row "capital_social" (PyFloat 0) with
  | PyStr s => PyFloat (float_de_str s)
  | v => v
  end.

(** The value the INSERT of [empresa] binds for a column (lines 652-661). *)
Definition valor_do_insert_empresa (c : string) (v : pyval) : pyval :=
  if String.eqb c "capital_social" then
    match v with
    | PyNone => PyNone
    | PyStr s => PyFloat (float_de_str s)
    | PyFloat x => PyFloat (if q_nao_zero x then x else 0)
    end
  else v.

(** [row['razao_social'] and row['razao_social'].strip()] as a condition;
    a nonzero float has no [strip]. *)
Definition razao_social_valida (v : pyval) : resultado bool :=
  match v with
  | PyNone => Retorna false
  | PyStr EmptyString => Retorna false
  | PyStr s => Retorna (negb (String.eqb (strip s) ""))
  | PyFloat q => if q_nao_zero q then Levanta AttributeError else Retorna false
  end.

(** *** The three UPDATE statements *)

(** [c = COALESCE(NULLIF(?, ''), c)] for each parameter. *)
Definition coalesce_set (params : list (string * valor)) (r : registro)
    : list (string * valor) :=
  (fun cp => (cp.1, COALESCE (NULLIF cp.2 vazio) (r !! cp.1))) <$> params.

(** The text columns the UPDATE of each table merges, in the order of
    its SET list. *)
Definition colunas_coalesce (t : tipo) : list string :=
  match t with
  | Empresa =>
      ["razao_social"; "natureza_juridica"; "qualificacao_responsavel";
       "porte_empresa"; "ente_federativo_responsavel"]
  | Estabelecimento =>
      ["identificador_matriz_filial"; "nome_fantasia"; "situacao_cadastral";
       "data_situacao_cadastral"; "motivo_situacao_cadastral";
       "nome_cidade_exterior"; "pais"; "data_inicio_atividade";
       "cnae_fiscal_principal"; "cnae_fiscal_secundaria"; "tipo_logradouro";
       "logradouro"; "numero"; "complemento"; "bairro"; "cep"; "uf";
       "municipio"; "ddd1"; "telefone1"; "ddd2"; "telefone2"; "ddd_fax";
       "fax"; "email"; "situacao_especial"; "data_situacao_especial"]
  | Socio =>
      ["identificador_socio"; "qualificacao_socio"; "data_entrada_sociedade";
       "pais"; "representante_legal"; "nome_representante_legal";
       "qualificacao_representante_legal"; "faixa_etaria"]
  | _ => []
  end.

(** [capital_social = CASE WHEN ? IS NOT NULL AND ? != 0 THEN ?
                           ELSE capital_social END]. *)
Definition capital_set (capital : valor) (r : registro) : string * valor :=
  ("capital_social",
   CASE_WHEN (sql_and (sql_is_not_null capital)
                      (sql_ne capital (Some (Numero 0%Q))))
             capital (r !! "capital_social")).

(** The SET list of the UPDATE of [empresa] (lines 607-617). *)
Definition set_empresa (antes depois : list (string * valor)) (capital carimbo : valor)
    (r : registro) : list (string * valor) :=
  (coalesce_set antes r ++ [capital_set capital r]
   ++ coalesce_set depois r ++ [("data_atualizacao", carimbo)])%list.

(** Its WHERE clause (lines 618-624). *)
Definition onde_empresa (chave carimbo : valor) (r : registro) : option bool :=
  sql_and (sql_eq (r !! "cnpj_basico") chave)
    (sql_or (sql_or (sql_or (sql_or
       (sql_is_null (r !! "razao_social"))
       (sql_eq (r !! "razao_social") vazio))
       (sql_is_null (r !! "natureza_juridica")))
       (sql_eq (r !! "natureza_juridica") vazio))
       (sql_gt carimbo (r !! "data_atualizacao"))).

(** The SET list of the UPDATE of [estabelecimento] and of [socio]. *)
Definition set_coalesce_carimbo (params : list (string * valor)) (carimbo : valor)
    (r : registro) : list (string * valor) :=
  (coalesce_set params r ++ [("data_atualizacao", carimbo)])%list.

Definition onde_estabelecimento (k1 k2 k3 : valor) (r : registro) : option bool :=
  sql_and (sql_and (sql_eq (r !! "cnpj_basico") k1)
                   (sql_eq (r !! "cnpj_ordem") k2))
          (sql_eq (r !! "cnpj_dv") k3).

Definition onde_socio (k1 k2 k3 : valor) (r : registro) : option bool :=
  sql_and (sql_and (sql_eq (r !! "cnpj_basico") k1)
                   (sql_eq (r !! "nome_socio_razao_social") k2))
          (sql_eq (r !! "cpf_cnpj_socio") k3).

(** [atualizados += 1] when [cursor.rowcount > 0]. *)
Definition conta_atualizado (rowcount : nat) : nat :=
  if (0 <? rowcount)%nat then 1%nat else 0%nat.

(** *** The row loop of [_upsert_chunk_inteligente]

    Each body is one turn of the loop inside its [try]: it returns the new
    store and the increments of [inseridos] and [atualizados], or raises
    with the store as it was (a statement that fails changes nothing). *)

Definition linha_empresa (row : linha) (b : banco) : resultado (banco * (nat * nat)) :=
  chave <- celula row "cnpj_basico";;
  let tb := tb_empresa b in
  if sql_existe (fun r => sql_eq (r !! "cnpj_basico") (bind chave)) tb then
    let capital := bind (capital_do_update row) in
    antes <- le_celulas row ["razao_social"; "natureza_juridica"; "qualificacao_responsavel"];;
    depois <- le_celulas row ["porte_empresa"; "ente_federativo_responsavel"];;
    carimbo <- celula row "data_atualizacao";;
    let '(tb', rowcount) :=
      sql_update (set_empresa antes depois capital (bind carimbo))
                 (onde_empresa (bind chave) (bind carimbo)) tb in
    Retorna (com_tabela Empresa tb' b, (0%nat, conta_atualizado rowcount))
  else
    razao <- celula row "razao_social";;
    valida <- razao_social_valida razao;;
    if valida then
      let colunas := colunas_preenchidas Empresa row in
      let valores :=
        (fun c => bind (valor_do_insert_empresa c (row_get row c PyNone))) <$> colunas in
      tb' <- sql_insert (nao_nulos Empresa) (chave_primaria Empresa) colunas valores tb;;
      Retorna (com_tabela Empresa tb' b, (1%nat, 0%nat))
    else Retorna (b, (0%nat, 0%nat)).

Definition linha_estabelecimento (row : linha) (b : banco)
    : resultado (banco * (nat * nat)) :=
  k1 <- celula row "cnpj_basico";;
  k2 <- celula row "cnpj_ordem";;
  k3 <- celula row "cnpj_dv";;
  let tb := tb_estabelecimento b in
  let onde := onde_estabelecimento (bind k1) (bind k2) (bind k3) in
  if sql_existe onde tb then
    params <- le_celulas row (colunas_coalesce Estabelecimento);;
    carimbo <- celula row "data_atualizacao";;
    let '(tb', rowcount) :=
      sql_update (set_coalesce_carimbo params (bind carimbo)) onde tb in
    Retorna (com_tabela Estabelecimento tb' b, (0%nat, conta_atualizado rowcount))
  else
    let colunas := colunas_preenchidas Estabelecimento row in
    let valores := (fun c => bind (row_get row c PyNone)) <$> colunas in
    tb' <- sql_insert (nao_nulos Estabelecimento) (chave_primaria Estabelecimento)
                     colunas valores tb;;
    Retorna (com_tabela Estabelecimento tb' b, (1%nat, 0%nat)).

Definition linha_socio (row : linha) (b : banco) : resultado (banco * (nat * nat)) :=
  k1 <- celula row "cnpj_basico";;
  k2 <- celula row "nome_socio_razao_social";;
  let k3 := row_get row "cpf_cnpj_socio" (PyStr "") in
  let tb := tb_socio b in
  let onde := onde_socio (bind k1) (bind k2) (bind k3) in
  if sql_existe onde tb then
    params <- le_celulas row (colunas_coalesce Socio);;
    carimbo <- celula row "data_atualizacao";;
    let '(tb', rowcount) :=
      sql_update (set_coalesce_carimbo params (bind carimbo)) onde tb in
    Retorna (com_tabela Socio tb' b, (0%nat, conta_atualizado rowcount))
  else
    let colunas := colunas_preenchidas Socio row in
    let valores := (fun c => bind (row_get row c PyNone)) <$> colunas in
    tb' <- sql_insert (nao_nulos Socio) (chave_primaria Socio) colunas valores tb;;
    Retorna (com_tabela Socio tb' b, (1%nat, 0%nat)).

(** One turn of the loop for the table [t]; the function has no branch,
    hence no loop, for the reference types. *)
Definition corpo_linha (t : tipo) : option (linha -> banco -> resultado (banco * (nat * nat))) :=
  match t with
  | Empresa => Some linha_empresa
  | Estabelecimento => Some linha_estabelecimento
  | Socio => Some linha_socio
  | _ => None
  end.

(** [for idx, row in df.iterrows(): try: ... except Exception: continue]. *)
Fixpoint laco (corpo : linha -> banco -> resultado (banco * (nat * nat)))
    (df : quadro) (b : banco) (inseridos atualizados : nat) : banco * (nat * nat) :=
  match df with
  | [] => (b, (inseridos, atualizados))
  | row :: resto =>
      match corpo row b with
      | Retorna (b', (di, da)) =>
          laco corpo resto b' (inseridos + di)%nat (atualizados + da)%nat
      | Levanta _ => laco corpo resto b inseridos atualizados
      end
  end.

Definition _upsert_chunk_inteligente (tabela : tipo) (df : quadro) (pasta_nome : string)
    (b : banco) : banco * (nat * nat) :=
  match corpo_linha tabela with
  | Some corpo => laco corpo df b 0%nat 0%nat
  | None => (b, (0%nat, 0%nat))
  end.

Definition _inserir_chunk_linha_por_linha_upsert (tabela : tipo) (chunk : quadro)
    (pasta_nome : string) (b : banco) : banco * (nat * nat) :=
  _upsert_chunk_inteligente tabela chunk pasta_nome b.

(** *** [_remover_duplicatas] *)

(** [df.drop_duplicates(subset=...)] with the default [keep='first']: a
    row stays when no earlier row has its key. pandas takes two missing
    cells as equal. *)
Fixpoint drop_duplicates {K : Type} `{EqDecision K} (chave : linha -> K)
    (vistos : list K) (df : quadro) : quadro :=
  match df with
  | [] => []
  | row :: resto =>
      if decide (chave row ∈ vistos)
      then drop_duplicates chave vistos resto
      else row :: drop_duplicates chave (chave row :: vistos) resto
  end.

(** The cells of a row under the labels [cols]. *)
Definition subconjunto (cols : list string) (row : linha) : list (option pyval) :=
  (fun c => row !! c) <$> cols.

(** [all(col in df.columns for col in cols)], read off the rows. *)
Definition nas_colunas (cols : list string) (df : quadro) : bool :=
  forallb (fun c => forallb (fun row : linha => bool_decide (is_Some (row !! c))) df) cols.

Definition _remover_duplicatas (tabela : tipo) (df : quadro) : quadro :=
  match tabela with
  | Empresa | Estabelecimento | Socio =>
      if nas_colunas (chave_natural tabela) df
      then drop_duplicates (subconjunto (chave_natural tabela)) [] df
      else df
  | _ => df
  end.

(** *** [_importar_arquivo_principal] *)

(** [chunk.fillna('')] then [chunk.replace({'': None})]. *)
Definition limpa_celula (v : pyval) : pyval :=
  match v with
  | PyStr EmptyString => PyNone
  | _ => v
  end.

(** [f"{pasta_nome[:4]}-{pasta_nome[5:7]}-01"]. *)
Definition carimbo_de (pasta_nome : string) : string :=
  ate 4 pasta_nome ++ "-" ++ fatia 5 7 pasta_nome ++ "-01".

(** Lines 542-544 on one cell: [astype(str)] (which writes a missing cell as
    the word None), the comma turned into a point, [to_numeric] with
    [errors='coerce'] and [fillna(0)]. A cell that is a float already comes
    back as it is, but for nan. *)
Definition capital_para_numero (v : pyval) : pyval :=
  match v with
  | PyNone => PyFloat (fillna_0 (to_numeric (str_replace "," "." "None")))
  | PyStr s => PyFloat (fillna_0 (to_numeric (str_replace "," "." s)))
  | PyFloat x => PyFloat (fillna_0 x)
  end.

(** Lines 532-544 on one row of the chunk. *)
Definition prepara_linha (tabela : tipo) (pasta_nome : string) (row : linha) : linha :=
  let row1 := limpa_celula <$> row in
  let row2 := <["data_atualizacao" := PyStr (carimbo_de pasta_nome)]> row1 in
  match tabela with
  | Empresa => alter capital_para_numero "capital_social" row2
  | _ => row2
  end.

Definition prepara_chunk (tabela : tipo) (pasta_nome : string) (chunk : quadro) : quadro :=
  prepara_linha tabela pasta_nome <$> chunk.

(** One chunk of a file: lines 524-565. The model of the row loop raises
    nothing outside its own [try], so the line-by-line fallback, which runs
    the same function, is never entered. *)
Definition importa_chunk (tabela : tipo) (pasta_nome : string) (chunk : quadro)
    (b : banco) : banco * (nat * nat) :=
  match chunk with
  | [] => (b, (0%nat, 0%nat))
  | _ =>
      match _remover_duplicatas tabela (prepara_chunk tabela pasta_nome chunk) with
      | [] => (b, (0%nat, 0%nat))
      | df => _upsert_chunk_inteligente tabela df pasta_nome b
      end
  end.

(** A file on disk: its name, the name of its folder and what
    [pd.read_csv] makes of it, the rows or an exception. Read with
    [chunksize], a file that ends in an exception first yields the whole
    chunks that come before the error: [arq_parcial] holds their rows
    (none when the file cannot be opened), and is not looked at for a file
    that is read to its end. *)
Record arquivo := Arquivo {
  arq_name : string;
  arq_parent_name : string;
  arq_conteudo : resultado quadro;
  arq_parcial : quadro
}.

#[global] Instance arquivo_eq_dec : EqDecision arquivo.
Proof. solve_decision. Defined.

Definition chunk_size : nat := N.to_nat 50000.

(** The frames [read_csv(..., chunksize=n)] yields. *)
Fixpoint em_chunks (passos n : nat) (linhas : quadro) : list quadro :=
  match passos with
  | O => []
  | S p =>
      match linhas with
      | [] => []
      | _ => take n linhas :: em_chunks p n (drop n linhas)
      end
  end.

Fixpoint importa_chunks (tabela : tipo) (pasta_nome : string) (chunks : list quadro)
    (b : banco) (total_registros atualizacoes : nat) : banco * (nat * nat) :=
  match chunks with
  | [] => (b, (total_registros, atualizacoes))
  | chunk :: resto =>
      let '(b', (i, a)) := importa_chunk tabela pasta_nome chunk b in
      importa_chunks tabela pasta_nome resto b'
        (total_registros + i)%nat (atualizacoes + a)%nat
  end.

(** The reader is consumed inside the [try]: when it raises, the chunks
    it has yielded are applied already (each call of the engine ends in a
    commit), and the function returns [(0, 0)]. *)
Definition _importar_arquivo_principal (tabela : tipo) (arq : arquivo)
    (pasta_nome : string) (b : banco) : banco * (nat * nat) :=
  match arq_conteudo arq with
  | Retorna linhas =>
      importa_chunks tabela pasta_nome
        (em_chunks (length linhas) chunk_size linhas) b 0%nat 0%nat
  | Levanta _ =>
      let lidas := arq_parcial arq in
      ((importa_chunks tabela pasta_nome
          (em_chunks (length lidas) chunk_size lidas) b 0%nat 0%nat).1,
       (0%nat, 0%nat))
  end.

(** *** Ordering by period *)

(** Python's stable sort: [x] goes before the first element that is not
    smaller than it. *)
Fixpoint insere {A : Type} (menor : A -> A -> bool) (x : A) (l : list A) : list A :=
  match l with
  | [] => [x]
  | y :: resto => if menor y x then y :: insere menor x resto else x :: y :: resto
  end.

Definition sorted {A : Type} (menor : A -> A -> bool) (l : list A) : list A :=
  foldr (insere menor) [] l.

(** [(x.parent.name[:4], x.parent.name[5:7])]. *)
Definition chave_periodo (arq : arquivo) : string * string :=
  (ate 4 (arq_parent_name arq), fatia 5 7 (arq_parent_name arq)).

(** Order of two tuples of strings. *)
Definition tupla_lt (a b : string * string) : bool :=
  match String.compare a.1 b.1 with
  | Lt => true
  | Eq => String.ltb a.2 b.2
  | Gt => false
  end.

Definition arquivos_ordenados (arquivos : list arquivo) : list arquivo :=
  sorted (fun x y => tupla_lt (chave_periodo x) (chave_periodo y)) arquivos.

Fixpoint importa_arquivos (tabela : tipo) (arquivos : list arquivo) (b : banco)
    (total_geral total_atualizacoes : nat) : banco * (nat * nat) :=
  match arquivos with
  | [] => (b, (total_geral, total_atualizacoes))
  | arq :: resto =>
      let '(b', (i, a)) :=
        _importar_arquivo_principal tabela arq (arq_parent_name arq) b in
      importa_arquivos tabela resto b' (total_geral + i)%nat (total_atualizacoes + a)%nat
  end.

Abbreviation estrutura := (gmap tipo (list arquivo)).

Definition tabelas_principais : list tipo := [Empresa; Estabelecimento; Socio].

Definition importar_dados_principais (estrutura_completa : estrutura) (b : banco) : banco :=
  foldl
    (fun b tabela =>
       match estrutura_completa !! tabela with
       | Some arquivos =>
           (importa_arquivos tabela (arquivos_ordenados arquivos) b 0%nat 0%nat).1
       | None => b
       end)
    b tabelas_principais.

(** *** Discovery of folders and files *)

(** An entry of a folder and an entry of the base directory, in the
    order [glob("*")] lists them. *)
Record item := Item {
  it_name : string;
  it_is_file : bool;
  it_conteudo : resultado quadro;
  it_parcial : quadro
}.

Record entrada := Entrada {
  ent_name : string;
  ent_is_dir : bool;
  ent_itens : list item
}.

#[global] Instance item_eq_dec : EqDecision item.
Proof. solve_decision. Defined.

#[global] Instance entrada_eq_dec : EqDecision entrada.
Proof. solve_decision. Defined.

(** The test of lines 127-130 on a folder name; [nome_pasta[4]] is read
    only when the length is seven. *)
Definition formato_periodo (nome_pasta : string) : bool :=
  (String.length nome_pasta =? 7)%nat
  && match get 4 nome_pasta with
     | Some a => Ascii.eqb a "-"
     | None => false
     end
  && isdigit (ate 4 nome_pasta)
  && isdigit (desde 5 nome_pasta).

(** Paths of one directory compare by their names. *)
Definition encontrar_todas_pastas (diretorio_base : list entrada) : resultado (list entrada) :=
  let pastas_encontradas :=
    List.filter (fun e => ent_is_dir e && formato_periodo (ent_name e)) diretorio_base in
  Retorna (sorted (fun x y => String.ltb (ent_name x) (ent_name y)) pastas_encontradas).

(** [self.mapeamento_arquivos], in insertion order. *)
Definition mapeamento_arquivos : list (string * tipo) :=
  [("EMPRECSV", Empresa); ("ESTABLELE", Estabelecimento);
   ("ESTABELE", Estabelecimento); ("ESTABEL", Estabelecimento);
   ("SOCIOCSV", Socio); ("CNAECSV", Cnae); ("MUNICCSV", Municipio);
   ("NATJUCSV", NaturezaJuridica); ("PAISCSV", Pais);
   ("QUALSCSV", QualificacaoSocio); ("MOTICSV", MotivoSituacao)].

(** The first pattern of a table found in the name. *)
Fixpoint primeiro_padrao (padroes : list (string * tipo)) (nome_upper : string) : option tipo :=
  match padroes with
  | [] => None
  | (sufixo, tabela) :: resto =>
      if contem sufixo nome_upper then Some tabela else primeiro_padrao resto nome_upper
  end.

(** Lines 213-237: the mapping, then the cascade of inferences. *)
Definition tipo_do_nome (nome_upper : string) : option tipo :=
  match primeiro_padrao mapeamento_arquivos nome_upper with
  | Some t => Some t
  | None =>
      if contem "EMPRE" nome_upper then Some Empresa
      else if contem "ESTAB" nome_upper || contem "FILIAL" nome_upper
           then Some Estabelecimento
      else if contem "SOCIO" nome_upper then Some Socio
      else if contem "CNAE" nome_upper then Some Cnae
      else if contem "MUNIC" nome_upper then Some Municipio
      else if contem "NATJ" nome_upper then Some NaturezaJuridica
      else if contem "PAIS" nome_upper then Some Pais
      else if contem "QUAL" nome_upper then Some QualificacaoSocio
      else if contem "MOTIC" nome_upper then Some MotivoSituacao
      else None
  end.

(** [name.rfind('.')], scanning from position [i]. *)
Fixpoint rfind_ponto (s : string) (i : nat) (achado : option nat) : option nat :=
  match s with
  | EmptyString => achado
  | String a s' => rfind_ponto s' (S i) (if Ascii.eqb a "." then Some i else achado)
  end.

(** [Path.suffix]. *)
Definition suffix (name : string) : string :=
  match rfind_ponto name 0 None with
  | Some i =>
      if (0 <? i)%nat && (i <? String.length name - 1)%nat then desde i name else ""
  | None => ""
  end.

Definition identificar_arquivos_pasta (pasta : entrada) : estrutura :=
  foldl
    (fun (arquivos_encontrados : estrutura) (it : item) =>
       if negb (it_is_file it) then arquivos_encontrados
       else if String.eqb (upper (suffix (it_name it))) ".ZIP" then arquivos_encontrados
       else
         match tipo_do_nome (upper (it_name it)) with
         | Some t =>
             <[t := (default [] (arquivos_encontrados !! t)
                     ++ [Arquivo (it_name it) (ent_name pasta) (it_conteudo it) (it_parcial it)])%list]>
               arquivos_encontrados
         | None => arquivos_encontrados
         end)
    ∅ (ent_itens pasta).

(** [estrutura_completa[tipo].extend(lista_arquivos)] for each type of
    the folder. *)
Definition consolida (estrutura_completa arquivos_pasta : estrutura) : estrutura :=
  union_with (fun l1 l2 => Some (l1 ++ l2)%list) estrutura_completa arquivos_pasta.

Definition escanear_estrutura_completa (diretorio_base : list entrada) : resultado estrutura :=
  pastas <- encontrar_todas_pastas diretorio_base;;
  Retorna (foldl (fun e pasta => consolida e (identificar_arquivos_pasta pasta)) ∅ pastas).

(** *** [importar_tabelas_referencia] *)

Definition tabelas_referencia : list tipo :=
  [Cnae; Municipio; NaturezaJuridica; Pais; QualificacaoSocio; MotivoSituacao].

(** [df.to_sql(tabela, conn, if_exists='replace', index=False)]: the
    table is dropped and written anew from the frame. *)
Definition to_sql (df : quadro) : list registro :=
  (fun row : linha => omap bind row) <$> df.

(** One turn of the loop of lines 417-438. *)
Definition importa_referencia (estrutura_completa : estrutura) (b : banco) (tabela : tipo)
    : banco :=
  match estrutura_completa !! tabela with
  | Some (arquivo_ref :: _) =>
      match arq_conteudo arquivo_ref with
      | Retorna df => com_tabela tabela (to_sql (drop_duplicates id [] df)) b
      | Levanta _ => b
      end
  | _ => b
  end.

Definition importar_tabelas_referencia (estrutura_completa : estrutura) (b : banco) : banco :=
  foldl (importa_referencia estrutura_completa) b tabelas_referencia.

(** [importar_tudo] on the store [criar_tabelas] left. *)
Definition importar_tudo (diretorio_base : list entrada) (b : banco) : resultado banco :=
  estrutura_completa <- escanear_estrutura_completa diretorio_base;;
  if decide (estrutura_completa = ∅) then Retorna b
  else Retorna (importar_dados_principais estrutura_completa
                  (importar_tabelas_referencia estrutura_completa b)).

End Importador.
Export Importador.

(** ** The geocoding script [georreferenciar.py]

    The script reads the addresses of the table [estabelecimentos_tratados],
    asks a geocoding service for each and writes the answer into the column
    [coordenada_wkt]. The service is outside the program: the functions
    take its answers as a parameter. *)

Module Georreferenciar.

(** What raises in the script: a number has no [strip], [join] takes
    strings only. *)
Inductive excecao_geo :=
| GeoAttributeError
| GeoTypeError.

Inductive saida (A : Type) :=
| Devolve (a : A)
| Falha (e : excecao_geo).
Arguments Devolve {A} a.
Arguments Falha {A} e.

(** What a call of [geocode] does: it returns a location, whose longitude
    and latitude are given as Python writes them, it returns [None], or
    it raises an exception whose text is [mensagem]. *)
Inductive resposta :=
| Localizacao (longitude latitude : string)
| NaoEncontrado
| Excecao (mensagem : string).

(** A value the cursor yields for a column. *)
Definition do_cursor (v : valor) : pyval :=
  match v with
  | None => PyNone
  | Some (Texto s) => PyStr s
  | Some (Numero q) => PyFloat q
  end.

(** Truth value of an object in a condition. *)
Definition verdade (v : pyval) : bool :=
  match v with
  | PyNone => false
  | PyStr s => negb (String.eqb s "")
  | PyFloat q => q_nao_zero q
  end.

(** [sep.join(partes)]. *)
Fixpoint join (sep : string) (partes : list pyval) : saida string :=
  match partes with
  | [] => Devolve ""
  | PyStr s :: resto =>
      match resto with
      | [] => Devolve s
      | _ =>
          match join sep resto with
          | Devolve t => Devolve (s ++ sep ++ t)
          | Falha e => Falha e
          end
      end
  | _ :: _ => Falha GeoTypeError
  end.

(** [numero and numero.strip().isdigit()] as a condition. *)
Definition numero_valido (numero : pyval) : saida bool :=
  match numero with
  | PyNone => Devolve false
  | PyStr s => Devolve (negb (String.eqb s "") && isdigit (strip s))
  | PyFloat q => if q_nao_zero q then Falha GeoAttributeError else Devolve false
  end.

Definition construir_endereco (logradouro numero : pyval) : saida pyval :=
  let partes1 := if verdade logradouro then [logradouro] else [] in
  match numero_valido numero with
  | Falha e => Falha e
  | Devolve valido =>
      let partes2 := (partes1 ++ (if valido then [numero] else []))%list in
      match join ", " (partes2 ++ [PyStr "Garopaba, SC"])%list with
      | Devolve s => Devolve (PyStr s)
      | Falha e => Falha e
      end
  end.

(** The text written when the service finds nothing; the cedilla and the
    tilde are the code points 199 and 195. *)
Definition nao_encontrado : string :=
  "ENDERE" ++ String "199" ("O N" ++ String "195" "O ENCONTRADO").

Section Servico.

Variable geocode : pyval -> resposta.

Definition geocodificar_endereco (endereco : pyval) : string :=
  match geocode endereco with
  | Localizacao longitude latitude => "POINT(" ++ longitude ++ " " ++ latitude ++ ")"
  | NaoEncontrado => nao_encontrado
  | Excecao mensagem => "ERRO: " ++ mensagem
  end.

(** [UPDATE estabelecimentos_tratados SET coordenada_wkt = ?
     WHERE cnpj_basico = ? AND cnpj_ordem = ? AND cnpj_dv = ?]. *)
Definition salvar_coordenada (cnpj_basico cnpj_ordem cnpj_dv : pyval)
    (coordenada_wkt : string) (tb : list registro) : list registro :=
  (sql_update (fun _ => [("coordenada_wkt", Some (Texto coordenada_wkt))])
     (onde_estabelecimento (bind cnpj_basico) (bind cnpj_ordem) (bind cnpj_dv)) tb).1.

(** A row of the query of lines 20-30. *)
Record consulta := Consulta {
  q_cnpj_basico : pyval;
  q_cnpj_ordem : pyval;
  q_cnpj_dv : pyval;
  q_logradouro : pyval;
  q_numero : pyval
}.

(** [SELECT ... WHERE logradouro IS NOT NULL AND numero IS NOT NULL]
    then [fetchall()]. *)
Definition busca (tb : list registro) : list consulta :=
  (fun r : registro =>
     Consulta (do_cursor (r !! "cnpj_basico")) (do_cursor (r !! "cnpj_ordem"))
       (do_cursor (r !! "cnpj_dv")) (do_cursor (r !! "logradouro"))
       (do_cursor (r !! "numero")))
  <$> List.filter
        (fun r : registro =>
           verdadeiro (sql_and (sql_is_not_null (r !! "logradouro"))
                               (sql_is_not_null (r !! "numero"))))
        tb.

(** The table as the open transaction sees it, the table as last
    committed, and the three counters. *)
Record estado := Estado {
  em_curso : list registro;
  confirmado : list registro;
  total_processados : nat;
  enderecos_validos : nat;
  enderecos_invalidos : nat
}.

(** The loop of lines 43-71 from the record number [i]; it stops at the
    first exception, which it hands back with the state it met. *)
Fixpoint laco_registros (registros : list consulta) (i : nat) (st : estado)
    : estado * option excecao_geo :=
  match registros with
  | [] => (st, None)
  | registro :: resto =>
      match construir_endereco (q_logradouro registro) (q_numero registro) with
      | Falha e => (st, Some e)
      | Devolve PyNone =>
          laco_registros resto (S i)
            (Estado (em_curso st) (confirmado st) (total_processados st)
               (enderecos_validos st) (S (enderecos_invalidos st)))
      | Devolve endereco =>
          let coordenada_wkt := geocodificar_endereco endereco in
          let tb :=
            salvar_coordenada (q_cnpj_basico registro) (q_cnpj_ordem registro)
              (q_cnpj_dv registro) coordenada_wkt (em_curso st) in
          laco_registros resto (S i)
            (Estado tb (if (i mod 10 =? 0)%nat then tb else confirmado st)
               (S (total_processados st)) (S (enderecos_validos st))
               (enderecos_invalidos st))
      end
  end.

(** The statistics printed at the end: records, valid, invalid,
    processed. *)
Record estatisticas := Estatisticas {
  est_registros : nat;
  est_validos : nat;
  est_invalidos : nat;
  est_processados : nat
}.

(** [geocodificar_enderecos] on the table [tb]: the table the database
    holds when the connection is closed, and the statistics when the run
    reached them (an exception rolls back to the last commit). *)
Definition geocodificar_enderecos (tb : list registro)
    : list registro * option estatisticas :=
  let registros := busca tb in
  match laco_registros registros 1 (Estado tb tb 0 0 0) with
  | (st, None) =>
      (em_curso st,
       Some (Estatisticas (length registros) (enderecos_validos st)
               (enderecos_invalidos st) (total_processados st)))
  | (st, Some _) => (confirmado st, None)
  end.

End Servico.

End Georreferenciar.

(** * Properties *)

#[local] Open Scope list_scope.

(** Closed decidable facts are settled by evaluating their decision. *)
Ltac calcula := apply (bool_decide_unpack _); vm_compute; exact I.

(** ** Columns written by a SET list *)

(** The value the rightmost assignment to [c] gives, if there is one. *)
Fixpoint atribuido (c : string) (atribs : list (string * valor)) : option valor :=
  match atribs with
  | [] => None
  | a :: resto =>
      match atribuido c resto with
      | Some v => Some v
      | None => if decide (a.1 = c) then Some a.2 else None
      end
  end.

(** The merge of one text column. *)
Definition mescla (p antigo : valor) : valor := COALESCE (NULLIF p vazio) antigo.

(** The parameters [le_celulas] binds when every label is present. *)
Definition params_de (row : linha) (cols : list string) : list (string * valor) :=
  (fun c => (c, bind (default PyNone (row !! c)))) <$> cols.

(** A blank cell: the empty string or null. *)
Definition em_branco (v : pyval) : Prop := v = PyNone \/ v = PyStr "".

(** The cell of a row, a missing label read as null. *)
Definition pycel (row : linha) (c : string) : pyval := default PyNone (row !! c).

(** The lookup of the natural key of [row] in the table of [t], as the
    SELECT of each branch writes it. *)
Definition casa_chave (t : tipo) (row : linha) (r : registro) : option bool :=
  match t with
  | Empresa => sql_eq (r !! "cnpj_basico") (bind (pycel row "cnpj_basico"))
  | Estabelecimento =>
      onde_estabelecimento (bind (pycel row "cnpj_basico"))
        (bind (pycel row "cnpj_ordem")) (bind (pycel row "cnpj_dv")) r
  | Socio =>
      onde_socio (bind (pycel row "cnpj_basico"))
        (bind (pycel row "nome_socio_razao_social"))
        (bind (row_get row "cpf_cnpj_socio" (PyStr ""))) r
  | _ => None
  end.

(** The WHERE clause of the UPDATE of each branch. *)
Definition seleciona (t : tipo) (row : linha) (r : registro) : option bool :=
  match t with
  | Empresa =>
      onde_empresa (bind (pycel row "cnpj_basico")) (bind (pycel row "data_atualizacao")) r
  | _ => casa_chave t row r
  end.

(** The SET list of the UPDATE of each branch. *)
Definition atribuicoes (t : tipo) (row : linha) (r : registro) : list (string * valor) :=
  match t with
  | Empresa =>
      set_empresa
        (params_de row ["razao_social"; "natureza_juridica"; "qualificacao_responsavel"])
        (params_de row ["porte_empresa"; "ente_federativo_responsavel"])
        (bind (capital_do_update row)) (bind (pycel row "data_atualizacao")) r
  | Estabelecimento | Socio =>
      set_coalesce_carimbo (params_de row (colunas_coalesce t))
        (bind (pycel row "data_atualizacao")) r
  | _ => []
  end.

(** What the UPDATE of a branch does to one stored row. *)
Definition atualiza (t : tipo) (row : linha) (r : registro) : registro :=
  if verdadeiro (seleciona t row r) then sql_set (atribuicoes t row r) r else r.

(** The labels the UPDATE branch of [t] reads with [row[...]]. *)
Definition lidas_no_update (t : tipo) : list string :=
  (colunas_coalesce t ++ ["data_atualizacao"])%list.

(** What one turn of the row loop can do: raise, leave the store as it
    is, append one row, or run its UPDATE over the table. *)
Definition passo (t : tipo) (row : linha) (b : banco)
    (res : resultado (banco * (nat * nat))) : Prop :=
  (exists e, res = Levanta e)
  \/ (sql_existe (casa_chave t row) (tabela_de t b) = false
      /\ (res = Retorna (b, (0%nat, 0%nat))
          \/ exists novo,
               res = Retorna (com_tabela t (tabela_de t b ++ [novo]) b, (1%nat, 0%nat))))
  \/ (sql_existe (casa_chave t row) (tabela_de t b) = true
      /\ Forall (fun c => is_Some (row !! c)) (lidas_no_update t)
      /\ res = Retorna (com_tabela t (atualiza t row <$> tabela_de t b) b,
                        (0%nat, if sql_existe (seleciona t row) (tabela_de t b)
                                then 1%nat else 0%nat))).

(** The fields an UPDATE merges: the text columns of its SET list and,
    for [empresa], the capital. *)
Definition campo_mesclavel (t : tipo) (F : string) : Prop :=
  F ∈ colunas_coalesce t \/ (t = Empresa /\ F = "capital_social").

(** The incoming value of [F] is blank. *)
Definition entrada_em_branco (F : string) (row : linha) : Prop :=
  forall v, row !! F = Some v -> em_branco v.

(** The incoming row brings nothing to write into [F]: a blank cell or,
    for the capital, a zero. *)
Definition nada_a_gravar (F : string) (row : linha) : Prop :=
  forall v, row !! F = Some v ->
    em_branco v
    \/ (F = "capital_social" /\ exists q, v = PyFloat q /\ q_nao_zero q = false).

(** Every row of [tb] is still in [tb'] at its place with the same [F]. *)
Definition preserva (F : string) (tb tb' : list registro) : Prop :=
  forall i antigo, tb !! i = Some antigo ->
    exists novo, tb' !! i = Some novo /\ novo !! F = antigo !! F.

(** *** Sample rows

    Rows as [read_csv] yields them with [dtype=str] and
    [na_filter=False]: every cell a string, the blank ones empty. *)

Definition linha_de (celulas : list (string * string)) : linha :=
  list_to_map ((fun cs => (cs.1, PyStr cs.2)) <$> celulas).

Definition ex_empresa (cnpj razao natureza capital porte : string) : linha :=
  linha_de
    [("cnpj_basico", cnpj); ("razao_social", razao); ("natureza_juridica", natureza);
     ("qualificacao_responsavel", "49"); ("capital_social", capital);
     ("porte_empresa", porte); ("ente_federativo_responsavel", "")].

Definition ex_estabelecimento (cnpj ordem dv fantasia telefone : string) : linha :=
  linha_de
    [("cnpj_basico", cnpj); ("cnpj_ordem", ordem); ("cnpj_dv", dv);
     ("identificador_matriz_filial", "1"); ("nome_fantasia", fantasia);
     ("situacao_cadastral", "02"); ("data_situacao_cadastral", "20050101");
     ("motivo_situacao_cadastral", "00"); ("nome_cidade_exterior", "");
     ("pais", ""); ("data_inicio_atividade", "20050101");
     ("cnae_fiscal_principal", "5611201"); ("cnae_fiscal_secundaria", "");
     ("tipo_logradouro", "RUA"); ("logradouro", "DAS FLORES"); ("numero", "10");
     ("complemento", ""); ("bairro", "CENTRO"); ("cep", "88495000"); ("uf", "SC");
     ("municipio", "8113"); ("ddd1", "48"); ("telefone1", telefone);
     ("ddd2", ""); ("telefone2", ""); ("ddd_fax", ""); ("fax", ""); ("email", "");
     ("situacao_especial", ""); ("data_situacao_especial", "")].

Definition ex_socio (cnpj nome cpf qualificacao : string) : linha :=
  linha_de
    [("cnpj_basico", cnpj); ("identificador_socio", "2");
     ("nome_socio_razao_social", nome); ("cpf_cnpj_socio", cpf);
     ("qualificacao_socio", qualificacao); ("data_entrada_sociedade", "20050101");
     ("pais", ""); ("representante_legal", ""); ("nome_representante_legal", "");
     ("qualificacao_representante_legal", "00"); ("faixa_etaria", "4")].

(** The store after a first file. *)
Definition ex_banco_estabelecimento : banco :=
  (importa_chunk Estabelecimento "2023-05"
     [ex_estabelecimento "12345678" "0001" "95" "BAR DO ZE" "32540000"]
     banco_vazio).1.

(** The stored row [r] carries the natural key of [row], every key
    column a non-empty text. *)
Definition mesma_chave (t : tipo) (row : linha) (r : registro) : Prop :=
  Forall (fun c => exists s, s <> "" /\ row !! c = Some (PyStr s) /\ r !! c = Some (Texto s))
         (chave_natural t).

Definition ex_registro_estabelecimento : registro :=
  default ∅ (tb_estabelecimento ex_banco_estabelecimento !! 0%nat).

(** A later snapshot of the same establishment with every mergeable
    cell blank. *)
Definition ex_estabelecimento_em_branco : linha :=
  linha_de
    ([("cnpj_basico", "12345678"); ("cnpj_ordem", "0001"); ("cnpj_dv", "95")]
     ++ ((fun c => (c, "")) <$> colunas_coalesce Estabelecimento))%list.

(** A stored text that is NULL or empty. *)
Definition texto_em_branco (v : valor) : Prop := v = None \/ v = Some (Texto "").

(** The guard of the UPDATE of [empresa], as designed: the stored row
    lacks its legal name or its legal nature, or its stamp is older than
    the incoming one. *)
Definition atualizavel (r : registro) (carimbo : string) : Prop :=
  texto_em_branco (r !! "razao_social")
  \/ texto_em_branco (r !! "natureza_juridica")
  \/ exists s, r !! "data_atualizacao" = Some (Texto s)
               /\ String.compare carimbo s = Gt.

(** The stored row is complete and its stamp is not older. *)
Definition completo_e_recente (r : registro) (carimbo : string) : Prop :=
  (exists s, s <> "" /\ r !! "razao_social" = Some (Texto s))
  /\ (exists s, s <> "" /\ r !! "natureza_juridica" = Some (Texto s))
  /\ exists s, r !! "data_atualizacao" = Some (Texto s)
               /\ String.compare carimbo s <> Gt.

(** The store after two files: the company arrives without its legal
    nature in 2023-05 and is completed in 2023-06. *)
Definition ex_banco_empresa_incompleta : banco :=
  (importa_chunk Empresa "2023-05"
     [ex_empresa "12345678" "ACME LTDA" "" "10000,00" ""] banco_vazio).1.

Definition ex_banco_empresa_completa : banco :=
  (importa_chunk Empresa "2023-06"
     [ex_empresa "12345678" "ACME LTDA" "2062" "10000,00" ""]
     ex_banco_empresa_incompleta).1.

Definition ex_registro_empresa_incompleta : registro :=
  default ∅ (tb_empresa ex_banco_empresa_incompleta !! 0%nat).

Definition ex_registro_empresa_completa : registro :=
  default ∅ (tb_empresa ex_banco_empresa_completa !! 0%nat).

(** The value of a capital written as a plain decimal: an optional sign
    and at most 15 digits with a comma or a point among them, no exponent,
    between white space of the C library. On these texts the parser of
    pandas is exact: [to_numeric] gives the float nearest to the value. *)
Definition le_capital (s : string) : option Q :=
  match le_literal (apara isspace_ascii (str_replace "," "." s)) with
  | Some l =>
      if negb (lit_tem_expoente l) && (lit_digitos l <=? 15)%nat
      then Some (valor_decimal l)
      else None
  | None => None
  end.



(** [x] is not after [y] for the strict order [menor]. *)
Definition nao_depois {A : Type} (menor : A -> A -> bool) (x y : A) : Prop :=
  menor y x = false.

(** The order of two periods (year, month), both compared as strings:
    the earlier year, or the same year and a month that is not later. *)
Definition periodo_le (a b : string * string) : Prop :=
  String.compare a.1 b.1 = Lt
  \/ (a.1 = b.1 /\ String.compare a.2 b.2 <> Gt).

(** The number a string of decimal digits denotes. *)
Definition numero (s : string) : Z := (le_digitos s 0 0).1.1.

(** A string of the ten decimal digits only. *)
Definition so_digitos (s : string) : Prop :=
  Forall (fun a => is_Some (digito a)) (list_ascii_of_string s).

(** The files of type [t] of one folder, in listing order. *)
Definition arquivos_do_tipo (t : tipo) (pasta : entrada) : list arquivo :=
  default [] (identificar_arquivos_pasta pasta !! t).

(** A base directory with the activity catalogue in two periods, listed
    newest first. *)
Definition ex_cnae (codigo descricao : string) : linha :=
  linha_de [("codigo", codigo); ("descricao", descricao)].

Definition ex_diretorio_base : list entrada :=
  [Entrada "2024-01" true
     [Item "F.K03200$Z.D40113.CNAECSV" true
        (Retorna [ex_cnae "0111301" "Cultivo de arroz";
                  ex_cnae "9999999" "Atividade nova"]) []];
   Entrada "2023-05" true
     [Item "F.K03200$Z.D30513.CNAECSV" true
        (Retorna [ex_cnae "0111301" "Cultivo de arroz";
                  ex_cnae "0111301" "Cultivo de arroz";
                  ex_cnae "0111302" "Cultivo de milho"]) []]].

(** The values the INSERT of each branch binds, in the order of its
    column list. *)
Definition valores_do_insert (t : tipo) (row : linha) : list valor :=
  match t with
  | Empresa =>
      (fun c => bind (valor_do_insert_empresa c (row_get row c PyNone)))
        <$> colunas_preenchidas t row
  | _ => (fun c => bind (row_get row c PyNone)) <$> colunas_preenchidas t row
  end.

(** The row the INSERT of a branch writes. *)
Definition novo_registro (t : tipo) (row : linha) : registro :=
  sql_set (zip (colunas_preenchidas t row) (valores_do_insert t row)) ∅.

(** No two rows of the table collide on the key [pk]. *)
Definition sem_colisao (pk : list string) (tb : list registro) : Prop :=
  forall i j ri rj, i <> j -> tb !! i = Some ri -> tb !! j = Some rj ->
    colide pk ri rj = false.


(** A legal name that is missing or only white space. *)
Definition razao_em_branco (v : pyval) : Prop :=
  v = PyNone \/ exists s, v = PyStr s /\ strip s = "".

(** The store after a first file of partners. *)
Definition ex_banco_socio : banco :=
  (importa_chunk Socio "2023-05" [ex_socio "12345678" "JOAO DA SILVA" "111" "49"]
     banco_vazio).1.

(** The columns the DDL declares as DATE and the files fill; SQLite
    stores a text of digits written to them as a number. *)
Definition colunas_data : list string :=
  ["data_situacao_cadastral"; "data_inicio_atividade"; "data_situacao_especial";
   "data_entrada_sociedade"].

(** The stored company has a legal name. *)
Definition razao_preenchida (r : registro) : Prop :=
  ~ texto_em_branco (r !! "razao_social").

(** The frame [read_csv] yields for a company file one column short: the
    labels are the cells of its first line. *)
Definition ex_quadro_estreito : quadro :=
  [linha_de [("12345678", "87654321"); ("ACME LTDA", "BETA SA"); ("2062", "2062");
             ("49", "49"); ("10000,00", "500,00"); ("03", "01")]].

(** The test [identificar_arquivos_pasta] makes before it files an entry
    of a folder under the type [t]: a file, not a ZIP, with a name of
    that type. *)
Definition classificado (t : tipo) (it : item) : bool :=
  it_is_file it
  && negb (String.eqb (upper (suffix (it_name it))) ".ZIP")
  && bool_decide (tipo_do_nome (upper (it_name it)) = Some t).

(** The path of an entry of the folder [pasta]. *)
Definition arquivo_de (pasta : entrada) (it : item) : arquivo :=
  Arquivo (it_name it) (ent_name pasta) (it_conteudo it) (it_parcial it).

(** The sort key of a file, read off the name of its folder. *)
Definition chave_do_nome (nome : string) : string * string :=
  (ate 4 nome, fatia 5 7 nome).

(** The substrings the cascade of [identificar_arquivos_pasta] looks
    for. *)
Definition indicios : list string :=
  ["EMPRE"; "ESTAB"; "FILIAL"; "SOCIO"; "CNAE"; "MUNIC"; "NATJ"; "PAIS"; "QUAL"; "MOTIC"].

(** A folder with a compressed archive beside the extracted file. *)
Definition ex_pasta_zip : entrada :=
  Entrada "2023-05" true
    [Item "Empresas0.zip" true (Levanta OperationalError) [];
     Item "K3241.K03200Y0.D30513.EMPRECSV" true
       (Retorna [ex_empresa "12345678" "ACME LTDA" "2062" "10000,00" "03"]) []].

(** A period written with the ten decimal digits. *)
Definition periodo_decimal (p : string) : Prop :=
  formato_periodo p = true /\ so_digitos (ate 4 p) /\ so_digitos (fatia 5 7 p).

(** A structure whose first file of activity codes cannot be read, and a
    later one that can. *)
Definition ex_estrutura_ilegivel : estrutura :=
  {[Cnae := [Arquivo "F.K03200$Z.D30513.CNAECSV" "2023-05" (Levanta OperationalError) [];
             Arquivo "F.K03200$Z.D40113.CNAECSV" "2024-01"
               (Retorna [ex_cnae "0111301" "Cultivo de arroz"]) []]]}.

(** A stored company with its legal name and its legal nature and with
    no period stamp, as the INSERT of [empresa] leaves a complete row. *)
Definition completa_sem_carimbo (r : registro) : Prop :=
  (exists s, s <> "" /\ r !! "razao_social" = Some (Texto s))
  /\ (exists s, s <> "" /\ r !! "natureza_juridica" = Some (Texto s))
  /\ r !! "data_atualizacao" = None.

(** The store after a first file that brings a complete company. *)
Definition ex_banco_empresa_nova : banco :=
  (importa_chunk Empresa "2023-05"
     [ex_empresa "12345678" "ACME LTDA" "2062" "10000,00" "01"] banco_vazio).1.

Definition ex_registro_empresa_nova : registro :=
  default ∅ (tb_empresa ex_banco_empresa_nova !! 0%nat).

(** No street and no house number of the table is stored as a number. *)
Definition enderecos_em_texto (tb : list registro) : Prop :=
  Forall (fun r : registro =>
            forall q, r !! "logradouro" <> Some (Numero q)
                      /\ r !! "numero" <> Some (Numero q)) tb.

(** A table of treated establishments: a street with a number, one
    without number (S/N), and a row without street. *)
Definition ex_tratados : list registro :=
  [list_to_map [("cnpj_basico", Texto "12345678"); ("cnpj_ordem", Texto "0001");
                ("cnpj_dv", Texto "95"); ("logradouro", Texto "RUA DAS FLORES");
                ("numero", Texto "10")];
   list_to_map [("cnpj_basico", Texto "12345678"); ("cnpj_ordem", Texto "0002");
                ("cnpj_dv", Texto "76"); ("logradouro", Texto "RUA DO PORTO");
                ("numero", Texto "S/N"); ("coordenada_wkt", Texto "POINT(0 0)")];
   list_to_map [("cnpj_basico", Texto "87654321"); ("cnpj_ordem", Texto "0001");
                ("cnpj_dv", Texto "10"); ("numero", Texto "5")]].

(** A service that knows one address. *)
Definition ex_geocode (endereco : pyval) : Georreferenciar.resposta :=
  match endereco with
  | PyStr "RUA DAS FLORES, 10, Garopaba, SC" =>
      Georreferenciar.Localizacao "-48.6206" "-28.0275"
  | _ => Georreferenciar.NaoEncontrado
  end.

(** The three tables of the merge engine. *)
Definition principal (t : tipo) : Prop :=
  t = Empresa \/ t = Estabelecimento \/ t = Socio.

Lemma lookup_grava (c c' : string) (v : valor) (r : registro) :
  grava c v r !! c' = if decide (c = c') then v else r !! c'.
Proof.
  unfold grava. destruct v as [d|]; case_decide; subst.
  - apply lookup_insert_eq.
  - by apply lookup_insert_ne.
  - apply lookup_delete_eq.
  - by apply lookup_delete_ne.
Qed.

Lemma lookup_sql_set (atribs : list (string * valor)) (r : registro) (c : string) :
  sql_set atribs r !! c = default (r !! c) (atribuido c atribs).
Proof.
  unfold sql_set. revert r.
  induction atribs as [|[c0 v0] resto IH]; intros r; simpl; [done|].
  rewrite IH. destruct (atribuido c resto) as [v|]; simpl; [done|].
  rewrite lookup_grava. by case_decide.
Qed.

Lemma atribuido_app (c : string) (l1 l2 : list (string * valor)) :
  atribuido c (l1 ++ l2) =
  match atribuido c l2 with
  | Some v => Some v
  | None => atribuido c l1
  end.
Proof.
  induction l1 as [|a l1 IH]; simpl.
  - by destruct (atribuido c l2).
  - rewrite IH. by destruct (atribuido c l2).
Qed.

Lemma atribuido_coalesce_set (c : string) (params : list (string * valor)) (r : registro) :
  atribuido c (coalesce_set params r) = (fun p => mescla p (r !! c)) <$> atribuido c params.
Proof.
  induction params as [|[c0 p0] resto IH]; [done|].
  unfold coalesce_set in *. rewrite fmap_cons. cbn [atribuido]. rewrite IH.
  destruct (atribuido c resto); simpl; [done|].
  case_decide; by subst.
Qed.

Lemma atribuido_params_de (c : string) (row : linha) (cols : list string) :
  atribuido c (params_de row cols) =
  if decide (c ∈ cols) then Some (bind (default PyNone (row !! c))) else None.
Proof.
  induction cols as [|c0 resto IH]; [done|].
  unfold params_de in *. rewrite fmap_cons. cbn [atribuido]. rewrite IH. simpl.
  destruct (decide (c ∈ resto)) as [Hin|Hnin].
  - rewrite decide_True; [done|by right].
  - destruct (decide (c0 = c)) as [->|Hne].
    + rewrite decide_True; [done|by left].
    + rewrite decide_False; [done|]. intros [?|?]%elem_of_cons; by subst.
Qed.

Lemma le_celulas_params (row : linha) (cols : list string) (ps : list (string * valor)) :
  le_celulas row cols = Retorna ps ->
  ps = params_de row cols /\ Forall (fun c => is_Some (row !! c)) cols.
Proof.
  revert ps. induction cols as [|c resto IH]; intros ps; simpl.
  - intros [= <-]. by split.
  - unfold celula. destruct (row !! c) as [v|] eqn:Hc; simpl; [|done].
    destruct (le_celulas row resto) as [vs|] eqn:Hr; simpl; [|done].
    intros [= <-]. destruct (IH vs eq_refl) as [-> Hall].
    split; [done|]. constructor; [by eexists|done].
Qed.

Lemma le_celulas_presentes (row : linha) (cols : list string) :
  Forall (fun c => is_Some (row !! c)) cols ->
  le_celulas row cols = Retorna (params_de row cols).
Proof.
  induction 1 as [|c resto [v Hc] _ IH]; simpl; [done|].
  unfold celula. by rewrite Hc, IH.
Qed.

Lemma mescla_em_branco (v : pyval) (antigo : valor) :
  em_branco v -> mescla (bind v) antigo = antigo.
Proof. by intros [-> | ->]. Qed.

Lemma string_compare_refl (s : string) : String.compare s s = Eq.
Proof.
  induction s as [|a s IH]; simpl; [done|].
  unfold Ascii.compare. by rewrite N.compare_refl.
Qed.

Lemma mescla_texto (s : string) (antigo : valor) :
  s <> "" -> mescla (Some (Texto s)) antigo = Some (Texto s).
Proof.
  intros Hs. unfold mescla, NULLIF, vazio. simpl.
  destruct (String.compare s "") eqn:Hcmp; try done.
  by apply String.compare_eq_iff in Hcmp.
Qed.

Lemma mescla_idem (p antigo : valor) :
  mescla p (mescla p antigo) = mescla p antigo.
Proof. unfold mescla, COALESCE. by destruct (NULLIF p vazio). Qed.

(** ** The shape of one turn of the row loop *)

Lemma tabela_de_com_tabela (t : tipo) (tb : list registro) (b : banco) :
  tabela_de t (com_tabela t tb b) = tb.
Proof. by destruct b, t. Qed.

Lemma tabela_de_com_tabela_ne (t t' : tipo) (tb : list registro) (b : banco) :
  t <> t' -> tabela_de t' (com_tabela t tb b) = tabela_de t' b.
Proof. by destruct b, t, t'. Qed.

Lemma com_tabela_com_tabela (t : tipo) (tb tb' : list registro) (b : banco) :
  com_tabela t tb (com_tabela t tb' b) = com_tabela t tb b.
Proof. by destruct b, t. Qed.

Lemma com_tabela_tabela_de (t : tipo) (b : banco) :
  com_tabela t (tabela_de t b) b = b.
Proof. by destruct b, t. Qed.

Lemma sql_update_tabela (set : registro -> list (string * valor))
    (onde : registro -> option bool) (tb : list registro) :
  (sql_update set onde tb).1 =
  (fun r => if verdadeiro (onde r) then sql_set (set r) r else r) <$> tb.
Proof. done. Qed.

Lemma sql_update_rowcount (set : registro -> list (string * valor))
    (onde : registro -> option bool) (tb : list registro) :
  conta_atualizado (sql_update set onde tb).2 =
  if sql_existe onde tb then 1%nat else 0%nat.
Proof.
  unfold sql_update, sql_existe, conta_atualizado. simpl.
  induction tb as [|r tb IH]; [done|].
  rewrite filter_cons. simpl. by destruct (verdadeiro (onde r)) eqn:Hr.
Qed.

Lemma sql_insert_forma (nn pk colunas : list string) (valores : list valor)
    (tb tb' : list registro) :
  sql_insert nn pk colunas valores tb = Retorna tb' ->
  tb' = tb ++ [sql_set (zip colunas valores) ∅].
Proof.
  unfold sql_insert. destruct colunas as [|c cs]; [done|].
  repeat case_match; by intros [= <-].
Qed.


Lemma liga_retorna {A B : Type} (m : resultado A) (f : A -> resultado B) (y : B) :
  liga m f = Retorna y -> exists x, m = Retorna x /\ f x = Retorna y.
Proof. destruct m as [x|e]; simpl; [by exists x|done]. Qed.

Lemma celula_retorna (row : linha) (c : string) (v : pyval) :
  celula row c = Retorna v -> row !! c = Some v.
Proof. unfold celula. by destruct (row !! c); intros [= ->]. Qed.

Lemma resultado_casos {A : Type} (m : resultado A) :
  (exists e, m = Levanta e) \/ (exists x, m = Retorna x).
Proof. destruct m; eauto. Qed.

Lemma linha_empresa_passo (row : linha) (b : banco) :
  passo Empresa row b (linha_empresa row b).
Proof.
  destruct (resultado_casos (linha_empresa row b)) as [?|[res Hres]]; [by left|].
  right. rewrite Hres. unfold linha_empresa in Hres.
  apply liga_retorna in Hres as (k & Hk%celula_retorna & Hres).
  assert (Heq : (fun r : registro => sql_eq (r !! "cnpj_basico") (bind k))
                = casa_chave Empresa row).
  { unfold casa_chave, pycel. rewrite Hk. reflexivity. }
  rewrite Heq in Hres. simpl tabela_de.
  destruct (sql_existe (casa_chave Empresa row) (tb_empresa b)) eqn:Hex.
  - right. split; [done|].
    apply liga_retorna in Hres as (antes & [-> Ha]%le_celulas_params & Hres).
    apply liga_retorna in Hres as (depois & [-> Hd]%le_celulas_params & Hres).
    apply liga_retorna in Hres as (st & Hst%celula_retorna & Hres).
    split.
    { unfold lidas_no_update. apply Forall_app. split.
      - change (colunas_coalesce Empresa) with
          (["razao_social"; "natureza_juridica"; "qualificacao_responsavel"]
           ++ ["porte_empresa"; "ente_federativo_responsavel"]).
        by apply Forall_app.
      - constructor; [by eexists|constructor]. }
    destruct (sql_update _ _ _) as [tb' rc] eqn:Hup.
    injection Hres as <-. do 3 f_equal.
    + pose proof (sql_update_tabela
        (set_empresa
           (params_de row ["razao_social"; "natureza_juridica"; "qualificacao_responsavel"])
           (params_de row ["porte_empresa"; "ente_federativo_responsavel"])
           (bind (capital_do_update row)) (bind st))
        (onde_empresa (bind k) (bind st)) (tb_empresa b)) as Htb.
      rewrite Hup in Htb. simpl in Htb. rewrite Htb.
      unfold atualiza, seleciona, atribuicoes, pycel. by rewrite Hk, Hst.
    + pose proof (sql_update_rowcount
        (set_empresa
           (params_de row ["razao_social"; "natureza_juridica"; "qualificacao_responsavel"])
           (params_de row ["porte_empresa"; "ente_federativo_responsavel"])
           (bind (capital_do_update row)) (bind st))
        (onde_empresa (bind k) (bind st)) (tb_empresa b)) as Hrc.
      rewrite Hup in Hrc. simpl in Hrc. rewrite Hrc.
      unfold seleciona, pycel. by rewrite Hk, Hst.
  - left. split; [done|].
    apply liga_retorna in Hres as (rz & Hrz%celula_retorna & Hres).
    apply liga_retorna in Hres as (valida & Hval & Hres).
    destruct valida.
    + apply liga_retorna in Hres as (tb' & ->%sql_insert_forma & [= <-]).
      right. by eexists.
    + injection Hres as <-. by left.
Qed.

Lemma linha_estabelecimento_passo (row : linha) (b : banco) :
  passo Estabelecimento row b (linha_estabelecimento row b).
Proof.
  destruct (resultado_casos (linha_estabelecimento row b)) as [?|[res Hres]]; [by left|].
  right. rewrite Hres. unfold linha_estabelecimento in Hres.
  apply liga_retorna in Hres as (k1 & Hk1%celula_retorna & Hres).
  apply liga_retorna in Hres as (k2 & Hk2%celula_retorna & Hres).
  apply liga_retorna in Hres as (k3 & Hk3%celula_retorna & Hres).
  assert (Heq : onde_estabelecimento (bind k1) (bind k2) (bind k3)
                = casa_chave Estabelecimento row).
  { unfold casa_chave, pycel. rewrite Hk1, Hk2, Hk3. reflexivity. }
  rewrite Heq in Hres. simpl tabela_de.
  destruct (sql_existe (casa_chave Estabelecimento row) (tb_estabelecimento b)) eqn:Hex.
  - right. split; [done|].
    apply liga_retorna in Hres as (params & [-> Ha]%le_celulas_params & Hres).
    apply liga_retorna in Hres as (st & Hst%celula_retorna & Hres).
    split.
    { unfold lidas_no_update. apply Forall_app. split; [done|].
      constructor; [by eexists|constructor]. }
    destruct (sql_update _ _ _) as [tb' rc] eqn:Hup.
    injection Hres as <-. do 3 f_equal.
    + pose proof (sql_update_tabela
        (set_coalesce_carimbo (params_de row (colunas_coalesce Estabelecimento)) (bind st))
        (casa_chave Estabelecimento row) (tb_estabelecimento b)) as Htb.
      rewrite Hup in Htb. simpl in Htb. rewrite Htb.
      unfold atualiza, seleciona, atribuicoes, pycel. by rewrite Hst.
    + pose proof (sql_update_rowcount
        (set_coalesce_carimbo (params_de row (colunas_coalesce Estabelecimento)) (bind st))
        (casa_chave Estabelecimento row) (tb_estabelecimento b)) as Hrc.
      rewrite Hup in Hrc. simpl in Hrc. by rewrite Hrc.
  - left. split; [done|].
    apply liga_retorna in Hres as (tb' & ->%sql_insert_forma & [= <-]).
    right. by eexists.
Qed.

Lemma linha_socio_passo (row : linha) (b : banco) :
  passo Socio row b (linha_socio row b).
Proof.
  destruct (resultado_casos (linha_socio row b)) as [?|[res Hres]]; [by left|].
  right. rewrite Hres. unfold linha_socio in Hres.
  apply liga_retorna in Hres as (k1 & Hk1%celula_retorna & Hres).
  apply liga_retorna in Hres as (k2 & Hk2%celula_retorna & Hres).
  assert (Heq : onde_socio (bind k1) (bind k2)
                  (bind (row_get row "cpf_cnpj_socio" (PyStr "")))
                = casa_chave Socio row).
  { unfold casa_chave, pycel. rewrite Hk1, Hk2. reflexivity. }
  rewrite Heq in Hres. simpl tabela_de.
  destruct (sql_existe (casa_chave Socio row) (tb_socio b)) eqn:Hex.
  - right. split; [done|].
    apply liga_retorna in Hres as (params & [-> Ha]%le_celulas_params & Hres).
    apply liga_retorna in Hres as (st & Hst%celula_retorna & Hres).
    split.
    { unfold lidas_no_update. apply Forall_app. split; [done|].
      constructor; [by eexists|constructor]. }
    destruct (sql_update _ _ _) as [tb' rc] eqn:Hup.
    injection Hres as <-. do 3 f_equal.
    + pose proof (sql_update_tabela
        (set_coalesce_carimbo (params_de row (colunas_coalesce Socio)) (bind st))
        (casa_chave Socio row) (tb_socio b)) as Htb.
      rewrite Hup in Htb. simpl in Htb. rewrite Htb.
      unfold atualiza, seleciona, atribuicoes, pycel. by rewrite Hst.
    + pose proof (sql_update_rowcount
        (set_coalesce_carimbo (params_de row (colunas_coalesce Socio)) (bind st))
        (casa_chave Socio row) (tb_socio b)) as Hrc.
      rewrite Hup in Hrc. simpl in Hrc. by rewrite Hrc.
  - left. split; [done|].
    apply liga_retorna in Hres as (tb' & ->%sql_insert_forma & [= <-]).
    right. by eexists.
Qed.

Lemma corpo_passo (t : tipo) corpo (row : linha) (b : banco) :
  corpo_linha t = Some corpo -> passo t row b (corpo row b).
Proof.
  destruct t; intros [= <-];
    auto using linha_empresa_passo, linha_estabelecimento_passo, linha_socio_passo.
Qed.

(** ** Columns of an updated row *)

Lemma carimbo_fora_das_mescladas (t : tipo) :
  "data_atualizacao" ∉ colunas_coalesce t.
Proof. destruct t; apply (bool_decide_unpack _); by vm_compute. Qed.

Lemma capital_fora_das_mescladas (t : tipo) :
  "capital_social" ∉ colunas_coalesce t.
Proof. destruct t; apply (bool_decide_unpack _); by vm_compute. Qed.

Lemma lookup_atualizado_coalesce (t : tipo) (row : linha) (r : registro) (c : string) :
  c ∈ colunas_coalesce t ->
  sql_set (atribuicoes t row r) r !! c = mescla (bind (pycel row c)) (r !! c).
Proof.
  intros Hc.
  assert (Hst : "data_atualizacao" <> c).
  { intros <-. by apply (carimbo_fora_das_mescladas t). }
  assert (Hcap : "capital_social" <> c).
  { intros <-. by apply (capital_fora_das_mescladas t). }
  rewrite lookup_sql_set.
  destruct t; try (by apply elem_of_nil in Hc); unfold atribuicoes.
  - unfold set_empresa, capital_set.
    rewrite !atribuido_app, !atribuido_coalesce_set, !atribuido_params_de.
    simpl atribuido.
    rewrite (decide_False (P := "data_atualizacao" = c)) by done.
    rewrite (decide_False (P := "capital_social" = c)) by done.
    change (colunas_coalesce Empresa) with
      (["razao_social"; "natureza_juridica"; "qualificacao_responsavel"]
       ++ ["porte_empresa"; "ente_federativo_responsavel"]) in Hc.
    apply elem_of_app in Hc.
    destruct (decide (c ∈ ["porte_empresa"; "ente_federativo_responsavel"])); [done|].
    destruct (decide (c ∈ ["razao_social"; "natureza_juridica";
                            "qualificacao_responsavel"])); [done|].
    by destruct Hc.
  - unfold set_coalesce_carimbo.
    rewrite atribuido_app, atribuido_coalesce_set, atribuido_params_de.
    simpl atribuido.
    rewrite (decide_False (P := "data_atualizacao" = c)) by done.
    by rewrite decide_True.
  - unfold set_coalesce_carimbo.
    rewrite atribuido_app, atribuido_coalesce_set, atribuido_params_de.
    simpl atribuido.
    rewrite (decide_False (P := "data_atualizacao" = c)) by done.
    by rewrite decide_True.
Qed.

Lemma lookup_atualizado_carimbo (t : tipo) (row : linha) (r : registro) :
  principal t ->
  sql_set (atribuicoes t row r) r !! "data_atualizacao"
  = bind (pycel row "data_atualizacao").
Proof.
  intros Ht. rewrite lookup_sql_set.
  destruct Ht as [-> | [-> | ->]]; unfold atribuicoes.
  - unfold set_empresa. by rewrite !atribuido_app.
  - unfold set_coalesce_carimbo. by rewrite atribuido_app.
  - unfold set_coalesce_carimbo. by rewrite atribuido_app.
Qed.

Lemma lookup_atualizado_capital (row : linha) (r : registro) :
  sql_set (atribuicoes Empresa row r) r !! "capital_social"
  = (capital_set (bind (capital_do_update row)) r).2.
Proof.
  rewrite lookup_sql_set. unfold atribuicoes, set_empresa.
  rewrite !atribuido_app, !atribuido_coalesce_set, !atribuido_params_de.
  reflexivity.
Qed.

Lemma lookup_atualizado_outra (t : tipo) (row : linha) (r : registro) (c : string) :
  c ∉ colunas_coalesce t -> c <> "data_atualizacao" ->
  (t = Empresa -> c <> "capital_social") ->
  sql_set (atribuicoes t row r) r !! c = r !! c.
Proof.
  intros Hc Hst Hcap. rewrite lookup_sql_set.
  destruct t; try done; unfold atribuicoes.
  - unfold set_empresa, capital_set.
    rewrite !atribuido_app, !atribuido_coalesce_set, !atribuido_params_de.
    simpl atribuido.
    change (colunas_coalesce Empresa) with
      (["razao_social"; "natureza_juridica"; "qualificacao_responsavel"]
       ++ ["porte_empresa"; "ente_federativo_responsavel"]) in Hc.
    rewrite elem_of_app in Hc.
    rewrite !decide_False; [done|..]; try (intros <-; done).
    + intros Hin. apply Hc. by left.
    + intros ?. by apply Hcap.
    + intros Hin. apply Hc. by right.
  - unfold set_coalesce_carimbo.
    rewrite atribuido_app, atribuido_coalesce_set, atribuido_params_de.
    simpl atribuido. rewrite !decide_False; done.
  - unfold set_coalesce_carimbo.
    rewrite atribuido_app, atribuido_coalesce_set, atribuido_params_de.
    simpl atribuido. rewrite !decide_False; done.
Qed.

(** ** Non-regression of the stored fields *)

Lemma preserva_refl (F : string) (tb : list registro) : preserva F tb tb.
Proof. intros i r Hr. by exists r. Qed.

Lemma preserva_trans (F : string) (tb1 tb2 tb3 : list registro) :
  preserva F tb1 tb2 -> preserva F tb2 tb3 -> preserva F tb1 tb3.
Proof.
  intros H12 H23 i r1 Hr1.
  destruct (H12 i r1 Hr1) as (r2 & Hr2 & Heq2).
  destruct (H23 i r2 Hr2) as (r3 & Hr3 & Heq3).
  exists r3. split; [done|congruence].
Qed.

Lemma q_zero_compara (q : Q) : q_nao_zero q = false -> Qcompare q 0 = Eq.
Proof.
  unfold q_nao_zero, Qcompare. destruct q as [n d]. simpl.
  intros Hn%negb_false_iff%Z.eqb_eq. subst. reflexivity.
Qed.

Lemma q_zero_forma (x : flutuante) :
  q_nao_zero x = false -> exists q : Q, x = Real (Finito q) /\ q_nao_zero q = false.
Proof. destruct x as [[q|neg]|]; try done. intros Hq. by exists q. Qed.

Lemma capital_set_zero (q : Q) (r : registro) :
  q_nao_zero q = false ->
  (capital_set (Some (Numero q)) r).2 = r !! "capital_social".
Proof.
  intros Hq. unfold capital_set, CASE_WHEN, sql_ne, sql_eq. simpl.
  by rewrite (q_zero_compara q Hq).
Qed.

Lemma capital_do_update_nada (row : linha) (r : registro) :
  nada_a_gravar "capital_social" row ->
  (capital_set (bind (capital_do_update row)) r).2 = r !! "capital_social".
Proof.
  intros Hrow. unfold capital_do_update, row_get.
  destruct (row !! "capital_social") as [v|] eqn:Hv; simpl; [|done].
  destruct (Hrow v Hv) as [[-> | ->] | (_ & x & -> & Hx)]; try done.
  destruct (q_zero_forma x Hx) as (q & -> & Hq).
  by apply capital_set_zero.
Qed.

Lemma atualiza_nada_a_gravar (t : tipo) (row : linha) (r : registro) (F : string) :
  campo_mesclavel t F -> nada_a_gravar F row ->
  Forall (fun c => is_Some (row !! c)) (lidas_no_update t) ->
  atualiza t row r !! F = r !! F.
Proof.
  intros HF Hrow Hlidas. unfold atualiza.
  destruct (verdadeiro (seleciona t row r)); [|done].
  destruct HF as [HF | [-> ->]].
  - rewrite lookup_atualizado_coalesce by done.
    unfold lidas_no_update in Hlidas. apply Forall_app in Hlidas as [Hl _].
    rewrite Forall_forall in Hl. destruct (Hl F HF) as [v Hv].
    unfold pycel. rewrite Hv. simpl.
    destruct (Hrow v Hv) as [Hb | (-> & _)].
    + by apply mescla_em_branco.
    + by apply capital_fora_das_mescladas in HF.
  - rewrite lookup_atualizado_capital. by apply capital_do_update_nada.
Qed.

Lemma passo_preserva (t : tipo) (row : linha) (b b' : banco) (n : nat * nat) (F : string) :
  campo_mesclavel t F -> nada_a_gravar F row ->
  passo t row b (Retorna (b', n)) ->
  preserva F (tabela_de t b) (tabela_de t b').
Proof.
  intros HF Hrow [[e ?] | [[_ [? | [novo ?]]] | (_ & Hl & ?)]]; simplify_eq.
  - apply preserva_refl.
  - rewrite tabela_de_com_tabela. intros i r Hr. exists r.
    split; [|done]. by apply lookup_app_l_Some.
  - rewrite tabela_de_com_tabela. intros i r Hr.
    exists (atualiza t row r). rewrite list_lookup_fmap, Hr. split; [done|].
    by apply atualiza_nada_a_gravar.
Qed.

Lemma laco_preserva (t : tipo) corpo (df : quadro) (b : banco) (i a : nat) (F : string) :
  corpo_linha t = Some corpo ->
  campo_mesclavel t F -> Forall (nada_a_gravar F) df ->
  preserva F (tabela_de t b) (tabela_de t (laco corpo df b i a).1).
Proof.
  intros Hcorpo HF Hdf. revert b i a.
  induction Hdf as [|row df Hrow _ IH]; intros b i a; simpl.
  - apply preserva_refl.
  - pose proof (corpo_passo t corpo row b Hcorpo) as Hp.
    destruct (corpo row b) as [[b' [di da]]|e]; [|apply IH].
    eapply preserva_trans; [|apply IH].
    by eapply passo_preserva.
Qed.

Lemma upsert_preserva (t : tipo) (df : quadro) (p : string) (b : banco) (F : string) :
  campo_mesclavel t F -> Forall (nada_a_gravar F) df ->
  preserva F (tabela_de t b) (tabela_de t (_upsert_chunk_inteligente t df p b).1).
Proof.
  intros HF Hdf. unfold _upsert_chunk_inteligente.
  destruct (corpo_linha t) as [corpo|] eqn:Hc; [|apply preserva_refl].
  by apply laco_preserva.
Qed.

Lemma drop_duplicates_sublist {K : Type} `{EqDecision K} (chave : linha -> K)
    (vistos : list K) (df : quadro) :
  drop_duplicates chave vistos df `sublist_of` df.
Proof.
  revert vistos. induction df as [|row df IH]; intros vistos; simpl; [done|].
  case_decide; [apply sublist_cons|apply sublist_skip]; apply IH.
Qed.

Lemma Forall_sublist {A : Type} (P : A -> Prop) (l1 l2 : list A) :
  l1 `sublist_of` l2 -> Forall P l2 -> Forall P l1.
Proof.
  rewrite !Forall_forall. intros Hsub H x Hx. apply H.
  by eapply elem_of_sublist.
Qed.

Lemma _remover_duplicatas_sublist (t : tipo) (df : quadro) :
  _remover_duplicatas t df `sublist_of` df.
Proof.
  unfold _remover_duplicatas.
  destruct t; try done; case_match; try done; apply drop_duplicates_sublist.
Qed.

Lemma prepara_linha_lookup_coalesce (t : tipo) (p : string) (row : linha) (F : string) :
  F ∈ colunas_coalesce t ->
  prepara_linha t p row !! F = limpa_celula <$> row !! F.
Proof.
  intros HF.
  assert (Hst : "data_atualizacao" <> F).
  { intros <-. by apply (carimbo_fora_das_mescladas t). }
  assert (Hcap : "capital_social" <> F).
  { intros <-. by apply (capital_fora_das_mescladas t). }
  unfold prepara_linha.
  destruct t; rewrite ?lookup_alter_ne by done;
    by rewrite lookup_insert_ne, lookup_fmap by done.
Qed.

Lemma prepara_linha_lookup_capital (p : string) (row : linha) :
  prepara_linha Empresa p row !! "capital_social"
  = capital_para_numero <$> (limpa_celula <$> row !! "capital_social").
Proof.
  unfold prepara_linha.
  rewrite lookup_alter_eq, lookup_insert_ne, lookup_fmap by done. done.
Qed.

Lemma prepara_linha_nada_a_gravar (t : tipo) (p : string) (row : linha) (F : string) :
  campo_mesclavel t F -> entrada_em_branco F row ->
  nada_a_gravar F (prepara_linha t p row).
Proof.
  intros [HF | [-> ->]] Hrow v.
  - rewrite prepara_linha_lookup_coalesce by done.
    destruct (row !! F) as [v0|] eqn:Hv0; simpl; [|done].
    intros [= <-]. left. left. by destruct (Hrow v0 Hv0) as [-> | ->].
  - rewrite prepara_linha_lookup_capital.
    destruct (row !! "capital_social") as [v0|] eqn:Hv0; simpl; [|done].
    intros [= <-]. right. split; [done|]. exists 0%Q.
    by destruct (Hrow v0 Hv0) as [-> | ->].
Qed.

(** C2. Non-regression of stored data. For every mergeable field [F] of
    every table, a batch whose rows all bring a blank [F] (the empty string
    or null) leaves the stored value of [F] of every stored row as it was,
    whether the rows reach the merge engine directly or through the
    preparation of a chunk of a file. *)
Theorem C2_nao_regressao (t : tipo) (F : string) (df : quadro) (p : string) (b : banco) :
  campo_mesclavel t F ->
  Forall (entrada_em_branco F) df ->
  preserva F (tabela_de t b) (tabela_de t (_upsert_chunk_inteligente t df p b).1)
  /\ preserva F (tabela_de t b) (tabela_de t (importa_chunk t p df b).1).
Proof.
  intros HF Hdf. split.
  - apply upsert_preserva; [done|].
    eapply Forall_impl; [exact Hdf|]. intros row Hrow v Hv. left. by apply Hrow.
  - unfold importa_chunk. destruct df as [|row0 df0]; [apply preserva_refl|].
    set (df := row0 :: df0) in *.
    assert (Hprep : Forall (nada_a_gravar F) (_remover_duplicatas t (prepara_chunk t p df))).
    { eapply Forall_sublist; [apply _remover_duplicatas_sublist|].
      unfold prepara_chunk. apply Forall_fmap.
      eapply Forall_impl; [exact Hdf|]. intros row Hrow. simpl.
      by apply prepara_linha_nada_a_gravar. }
    destruct (_remover_duplicatas t (prepara_chunk t p df)) as [|r1 rs] eqn:Hd;
      [apply preserva_refl|].
    by apply upsert_preserva.
Qed.

Lemma C2_nao_regressao_witness :
  campo_mesclavel Estabelecimento "telefone1"
  /\ Forall (entrada_em_branco "telefone1")
       [ex_estabelecimento "12345678" "0001" "95" "BAR DO ZE" ""]
  /\ preserva "telefone1"
       (tabela_de Estabelecimento ex_banco_estabelecimento)
       (tabela_de Estabelecimento
          (_upsert_chunk_inteligente Estabelecimento
             [ex_estabelecimento "12345678" "0001" "95" "BAR DO ZE" ""]
             "2024-01" ex_banco_estabelecimento).1)
  /\ preserva "telefone1"
       (tabela_de Estabelecimento ex_banco_estabelecimento)
       (tabela_de Estabelecimento
          (importa_chunk Estabelecimento "2024-01"
             [ex_estabelecimento "12345678" "0001" "95" "BAR DO ZE" ""]
             ex_banco_estabelecimento).1).
Proof.
  assert (H1 : campo_mesclavel Estabelecimento "telefone1").
  { left. apply (bool_decide_unpack _). by vm_compute. }
  assert (H2 : Forall (entrada_em_branco "telefone1")
                 [ex_estabelecimento "12345678" "0001" "95" "BAR DO ZE" ""]).
  { constructor; [|constructor]. intros v Hv. vm_compute in Hv.
    injection Hv as <-. by right. }
  split; [exact H1|]. split; [exact H2|].
  exact (C2_nao_regressao Estabelecimento "telefone1" _ "2024-01"
           ex_banco_estabelecimento H1 H2).
Defined.

(** ** The UPDATE branch of a turn *)

Lemma prepara_linha_lookup_carimbo (t : tipo) (p : string) (row : linha) :
  prepara_linha t p row !! "data_atualizacao" = Some (PyStr (carimbo_de p)).
Proof.
  unfold prepara_linha.
  destruct t; rewrite ?lookup_alter_ne by done; by rewrite lookup_insert_eq.
Qed.

Lemma prepara_linha_lookup_outra (t : tipo) (p : string) (row : linha) (c : string) :
  c <> "data_atualizacao" -> (t = Empresa -> c <> "capital_social") ->
  prepara_linha t p row !! c = limpa_celula <$> row !! c.
Proof.
  intros Hst Hcap. unfold prepara_linha.
  destruct t; rewrite ?lookup_alter_ne by (intros <-; by apply Hcap);
    by rewrite lookup_insert_ne, lookup_fmap by done.
Qed.

Lemma prepara_linha_presente (t : tipo) (p : string) (row : linha) (c : string) :
  is_Some (row !! c) -> is_Some (prepara_linha t p row !! c).
Proof.
  intros [v Hv]. unfold prepara_linha.
  assert (H1 : is_Some ((<["data_atualizacao" := PyStr (carimbo_de p)]>
                           (limpa_celula <$> row)) !! c)).
  { destruct (decide ("data_atualizacao" = c)) as [<-|Hne].
    - rewrite lookup_insert_eq. by eexists.
    - rewrite lookup_insert_ne, lookup_fmap, Hv by done. by eexists. }
  destruct t; try done.
  destruct (decide ("capital_social" = c)) as [<-|Hne].
  - rewrite lookup_alter_eq. destruct H1 as [w ->]. by eexists.
  - by rewrite lookup_alter_ne.
Qed.

Lemma sql_existe_lookup (onde : registro -> option bool) (tb : list registro)
    (i : nat) (r : registro) :
  tb !! i = Some r -> verdadeiro (onde r) = true -> sql_existe onde tb = true.
Proof.
  intros Hi Hr. unfold sql_existe. apply existsb_exists. exists r. split; [|done].
  apply list_elem_of_In. by eapply list_elem_of_lookup_2.
Qed.

Lemma sql_eq_texto (s : string) : sql_eq (Some (Texto s)) (Some (Texto s)) = Some true.
Proof. unfold sql_eq. simpl. by rewrite string_compare_refl. Qed.

Lemma limpa_texto (s : string) : s <> "" -> limpa_celula (PyStr s) = PyStr s.
Proof. by destruct s. Qed.

Lemma pycel_prepara (t : tipo) (p : string) (row : linha) (c s : string) :
  c <> "data_atualizacao" -> (t = Empresa -> c <> "capital_social") ->
  s <> "" -> row !! c = Some (PyStr s) ->
  prepara_linha t p row !! c = Some (PyStr s).
Proof.
  intros Hst Hcap Hs Hrow.
  rewrite prepara_linha_lookup_outra, Hrow by done.
  change (limpa_celula <$> Some (PyStr s)) with (Some (limpa_celula (PyStr s))).
  by rewrite limpa_texto.
Qed.

Lemma mesma_chave_casa (t : tipo) (p : string) (row : linha) (r : registro) :
  principal t -> mesma_chave t row r ->
  verdadeiro (casa_chave t (prepara_linha t p row) r) = true.
Proof.
  intros Ht Hk. unfold mesma_chave in Hk.
  destruct Ht as [-> | [-> | ->]]; simpl in Hk; rewrite !Forall_cons in Hk.
  - destruct Hk as ((s & Hs & Hrow & Hr) & _).
    unfold casa_chave, pycel.
    rewrite (pycel_prepara _ _ _ _ s), Hr by done.
    simpl default. simpl bind. by rewrite sql_eq_texto.
  - destruct Hk as ((s1 & Hs1 & Hrow1 & Hr1) & (s2 & Hs2 & Hrow2 & Hr2)
                    & (s3 & Hs3 & Hrow3 & Hr3) & _).
    unfold casa_chave, onde_estabelecimento, pycel.
    rewrite (pycel_prepara _ _ _ _ s1), (pycel_prepara _ _ _ _ s2),
      (pycel_prepara _ _ _ _ s3), Hr1, Hr2, Hr3 by done.
    simpl default. simpl bind. by rewrite !sql_eq_texto.
  - destruct Hk as ((s1 & Hs1 & Hrow1 & Hr1) & (s2 & Hs2 & Hrow2 & Hr2)
                    & (s3 & Hs3 & Hrow3 & Hr3) & _).
    unfold casa_chave, onde_socio, pycel, row_get.
    rewrite (pycel_prepara _ _ _ _ s1), (pycel_prepara _ _ _ _ s2),
      (pycel_prepara _ _ _ _ s3), Hr1, Hr2, Hr3 by done.
    simpl default. simpl bind. by rewrite !sql_eq_texto.
Qed.

(** With every label it reads present and the key found, a turn runs its
    UPDATE. *)
Lemma corpo_atualiza (t : tipo) corpo (row : linha) (b : banco) :
  corpo_linha t = Some corpo ->
  Forall (fun c => is_Some (row !! c)) (chave_natural t) ->
  Forall (fun c => is_Some (row !! c)) (lidas_no_update t) ->
  sql_existe (casa_chave t row) (tabela_de t b) = true ->
  corpo row b =
  Retorna (com_tabela t (atualiza t row <$> tabela_de t b) b,
           (0%nat, if sql_existe (seleciona t row) (tabela_de t b) then 1%nat else 0%nat)).
Proof.
  intros Hcorpo Hk Hl Hex.
  assert (Hret : exists res, corpo row b = Retorna res).
  { unfold lidas_no_update in Hl. apply Forall_app in Hl as [Hl Hst].
    apply Forall_cons in Hst as [[st Hst] _].
    destruct t; simpl in Hcorpo; simplify_eq; simpl in Hk; rewrite !Forall_cons in Hk.
    - destruct Hk as ([k Hk] & _).
      assert (Heq : (fun r : registro => sql_eq (r !! "cnpj_basico") (bind k))
                    = casa_chave Empresa row).
      { unfold casa_chave, pycel. rewrite Hk. reflexivity. }
      change (colunas_coalesce Empresa) with
        (["razao_social"; "natureza_juridica"; "qualificacao_responsavel"]
         ++ ["porte_empresa"; "ente_federativo_responsavel"]) in Hl.
      apply Forall_app in Hl as [Hl1 Hl2].
      unfold linha_empresa, celula. rewrite Hk. cbn [liga].
      rewrite Heq. simpl in Hex. rewrite Hex.
      rewrite (le_celulas_presentes _ _ Hl1). cbn [liga].
      rewrite (le_celulas_presentes _ _ Hl2). cbn [liga].
      rewrite Hst. cbn [liga]. destruct (sql_update _ _ _). by eexists.
    - destruct Hk as ([k1 Hk1] & [k2 Hk2] & [k3 Hk3] & _).
      assert (Heq : onde_estabelecimento (bind k1) (bind k2) (bind k3)
                    = casa_chave Estabelecimento row).
      { unfold casa_chave, pycel. rewrite Hk1, Hk2, Hk3. reflexivity. }
      unfold linha_estabelecimento, celula. rewrite Hk1, Hk2, Hk3. cbn [liga].
      rewrite Heq. simpl in Hex. rewrite Hex.
      rewrite (le_celulas_presentes _ _ Hl). cbn [liga].
      rewrite Hst. cbn [liga]. destruct (sql_update _ _ _). by eexists.
    - destruct Hk as ([k1 Hk1] & [k2 Hk2] & _).
      assert (Heq : onde_socio (bind k1) (bind k2)
                      (bind (row_get row "cpf_cnpj_socio" (PyStr "")))
                    = casa_chave Socio row).
      { unfold casa_chave, pycel. rewrite Hk1, Hk2. reflexivity. }
      unfold linha_socio, celula. rewrite Hk1, Hk2. cbn [liga].
      rewrite Heq. simpl in Hex. rewrite Hex.
      rewrite (le_celulas_presentes _ _ Hl). cbn [liga].
      rewrite Hst. cbn [liga]. destruct (sql_update _ _ _). by eexists. }
  destruct Hret as [res Hres].
  pose proof (corpo_passo t corpo row b Hcorpo) as Hp. rewrite Hres in Hp.
  destruct Hp as [[e ?] | [[Hno _] | (_ & _ & ?)]]; [done|congruence|congruence].
Qed.

Lemma colunas_coalesce_no_esquema (t : tipo) :
  Forall (fun c => c ∈ estrutura_colunas t) (colunas_coalesce t).
Proof. destruct t; apply (bool_decide_unpack _); by vm_compute. Qed.

Lemma chave_natural_no_esquema (t : tipo) :
  Forall (fun c => c ∈ estrutura_colunas t) (chave_natural t).
Proof. destruct t; apply (bool_decide_unpack _); by vm_compute. Qed.

Lemma Forall_contido {A : Type} (P : A -> Prop) (l1 l2 : list A) :
  Forall (fun x => x ∈ l2) l1 -> Forall P l2 -> Forall P l1.
Proof.
  rewrite !Forall_forall. intros Hsub H x Hx. by apply H, Hsub.
Qed.

Lemma prepara_linha_lidas (t : tipo) (p : string) (row : linha) :
  Forall (fun c => is_Some (row !! c)) (estrutura_colunas t) ->
  Forall (fun c => is_Some (prepara_linha t p row !! c)) (chave_natural t)
  /\ Forall (fun c => is_Some (prepara_linha t p row !! c)) (lidas_no_update t).
Proof.
  intros Hrow.
  assert (Hprep : Forall (fun c => is_Some (prepara_linha t p row !! c))
                    (estrutura_colunas t)).
  { eapply Forall_impl; [exact Hrow|]. intros c. apply prepara_linha_presente. }
  split.
  - eapply Forall_contido; [apply chave_natural_no_esquema|done].
  - unfold lidas_no_update. apply Forall_app. split.
    + eapply Forall_contido; [apply colunas_coalesce_no_esquema|done].
    + constructor; [|constructor]. rewrite prepara_linha_lookup_carimbo. by eexists.
Qed.

Lemma laco_um (corpo : linha -> banco -> resultado (banco * (nat * nat)))
    (row : linha) (b b' : banco) (di da : nat) :
  corpo row b = Retorna (b', (di, da)) ->
  laco corpo [row] b 0 0 = (b', (di, da)).
Proof. intros H. simpl. by rewrite H. Qed.

Lemma _remover_duplicatas_um (t : tipo) (row : linha) :
  _remover_duplicatas t [row] = [row].
Proof.
  unfold _remover_duplicatas.
  destruct t; try done; case_match; try done; simpl;
    by rewrite decide_False by apply not_elem_of_nil.
Qed.

Lemma importa_chunk_um (t : tipo) (p : string) (row : linha) (b : banco) :
  importa_chunk t p [row] b
  = _upsert_chunk_inteligente t [prepara_linha t p row] p b.
Proof.
  unfold importa_chunk, prepara_chunk.
  change (prepara_linha t p <$> [row]) with [prepara_linha t p row].
  by rewrite _remover_duplicatas_um.
Qed.

(** C10. Every update of an existing [estabelecimento] or [socio] row sets
    [data_atualizacao] to the stamp of the incoming file's period, whatever
    the row brings: the row is counted as updated, and when all its
    mergeable cells are blank the stamp is the only column that can change. *)
Theorem C10_carimbo_sempre_avanca (t : tipo) (row : linha) (p : string) (b : banco)
    (i : nat) (r : registro) :
  t = Estabelecimento \/ t = Socio ->
  Forall (fun c => is_Some (row !! c)) (estrutura_colunas t) ->
  tabela_de t b !! i = Some r ->
  mesma_chave t row r ->
  (importa_chunk t p [row] b).2 = (0%nat, 1%nat)
  /\ exists r',
       tabela_de t (importa_chunk t p [row] b).1 !! i = Some r'
       /\ r' !! "data_atualizacao" = Some (Texto (carimbo_de p))
       /\ (Forall (fun c => entrada_em_branco c row) (colunas_coalesce t) ->
           forall c, c <> "data_atualizacao" -> r' !! c = r !! c).
Proof.
  intros Ht Hrow Hi Hk.
  assert (Hp : principal t) by (destruct Ht; [right; by left|right; by right]).
  assert (Hne : t <> Empresa) by (destruct Ht; by subst).
  destruct (prepara_linha_lidas t p row Hrow) as [Hchave Hlidas].
  pose proof (mesma_chave_casa t p row r Hp Hk) as Hcasa.
  pose proof (sql_existe_lookup _ _ _ _ Hi Hcasa) as Hex.
  rewrite importa_chunk_um.
  pose proof (prepara_linha_lookup_carimbo t p row) as Hcar.
  assert (Hcel : forall c, c ∈ colunas_coalesce t ->
                   prepara_linha t p row !! c = limpa_celula <$> row !! c).
  { intros c Hc. by apply prepara_linha_lookup_coalesce. }
  generalize dependent (prepara_linha t p row). intros row' Hchave Hlidas Hcasa Hex Hcar Hcel.
  assert (Hsel : seleciona t row' = casa_chave t row') by (by destruct Ht; subst).
  destruct (corpo_linha t) as [corpo|] eqn:Hcorpo; [|by destruct Ht; subst].
  pose proof (corpo_atualiza t corpo row' b Hcorpo Hchave Hlidas Hex) as Hres.
  rewrite Hsel, Hex in Hres.
  unfold _upsert_chunk_inteligente. rewrite Hcorpo.
  rewrite (laco_um _ _ _ _ _ _ Hres). simpl. split; [done|].
  exists (atualiza t row' r). rewrite tabela_de_com_tabela, list_lookup_fmap, Hi.
  split; [done|]. unfold atualiza. rewrite Hsel, Hcasa. split.
  - rewrite lookup_atualizado_carimbo by done. unfold pycel. by rewrite Hcar.
  - intros Hbr c Hc. destruct (decide (c ∈ colunas_coalesce t)) as [Hin|Hnin].
    + rewrite lookup_atualizado_coalesce by done.
      rewrite Forall_forall in Hbr. specialize (Hbr c Hin).
      unfold pycel. rewrite Hcel by done.
      destruct (row !! c) as [v|] eqn:Hv; [|done].
      simpl. by destruct (Hbr v Hv) as [-> | ->].
    + by apply lookup_atualizado_outra.
Qed.

(** ** Applying a row twice *)

Lemma chave_fora_do_set (t : tipo) :
  Forall (fun c => (c ∉ colunas_coalesce t) /\ c <> "data_atualizacao"
                   /\ c <> "capital_social") (chave_natural t).
Proof. destruct t; apply (bool_decide_unpack _); by vm_compute. Qed.

Lemma atualizado_chave (t : tipo) (row : linha) (r : registro) (c : string) :
  c ∈ chave_natural t ->
  sql_set (atribuicoes t row r) r !! c = r !! c.
Proof.
  intros Hc. pose proof (chave_fora_do_set t) as H.
  rewrite Forall_forall in H. destruct (H c Hc) as (H1 & H2 & H3).
  by apply lookup_atualizado_outra.
Qed.

Lemma casa_chave_atualizado (t : tipo) (row row' : linha) (r : registro) :
  casa_chave t row (sql_set (atribuicoes t row' r) r) = casa_chave t row r.
Proof.
  destruct t; try done; unfold casa_chave, onde_estabelecimento, onde_socio;
    rewrite !atualizado_chave; try done;
    apply (bool_decide_unpack _); by vm_compute.
Qed.

Lemma casa_chave_atualiza (t : tipo) (row row' : linha) (r : registro) :
  casa_chave t row (atualiza t row' r) = casa_chave t row r.
Proof.
  unfold atualiza. destruct (verdadeiro _); [|done]. apply casa_chave_atualizado.
Qed.

Lemma sql_existe_fmap (onde : registro -> option bool) (f : registro -> registro)
    (tb : list registro) :
  (forall r, onde (f r) = onde r) ->
  sql_existe onde (f <$> tb) = sql_existe onde tb.
Proof.
  intros Hf. unfold sql_existe. induction tb as [|r tb IH]; [done|].
  rewrite fmap_cons. simpl. by rewrite Hf, IH.
Qed.

Lemma capital_set_idem (capital : valor) (r r1 : registro) :
  r1 !! "capital_social" = (capital_set capital r).2 ->
  (capital_set capital r1).2 = r1 !! "capital_social".
Proof.
  unfold capital_set, CASE_WHEN. simpl. intros ->.
  by destruct (verdadeiro _).
Qed.

Lemma atualizado_idem (t : tipo) (row : linha) (r : registro) :
  principal t ->
  sql_set (atribuicoes t row (sql_set (atribuicoes t row r) r))
          (sql_set (atribuicoes t row r) r)
  = sql_set (atribuicoes t row r) r.
Proof.
  intros Ht. apply map_eq. intros c.
  destruct (decide (c ∈ colunas_coalesce t)) as [Hin|Hnin].
  { rewrite !lookup_atualizado_coalesce by done. apply mescla_idem. }
  destruct (decide (c = "data_atualizacao")) as [->|Hst].
  { by rewrite !lookup_atualizado_carimbo. }
  destruct (decide (t = Empresa /\ c = "capital_social")) as [[-> ->]|Hcap].
  { rewrite (lookup_atualizado_capital row (sql_set _ _)).
    apply (capital_set_idem _ r), lookup_atualizado_capital. }
  rewrite !lookup_atualizado_outra; try done; intros -> ->; by apply Hcap.
Qed.

Lemma atualiza_idem (t : tipo) (row : linha) (r : registro) :
  principal t -> atualiza t row (atualiza t row r) = atualiza t row r.
Proof.
  intros Ht. unfold atualiza at 2 3.
  destruct (verdadeiro (seleciona t row r)) eqn:Hsel.
  - unfold atualiza.
    destruct (verdadeiro (seleciona t row (sql_set (atribuicoes t row r) r)));
      [|done].
    by apply atualizado_idem.
  - unfold atualiza. by rewrite Hsel.
Qed.

Lemma mesma_chave_presente (t : tipo) (p : string) (row : linha) (r : registro) :
  mesma_chave t row r ->
  Forall (fun c => is_Some (prepara_linha t p row !! c)) (chave_natural t).
Proof.
  unfold mesma_chave. intros H. eapply Forall_impl; [exact H|].
  intros c (s & _ & Hs & _). apply prepara_linha_presente. by eexists.
Qed.

(** C6, amended. Applying one row twice in immediate succession to a store
    that already holds a row with its natural key leaves the store as one
    application does, with no row added; the second application of an
    [estabelecimento] or [socio] row still reports one row updated. *)
Theorem C6_idempotencia_com_chave (t : tipo) (row : linha) (p : string) (b : banco)
    (i : nat) (r : registro) :
  principal t ->
  tabela_de t b !! i = Some r ->
  mesma_chave t row r ->
  (importa_chunk t p [row] (importa_chunk t p [row] b).1).1
    = (importa_chunk t p [row] b).1
  /\ length (tabela_de t (importa_chunk t p [row] b).1) = length (tabela_de t b)
  /\ (t <> Empresa ->
      Forall (fun c => is_Some (row !! c)) (estrutura_colunas t) ->
      (importa_chunk t p [row] (importa_chunk t p [row] b).1).2 = (0%nat, 1%nat)).
Proof.
  intros Ht Hi Hk.
  pose proof (mesma_chave_casa t p row r Ht Hk) as Hcasa.
  pose proof (sql_existe_lookup _ _ _ _ Hi Hcasa) as Hex.
  pose proof (mesma_chave_presente t p row r Hk) as Hchave.
  assert (Hlid : Forall (fun c => is_Some (row !! c)) (estrutura_colunas t) ->
                 Forall (fun c => is_Some (prepara_linha t p row !! c)) (lidas_no_update t)).
  { intros H. by apply prepara_linha_lidas. }
  rewrite !importa_chunk_um.
  generalize dependent (prepara_linha t p row). intros row' Hcasa Hex Hchave Hlid.
  unfold _upsert_chunk_inteligente.
  destruct (corpo_linha t) as [corpo|] eqn:Hcorpo;
    [|by destruct Ht as [-> | [-> | ->]]].
  pose proof (corpo_passo t corpo row' b Hcorpo) as Hp1.
  destruct Hp1 as [[e He] | [[Hno _] | (_ & Hl & Hres)]]; [|congruence|].
  - (* the row raises: nothing happens, twice *)
    simpl. rewrite He. simpl. rewrite He. simpl. split; [done|]. split; [done|].
    intros Hne Hrow. specialize (Hlid Hrow).
    rewrite (corpo_atualiza t corpo row' b Hcorpo Hchave Hlid Hex) in He. done.
  - rewrite (laco_um _ _ _ _ _ _ Hres). cbn [fst snd].
    set (b1 := com_tabela t (atualiza t row' <$> tabela_de t b) b).
    assert (Hex1 : sql_existe (casa_chave t row') (tabela_de t b1) = true).
    { unfold b1. rewrite tabela_de_com_tabela, sql_existe_fmap; [done|].
      intros r0. apply casa_chave_atualiza. }
    pose proof (corpo_atualiza t corpo row' b1 Hcorpo Hchave Hl Hex1) as Hres2.
    rewrite (laco_um _ _ _ _ _ _ Hres2). cbn [fst snd]. split; [|split].
    + unfold b1. rewrite tabela_de_com_tabela, com_tabela_com_tabela.
      f_equal. rewrite <- list_fmap_compose. apply list_fmap_ext.
      intros j r0 _. simpl. by apply atualiza_idem.
    + unfold b1. by rewrite tabela_de_com_tabela, length_fmap.
    + intros Hne _.
      assert (Hsel : seleciona t row' = casa_chave t row')
        by (by destruct Ht as [-> | [-> | ->]]).
      by rewrite Hsel, Hex1.
Qed.

(** ** The guarded UPDATE of [empresa] *)

Lemma sql_eq_vazio_nao (s : string) :
  s <> "" -> sql_eq (Some (Texto s)) vazio = Some false.
Proof.
  intros Hs. unfold sql_eq, vazio. simpl.
  destruct (String.compare s "") eqn:Hcmp; try done.
  by apply String.compare_eq_iff in Hcmp.
Qed.

Lemma sql_or_true_l (x : option bool) : sql_or (Some true) x = Some true.
Proof. done. Qed.

Lemma sql_or_true_r (x : option bool) : sql_or x (Some true) = Some true.
Proof. by destruct x as [[]|]. Qed.

Lemma onde_empresa_atualizavel (k : valor) (st : string) (r : registro) :
  sql_eq (r !! "cnpj_basico") k = Some true ->
  atualizavel r st ->
  verdadeiro (onde_empresa k (Some (Texto st)) r) = true.
Proof.
  intros Hk Hg. unfold onde_empresa. rewrite Hk.
  destruct Hg as [[Hrz | Hrz] | [[Hnj | Hnj] | (s & Hs & Hcmp)]].
  - rewrite Hrz. change (sql_is_null None) with (Some true).
    by rewrite !sql_or_true_l.
  - rewrite Hrz. change (sql_eq (Some (Texto "")) vazio) with (Some true).
    by rewrite sql_or_true_r, !sql_or_true_l.
  - rewrite Hnj. change (sql_is_null None) with (Some true).
    by rewrite sql_or_true_r, !sql_or_true_l.
  - rewrite Hnj. change (sql_eq (Some (Texto "")) vazio) with (Some true).
    by rewrite sql_or_true_r, !sql_or_true_l.
  - rewrite Hs. unfold sql_gt at 1. simpl compara. rewrite Hcmp.
    by rewrite sql_or_true_r.
Qed.

Lemma onde_empresa_bloqueado (k : valor) (st : string) (r : registro) :
  completo_e_recente r st ->
  verdadeiro (onde_empresa k (Some (Texto st)) r) = false.
Proof.
  intros ((s1 & Hs1 & Hrz) & (s2 & Hs2 & Hnj) & (s & Hs & Hcmp)).
  unfold onde_empresa. rewrite Hrz, Hnj, Hs, !sql_eq_vazio_nao by done.
  assert (Hgt : sql_gt (Some (Texto st)) (Some (Texto s)) = Some false).
  { unfold sql_gt. simpl. by destruct (String.compare st s). }
  rewrite Hgt. simpl. by destruct (sql_eq _ _) as [[]|].
Qed.

Lemma C10_carimbo_sempre_avanca_witness :
  (importa_chunk Estabelecimento "2024-01" [ex_estabelecimento_em_branco]
     ex_banco_estabelecimento).2 = (0%nat, 1%nat)
  /\ exists r',
       tabela_de Estabelecimento
         (importa_chunk Estabelecimento "2024-01" [ex_estabelecimento_em_branco]
            ex_banco_estabelecimento).1 !! 0%nat = Some r'
       /\ r' !! "data_atualizacao" = Some (Texto (carimbo_de "2024-01"))
       /\ (Forall (fun c => entrada_em_branco c ex_estabelecimento_em_branco)
             (colunas_coalesce Estabelecimento) ->
           forall c, c <> "data_atualizacao" ->
             r' !! c = ex_registro_estabelecimento !! c).
Proof.
  apply (C10_carimbo_sempre_avanca Estabelecimento ex_estabelecimento_em_branco
           "2024-01" ex_banco_estabelecimento 0 ex_registro_estabelecimento).
  - by left.
  - calcula.
  - calcula.
  - repeat constructor.
    + exists "12345678". repeat split; calcula.
    + exists "0001". repeat split; calcula.
    + exists "95". repeat split; calcula.
Defined.

Lemma C6_idempotencia_com_chave_witness :
  (importa_chunk Estabelecimento "2024-01"
     [ex_estabelecimento "12345678" "0001" "95" "BAR DO ZE" "32549999"]
     (importa_chunk Estabelecimento "2024-01"
        [ex_estabelecimento "12345678" "0001" "95" "BAR DO ZE" "32549999"]
        ex_banco_estabelecimento).1).1
  = (importa_chunk Estabelecimento "2024-01"
       [ex_estabelecimento "12345678" "0001" "95" "BAR DO ZE" "32549999"]
       ex_banco_estabelecimento).1
  /\ length (tabela_de Estabelecimento
              (importa_chunk Estabelecimento "2024-01"
                 [ex_estabelecimento "12345678" "0001" "95" "BAR DO ZE" "32549999"]
                 ex_banco_estabelecimento).1)
     = length (tabela_de Estabelecimento ex_banco_estabelecimento)
  /\ (Estabelecimento <> Empresa ->
      Forall (fun c => is_Some
                (ex_estabelecimento "12345678" "0001" "95" "BAR DO ZE" "32549999" !! c))
             (estrutura_colunas Estabelecimento) ->
      (importa_chunk Estabelecimento "2024-01"
         [ex_estabelecimento "12345678" "0001" "95" "BAR DO ZE" "32549999"]
         (importa_chunk Estabelecimento "2024-01"
            [ex_estabelecimento "12345678" "0001" "95" "BAR DO ZE" "32549999"]
            ex_banco_estabelecimento).1).2 = (0%nat, 1%nat)).
Proof.
  apply (C6_idempotencia_com_chave Estabelecimento _ "2024-01"
           ex_banco_estabelecimento 0 ex_registro_estabelecimento).
  - right. by left.
  - calcula.
  - repeat constructor.
    + exists "12345678". repeat split; calcula.
    + exists "0001". repeat split; calcula.
    + exists "95". repeat split; calcula.
Defined.

(** C6 as stated fails on a new establishment: the first application
    inserts the row without its period stamp, the second one updates it,
    writes the stamp and reports one row changed. *)
Lemma C6_contraexemplo :
  let row := ex_estabelecimento "12345678" "0001" "95" "BAR DO ZE" "32540000" in
  let uma := importa_chunk Estabelecimento "2023-05" [row] banco_vazio in
  let duas := importa_chunk Estabelecimento "2023-05" [row] uma.1 in
  uma.2 = (1%nat, 0%nat)
  /\ duas.1 <> uma.1
  /\ duas.2 = (0%nat, 1%nat).
Proof. repeat split; calcula. Qed.

(** A company row with all its labels and a stored key runs the UPDATE:
    the store after the turn, and how the WHERE clause reads on the stored
    row that carries the key. *)
Lemma empresa_importa_um (row : linha) (p : string) (b : banco) (i : nat) (r : registro) :
  Forall (fun c => is_Some (row !! c)) (estrutura_colunas Empresa) ->
  tb_empresa b !! i = Some r ->
  mesma_chave Empresa row r ->
  let row' := prepara_linha Empresa p row in
  importa_chunk Empresa p [row] b
  = (com_tabela Empresa (atualiza Empresa row' <$> tb_empresa b) b,
     (0%nat, if sql_existe (seleciona Empresa row') (tb_empresa b) then 1%nat else 0%nat))
  /\ (atualizavel r (carimbo_de p) -> verdadeiro (seleciona Empresa row' r) = true)
  /\ (completo_e_recente r (carimbo_de p) -> verdadeiro (seleciona Empresa row' r) = false).
Proof.
  intros Hrow Hi Hk row'.
  assert (Hp : principal Empresa) by by left.
  destruct (prepara_linha_lidas Empresa p row Hrow) as [Hchave Hlidas].
  pose proof (mesma_chave_casa Empresa p row r Hp Hk) as Hcasa.
  pose proof (sql_existe_lookup _ _ _ _ Hi Hcasa) as Hex.
  pose proof (prepara_linha_lookup_carimbo Empresa p row) as Hcar.
  fold row' in Hchave, Hlidas, Hcasa, Hex, Hcar.
  pose proof (corpo_atualiza Empresa linha_empresa row' b eq_refl Hchave Hlidas Hex)
    as Hres.
  assert (Hsel : seleciona Empresa row' r
                 = onde_empresa (bind (pycel row' "cnpj_basico"))
                     (Some (Texto (carimbo_de p))) r).
  { unfold seleciona, pycel. by rewrite Hcar. }
  assert (Hkey : sql_eq (r !! "cnpj_basico") (bind (pycel row' "cnpj_basico")) = Some true).
  { unfold casa_chave in Hcasa. by destruct (sql_eq _ _) as [[]|]. }
  split; [|split].
  - rewrite importa_chunk_um. fold row'.
    unfold _upsert_chunk_inteligente, corpo_linha.
    by rewrite (laco_um _ _ _ _ _ _ Hres).
  - intros Hg. rewrite Hsel. by apply onde_empresa_atualizavel.
  - intros Hb. rewrite Hsel. by apply onde_empresa_bloqueado.
Qed.

(** C3, amended. A company row whose key is stored updates the stored row
    when that row lacks its legal name or legal nature, or carries an older
    stamp: then every text field with a non-blank incoming value takes that
    value. A stored row that is complete and not older is left as it is. *)
Theorem C3_update_sob_guarda (row : linha) (p : string) (b : banco)
    (i : nat) (r : registro) :
  Forall (fun c => is_Some (row !! c)) (estrutura_colunas Empresa) ->
  tb_empresa b !! i = Some r ->
  mesma_chave Empresa row r ->
  (atualizavel r (carimbo_de p) ->
     (importa_chunk Empresa p [row] b).2 = (0%nat, 1%nat)
     /\ exists r',
          tb_empresa (importa_chunk Empresa p [row] b).1 !! i = Some r'
          /\ forall F s, F ∈ colunas_coalesce Empresa -> s <> "" ->
               row !! F = Some (PyStr s) -> r' !! F = Some (Texto s))
  /\ (completo_e_recente r (carimbo_de p) ->
      tb_empresa (importa_chunk Empresa p [row] b).1 !! i = Some r).
Proof.
  intros Hrow Hi Hk.
  destruct (empresa_importa_um row p b i r Hrow Hi Hk) as (Hres & Hsim & Hnao).
  rewrite Hres. cbn [fst snd].
  replace (tb_empresa (com_tabela Empresa
             (atualiza Empresa (prepara_linha Empresa p row) <$> tb_empresa b) b))
    with (atualiza Empresa (prepara_linha Empresa p row) <$> tb_empresa b)
    by by destruct b.
  rewrite list_lookup_fmap, Hi. cbn [fmap option_fmap option_map].
  split.
  - intros Hg. specialize (Hsim Hg).
    rewrite (sql_existe_lookup _ _ _ _ Hi Hsim). split; [done|].
    eexists. split; [done|].
    intros F s HF Hs HrowF. unfold atualiza. rewrite Hsim.
    rewrite lookup_atualizado_coalesce by done.
    unfold pycel. rewrite prepara_linha_lookup_coalesce, HrowF by done.
    change (limpa_celula <$> Some (PyStr s)) with (Some (limpa_celula (PyStr s))).
    rewrite limpa_texto by done. by apply mescla_texto.
  - intros Hb. unfold atualiza. by rewrite (Hnao Hb).
Qed.

Lemma C3_update_sob_guarda_witness :
  let row := ex_empresa "12345678" "ACME LTDA" "2062" "10000,00" "03" in
  atualizavel ex_registro_empresa_incompleta (carimbo_de "2023-06")
  /\ (importa_chunk Empresa "2023-06" [row] ex_banco_empresa_incompleta).2
       = (0%nat, 1%nat)
  /\ exists r',
       tb_empresa (importa_chunk Empresa "2023-06" [row]
                     ex_banco_empresa_incompleta).1 !! 0%nat = Some r'
       /\ forall F s, F ∈ colunas_coalesce Empresa -> s <> "" ->
            row !! F = Some (PyStr s) -> r' !! F = Some (Texto s).
Proof.
  intros row.
  assert (Hg : atualizavel ex_registro_empresa_incompleta (carimbo_de "2023-06")).
  { right. left. left. calcula. }
  split; [exact Hg|].
  apply (C3_update_sob_guarda row "2023-06" ex_banco_empresa_incompleta 0
           ex_registro_empresa_incompleta); [| | |exact Hg].
  - calcula.
  - calcula.
  - repeat constructor. exists "12345678". repeat split; calcula.
Defined.

(** C3 as stated fails: the key of the row is stored and the row brings a
    size category the stored row lacks, yet the UPDATE selects nothing,
    since the stored row is complete and carries the stamp of the very
    period of the row. *)
Lemma C3_contraexemplo :
  let row := ex_empresa "12345678" "ACME LTDA" "2062" "10000,00" "03" in
  tb_empresa ex_banco_empresa_completa = [ex_registro_empresa_completa]
  /\ mesma_chave Empresa row ex_registro_empresa_completa
  /\ row !! "porte_empresa" = Some (PyStr "03")
  /\ ex_registro_empresa_completa !! "porte_empresa" = None
  /\ importa_chunk Empresa "2023-06" [row] ex_banco_empresa_completa
     = (ex_banco_empresa_completa, (0%nat, 0%nat)).
Proof.
  repeat split; try calcula.
  repeat constructor. exists "12345678". repeat split; calcula.
Qed.

(** ** The capital of a company *)

Lemma q_nao_zero_compara (q : Q) : q_nao_zero q = true -> Qcompare q 0 <> Eq.
Proof.
  unfold q_nao_zero, Qcompare. destruct q as [n d]. simpl.
  intros Hn%negb_true_iff%Z.eqb_neq. rewrite Z.mul_1_r.
  intros Heq%Z.compare_eq. done.
Qed.

Lemma capital_set_nao_zero (x : real) (r : registro) :
  q_nao_zero x = true ->
  (capital_set (Some (Numero x)) r).2 = Some (Numero x).
Proof.
  intros Hx. unfold capital_set, CASE_WHEN, sql_ne, sql_eq. simpl.
  destruct x as [q|[]]; simpl; [|done|done].
  pose proof (q_nao_zero_compara q Hx). by destruct (Qcompare q 0).
Qed.

(** *** Rounding *)

Lemma meio_par_piso (n d : Z) : n / d <= meio_par n d.
Proof.
  unfold meio_par. destruct (2 * (n mod d) ?= d); [|lia|lia].
  destruct (Z.even (n / d)); lia.
Qed.

Lemma piso_log2_limite (n d : Z) : piso_log2 n d <= Z.log2 n - Z.log2 d.
Proof. unfold piso_log2. case_match; lia. Qed.

(** A rational with a numerator below 2^52 rounds to a finite float. *)
Lemma binary64_finito (q : Q) :
  Z.abs (Qnum q) < 2 ^ 52 -> exists x : Q, binary64 q = Finito x.
Proof.
  intros Hn. unfold binary64.
  destruct (Z.abs (Qnum q) =? 0) eqn:Hz; [by eexists|].
  apply Z.eqb_neq in Hz.
  assert (Hlog : Z.log2 (Z.abs (Qnum q)) < 52) by (apply Z.log2_lt_pow2; lia).
  pose proof (Z.log2_nonneg (Z.pos (Qden q))).
  pose proof (piso_log2_limite (Z.abs (Qnum q)) (Z.pos (Qden q))).
  set (e := Z.max _ _).
  assert (He : e < 0) by (unfold e; lia).
  replace (0 <=? e) with false by (symmetry; apply Z.leb_gt; lia).
  cbn [andb]. by eexists.
Qed.

Lemma Qred_num_zero (q : Q) : Qnum (Qred q) = 0 -> Qnum q = 0.
Proof.
  intros H. pose proof (Qred_correct q) as Heq. unfold Qeq in Heq.
  rewrite H in Heq. lia.
Qed.

(** It rounds to zero only when it is zero or very small. *)
Lemma binary64_nao_zero (q : Q) :
  Qnum q <> 0 -> Z.abs (Qnum q) < 2 ^ 52 -> Z.pos (Qden q) <= 2 ^ 1074 ->
  q_nao_zero (binary64 q) = true.
Proof.
  intros Hz Hn Hd. unfold binary64.
  replace (Z.abs (Qnum q) =? 0) with false by (symmetry; apply Z.eqb_neq; lia).
  set (n := Z.abs (Qnum q)) in *. set (d := Z.pos (Qden q)) in *.
  assert (Hn0 : 0 < n) by (unfold n; lia).
  assert (Hd0 : 0 < d) by (unfold d; lia).
  assert (Hlog : Z.log2 n < 52) by (apply Z.log2_lt_pow2; lia).
  pose proof (Z.log2_nonneg n) as Hln.
  pose proof (Z.log2_nonneg d) as Hld.
  pose proof (piso_log2_limite n d) as Hk.
  set (e := Z.max _ _).
  assert (He : e < 0) by (unfold e; lia).
  replace (0 <=? e) with false by (symmetry; apply Z.leb_gt; lia).
  cbn [andb]. unfold q_nao_zero.
  apply negb_true_iff, Z.eqb_neq. intros Hred%Qred_num_zero. cbn [Qnum] in Hred.
  assert (Hm : 1 <= meio_par (n * 2 ^ (- e)) d).
  { etrans; [|apply meio_par_piso].
    apply Z.div_le_lower_bound; [done|]. rewrite Z.mul_1_r.
    destruct (Z.le_gt_cases (52 - (Z.log2 n - Z.log2 d)) 1074) as [Hc|Hc].
    - assert (Hee : 52 - Z.log2 n + Z.log2 d <= - e) by (unfold e; lia).
      pose proof (Z.log2_spec n Hn0) as [Hn1 _].
      pose proof (Z.log2_spec d Hd0) as [_ Hd1].
      etrans; [apply Z.lt_le_incl, Hd1|].
      etrans; [|apply Z.mul_le_mono_nonneg_r; [apply Z.pow_nonneg; lia|apply Hn1]].
      rewrite <- Z.pow_add_r by lia.
      apply Z.pow_le_mono_r; lia.
    - assert (Hee : - e = 1074) by (unfold e; lia). rewrite Hee.
      etrans; [apply Hd|].
      replace (2 ^ 1074) with (1 * 2 ^ 1074) at 1 by lia.
      apply Z.mul_le_mono_nonneg_r; [apply Z.pow_nonneg|]; lia. }
  destruct (Z.sgn_spec (Qnum q)) as [[? Hs]|[[? Hs]|[? Hs]]]; rewrite Hs in Hred; lia.
Qed.

Lemma binary64_zero (q : Q) : Qnum q = 0 -> binary64 q = Finito 0.
Proof. intros H. unfold binary64. by rewrite H. Qed.

(** *** Plain decimals *)

Lemma le_digitos_limites (s : string) (acc : Z) (n : nat) (v : Z) (n' : nat) (r : string) :
  le_digitos s acc n = (v, n', r) ->
  (n <= n')%nat
  /\ acc * 10 ^ Z.of_nat (n' - n) <= v < (acc + 1) * 10 ^ Z.of_nat (n' - n).
Proof.
  revert acc n. induction s as [|a s IH]; intros acc n; cbn [le_digitos].
  - intros [= <- <- <-]. replace (n - n)%nat with 0%nat by lia. simpl. lia.
  - destruct (digito a) as [d|] eqn:Hd.
    + intros H. apply IH in H as [Hn Hv].
      assert (Hdl : 0 <= d <= 9).
      { unfold digito in Hd. case_match; [|done]. injection Hd as <-. lia. }
      split; [lia|].
      replace (n' - n)%nat with (S (n' - S n)) by lia.
      rewrite Nat2Z.inj_succ, Z.pow_succ_r by lia.
      assert (0 < 10 ^ Z.of_nat (n' - S n)) by (apply Z.pow_pos_nonneg; lia).
      nia.
    + intros [= <- <- <-]. replace (n - n)%nat with 0%nat by lia. simpl. lia.
Qed.

Lemma le_mantissa_limites (s : string) (m : Z) (n dec : nat) (r : string) :
  le_mantissa s = (m, n, dec, r) ->
  (dec <= n)%nat /\ 0 <= m < 10 ^ Z.of_nat n.
Proof.
  unfold le_mantissa.
  destruct (le_digitos s 0 0) as [[m1 n1] t2] eqn:H1.
  apply le_digitos_limites in H1 as [_ H1]. rewrite Nat.sub_0_r in H1.
  assert (Hsem : (m1, n1, 0%nat, t2) = (m, n, dec, r) ->
                 (dec <= n)%nat /\ 0 <= m < 10 ^ Z.of_nat n).
  { intros [= <- <- <- <-]. lia. }
  destruct t2 as [|c t2]; [exact Hsem|].
  destruct (Ascii.eqb c ".") eqn:Hc; [|by rewrite ?Hc in *; destruct c as [[] [] [] [] [] [] [] []]].
  apply Ascii.eqb_eq in Hc as ->.
  destruct (le_digitos t2 m1 0) as [[m2 n2] t3] eqn:H2.
  apply le_digitos_limites in H2 as [_ H2]. rewrite Nat.sub_0_r in H2.
  intros [= <- <- <- <-]. split; [lia|].
  rewrite Nat2Z.inj_add, Z.pow_add_r by lia.
  assert (0 < 10 ^ Z.of_nat n2) by (apply Z.pow_pos_nonneg; lia).
  nia.
Qed.

Lemma le_capital_forma (s : string) (q : Q) :
  le_capital s = Some q ->
  (exists l, le_literal (apara isspace_ascii (str_replace "," "." s)) = Some l
             /\ q = valor_decimal l)
  /\ Z.abs (Qnum q) < 10 ^ 15 /\ Z.pos (Qden q) <= 10 ^ 15.
Proof.
  unfold le_capital.
  destruct (le_literal _) as [l|] eqn:Hl; [|done].
  destruct (negb (lit_tem_expoente l) && (lit_digitos l <=? 15)%nat) eqn:Hc; [|done].
  intros [= <-]. split; [by exists l|].
  apply andb_true_iff in Hc as [Hexp%negb_true_iff Hdig%Nat.leb_le].
  unfold le_literal in Hl.
  destruct (le_sinal _) as [neg t1].
  destruct (le_mantissa t1) as [[[m n] dec] t2] eqn:Hm.
  apply le_mantissa_limites in Hm as [Hdec Hm].
  destruct (n =? 0)%nat; [done|].
  assert (Hl' : l = Literal neg m (- Z.of_nat dec) n false).
  { destruct t2 as [|c t2]; [by injection Hl as <-|].
    destruct (le_expoente _) as [[x [|]]|]; try done.
    injection Hl as <-. done. }
  subst l. cbn [lit_digitos] in Hdig.
  assert (Hpot : 10 ^ Z.of_nat n <= 10 ^ 15) by (apply Z.pow_le_mono_r; lia).
  assert (Hpod : 0 < 10 ^ Z.of_nat dec <= 10 ^ 15).
  { split; [apply Z.pow_pos_nonneg; lia|apply Z.pow_le_mono_r; lia]. }
  unfold valor_decimal. cbn [lit_negativo lit_mantissa lit_expoente].
  destruct (0 <=? - Z.of_nat dec) eqn:He.
  - apply Z.leb_le in He. replace (- Z.of_nat dec) with 0 by lia.
    cbn [Qnum Qden]. rewrite Z.pow_0_r, Z.mul_1_r.
    split; [destruct neg; lia|]. change (Z.pos 1) with 1. lia.
  - apply Z.leb_gt in He. rewrite Z.opp_involutive. cbn [Qnum Qden].
    split; [destruct neg; lia|]. rewrite Z2Pos.id; lia.
Qed.

(** On a plain decimal the parser of pandas gives the nearest float. *)
Lemma to_numeric_capital (s : string) (q : Q) :
  le_capital s = Some q ->
  to_numeric (str_replace "," "." s) = Real (binary64 q).
Proof.
  intros Hq. destruct (le_capital_forma s q Hq) as ((l & Hl & ->) & Hn & _).
  unfold to_numeric. rewrite Hl.
  destruct (binary64_finito (valor_decimal l)) as [x ->]; [|done].
  assert (10 ^ 15 < 2 ^ 52) by (vm_compute; done). lia.
Qed.

Lemma le_capital_nao_zero (s : string) (q : Q) :
  le_capital s = Some q -> ~ (q == 0)%Q -> q_nao_zero (binary64 q) = true.
Proof.
  intros Hq Hz. destruct (le_capital_forma s q Hq) as (_ & Hn & Hd).
  assert (10 ^ 15 < 2 ^ 52) by (vm_compute; done).
  assert (10 ^ 15 <= 2 ^ 1074) by (vm_compute; discriminate).
  apply binary64_nao_zero; [|lia|lia].
  intros Hnum. apply Hz. unfold Qeq. rewrite Hnum. done.
Qed.

Lemma binary64_de_zero (q : Q) : (q == 0)%Q -> binary64 q = Finito 0.
Proof.
  intros Hz. apply binary64_zero. unfold Qeq in Hz. cbn in Hz. lia.
Qed.

Lemma prepara_capital_texto (p : string) (row : linha) (s : string) (q : Q) :
  row !! "capital_social" = Some (PyStr s) ->
  le_capital s = Some q ->
  prepara_linha Empresa p row !! "capital_social" = Some (PyFloat (binary64 q)).
Proof.
  intros Hrow Hq. rewrite prepara_linha_lookup_capital, Hrow.
  destruct s as [|a s]; [done|].
  cbn [fmap option_fmap option_map limpa_celula capital_para_numero].
  by rewrite (to_numeric_capital _ q Hq).
Qed.

Lemma prepara_capital_em_branco (p : string) (row : linha) (v : pyval) :
  row !! "capital_social" = Some v -> em_branco v ->
  prepara_linha Empresa p row !! "capital_social" = Some (PyFloat 0).
Proof.
  intros Hrow Hv. rewrite prepara_linha_lookup_capital, Hrow.
  by destruct Hv as [-> | ->].
Qed.

(** C5, amended. The capital of a stored company stays as it is when the
    incoming capital is blank or a plain decimal of value zero. When it is a
    plain decimal of another value and the row carries the key of the stored
    row, the stored capital becomes the float nearest to that value if the
    guard of the UPDATE holds (the stored row lacks its legal name or legal
    nature, or carries an older stamp), and stays as it is if the stored
    row is complete and not older. *)
Theorem C5_regra_do_capital (row : linha) (p : string) (b : banco)
    (i : nat) (r : registro) (v : pyval) :
  tb_empresa b !! i = Some r ->
  row !! "capital_social" = Some v ->
  (em_branco v
   \/ (exists s q, v = PyStr s /\ le_capital s = Some q /\ (q == 0)%Q) ->
   exists r',
     tb_empresa (importa_chunk Empresa p [row] b).1 !! i = Some r'
     /\ r' !! "capital_social" = r !! "capital_social")
  /\ (forall s q,
        v = PyStr s -> le_capital s = Some q -> ~ (q == 0)%Q ->
        Forall (fun c => is_Some (row !! c)) (estrutura_colunas Empresa) ->
        mesma_chave Empresa row r ->
        (atualizavel r (carimbo_de p) ->
         exists r',
           tb_empresa (importa_chunk Empresa p [row] b).1 !! i = Some r'
           /\ r' !! "capital_social" = Some (Numero (binary64 q)))
        /\ (completo_e_recente r (carimbo_de p) ->
            tb_empresa (importa_chunk Empresa p [row] b).1 !! i = Some r)).
Proof.
  intros Hi Hv. split.
  - intros Hzero.
    assert (Hnada : nada_a_gravar "capital_social" (prepara_linha Empresa p row)).
    { intros w Hw. right. split; [done|].
      destruct Hzero as [Hb | (s & q & -> & Hq & Hz)].
      - rewrite (prepara_capital_em_branco p row v Hv Hb) in Hw.
        injection Hw as <-. by exists 0%Q.
      - rewrite (prepara_capital_texto p row s q Hv Hq) in Hw.
        injection Hw as <-. rewrite (binary64_de_zero q Hz). by exists 0%Q. }
    rewrite importa_chunk_um.
    apply (upsert_preserva Empresa [prepara_linha Empresa p row] p b "capital_social");
      [by right|by constructor|done].
  - intros s q -> Hq Hnz Hrow Hk.
    destruct (empresa_importa_um row p b i r Hrow Hi Hk) as (Hres & Hsim & Hnao).
    rewrite Hres. cbn [fst snd].
    replace (tb_empresa (com_tabela Empresa
               (atualiza Empresa (prepara_linha Empresa p row) <$> tb_empresa b) b))
      with (atualiza Empresa (prepara_linha Empresa p row) <$> tb_empresa b)
      by by destruct b.
    rewrite list_lookup_fmap, Hi. cbn [fmap option_fmap option_map].
    split.
    + intros Hg. eexists. split; [done|]. unfold atualiza. rewrite (Hsim Hg).
      rewrite lookup_atualizado_capital. unfold capital_do_update, row_get.
      rewrite (prepara_capital_texto p row s q Hv Hq). simpl default. simpl bind.
      apply capital_set_nao_zero. by apply (le_capital_nao_zero s).
    + intros Hb. unfold atualiza. by rewrite (Hnao Hb).
Qed.

Lemma C5_regra_do_capital_witness :
  let row1 := ex_empresa "12345678" "ACME LTDA" "2062" "0,00" "03" in
  let row2 := ex_empresa "12345678" "ACME LTDA" "2062" "25000,50" "03" in
  ex_registro_empresa_incompleta !! "capital_social" = Some (Numero 10000)
  /\ (exists r',
        tb_empresa (importa_chunk Empresa "2023-06" [row1]
                      ex_banco_empresa_incompleta).1 !! 0%nat = Some r'
        /\ r' !! "capital_social" = ex_registro_empresa_incompleta !! "capital_social")
  /\ (exists r',
        tb_empresa (importa_chunk Empresa "2023-06" [row2]
                      ex_banco_empresa_incompleta).1 !! 0%nat = Some r'
        /\ r' !! "capital_social" = Some (Numero (binary64 (2500050 # 100))))
  /\ binary64 (2500050 # 100) = Finito (50001 # 2).
Proof.
  intros row1 row2.
  assert (Hi : tb_empresa ex_banco_empresa_incompleta !! 0%nat
               = Some ex_registro_empresa_incompleta) by calcula.
  split; [calcula|]. split; [|split; [|calcula]].
  - apply (proj1 (C5_regra_do_capital row1 "2023-06" ex_banco_empresa_incompleta 0
                    ex_registro_empresa_incompleta (PyStr "0,00") Hi ltac:(calcula))).
    right. exists "0,00", (0 # 100)%Q. repeat split; calcula.
  - apply (proj2 (C5_regra_do_capital row2 "2023-06" ex_banco_empresa_incompleta 0
                    ex_registro_empresa_incompleta (PyStr "25000,50") Hi ltac:(calcula))
             "25000,50" (2500050 # 100)%Q); try calcula.
    + done.
    + repeat constructor. exists "12345678". repeat split; calcula.
    + right. left. left. calcula.
Defined.

(** C5 as stated fails: the row carries the key of a stored company and a
    capital of 25000,50, yet the stored capital stays 10000, since the
    stored row is complete and carries the stamp of the very period of the
    row: the UPDATE selects nothing. *)
Lemma C5_contraexemplo :
  let row := ex_empresa "12345678" "ACME LTDA" "2062" "25000,50" "03" in
  tb_empresa ex_banco_empresa_completa = [ex_registro_empresa_completa]
  /\ mesma_chave Empresa row ex_registro_empresa_completa
  /\ ex_registro_empresa_completa !! "capital_social" = Some (Numero 10000)
  /\ le_capital "25000,50" = Some (2500050 # 100)%Q
  /\ importa_chunk Empresa "2023-06" [row] ex_banco_empresa_completa
     = (ex_banco_empresa_completa, (0%nat, 0%nat)).
Proof.
  repeat split; try calcula.
  repeat constructor. exists "12345678". repeat split; calcula.
Qed.

(** ** A partner without a tax id *)

Lemma sql_and_desconhecido (x : option bool) : verdadeiro (sql_and x None) = false.
Proof. by destruct x as [[]|]. Qed.

(** The lookup of a partner whose tax id is null finds nothing, whatever
    the table holds: a comparison with NULL is never true. *)
Lemma socio_sem_cpf_nao_existe (row : linha) (tb : list registro) :
  row !! "cpf_cnpj_socio" = Some PyNone ->
  sql_existe (casa_chave Socio row) tb = false.
Proof.
  intros Hcpf. unfold sql_existe. induction tb as [|r tb IH]; [done|].
  cbn [existsb]. rewrite IH, orb_false_r.
  unfold casa_chave, onde_socio, row_get. rewrite Hcpf.
  replace (sql_eq (r !! "cpf_cnpj_socio") (bind (default (PyStr "") (Some PyNone))))
    with (@None bool) by by destruct (r !! "cpf_cnpj_socio").
  apply sql_and_desconhecido.
Qed.

(** C1 fails on a partner whose tax id is blank: the row of 2023-05 is
    stored with a NULL tax id, the lookup of the same partner in 2023-06
    finds no row, and the row is inserted a second time. The store then
    holds two rows with one natural key. *)
Theorem C1_socio_sem_cpf_duplica :
  let row := ex_socio "12345678" "JOAO DA SILVA" "" "49" in
  let b1 := (importa_chunk Socio "2023-05" [row] banco_vazio).1 in
  let res := importa_chunk Socio "2023-06" [row] b1 in
  length (tb_socio b1) = 1%nat
  /\ res.2 = (1%nat, 0%nat)
  /\ length (tb_socio res.1) = 2%nat
  /\ tb_socio res.1 !! 0%nat = tb_socio res.1 !! 1%nat
  /\ (fun r : registro => (r !! "cnpj_basico", r !! "nome_socio_razao_social",
                           r !! "cpf_cnpj_socio")) <$> tb_socio res.1
     = [(Some (Texto "12345678"), Some (Texto "JOAO DA SILVA"), None);
        (Some (Texto "12345678"), Some (Texto "JOAO DA SILVA"), None)].
Proof. repeat split; calcula. Qed.

(** ** The deduplication of a chunk *)

Lemma drop_duplicates_ocorrencia {K : Type} `{EqDecision K} (chave : linha -> K)
    (vistos : list K) (df : quadro) (row : linha) :
  row ∈ drop_duplicates chave vistos df <->
  exists i, df !! i = Some row /\ (chave row ∉ vistos)
            /\ forall j row', (j < i)%nat -> df !! j = Some row' -> chave row' <> chave row.
Proof.
  revert vistos. induction df as [|row0 df IH]; intros vistos; simpl.
  { split; [by intros ?%elem_of_nil|by intros (i & ? & _)]. }
  destruct (decide (chave row0 ∈ vistos)) as [Hin|Hnin].
  - rewrite IH. split.
    + intros (i & Hi & Hv & Hprim). exists (S i). split; [done|]. split; [done|].
      intros [|j] row' Hj Hrow'; simpl in Hrow'.
      * injection Hrow' as <-. intros Heq. apply Hv. by rewrite <- Heq.
      * apply (Hprim j); [lia|done].
    + intros ([|i] & Hi & Hv & Hprim); simpl in Hi.
      * injection Hi as <-. done.
      * exists i. split; [done|]. split; [done|].
        intros j row' Hj Hrow'. apply (Hprim (S j)); [lia|done].
  - rewrite elem_of_cons, IH. split.
    + intros [-> | (i & Hi & Hv & Hprim)].
      * exists 0%nat. split; [done|]. split; [done|]. intros j row' Hj. lia.
      * rewrite not_elem_of_cons in Hv. destruct Hv as [Hne Hv].
        exists (S i). split; [done|]. split; [done|].
        intros [|j] row' Hj Hrow'; simpl in Hrow'.
        -- injection Hrow' as <-. congruence.
        -- apply (Hprim j); [lia|done].
    + intros ([|i] & Hi & Hv & Hprim); simpl in Hi.
      * injection Hi as <-. by left.
      * right. exists i. split; [done|]. split.
        -- rewrite not_elem_of_cons. split; [|done].
           intros Heq. by apply (Hprim 0%nat row0); [lia| |].
        -- intros j row' Hj Hrow'. apply (Hprim (S j)); [lia|done].
Qed.

Lemma drop_duplicates_chaves {K : Type} `{EqDecision K} (chave : linha -> K)
    (vistos : list K) (df : quadro) :
  NoDup (chave <$> drop_duplicates chave vistos df)
  /\ forall k, k ∈ chave <$> drop_duplicates chave vistos df -> k ∉ vistos.
Proof.
  revert vistos. induction df as [|row0 df IH]; intros vistos; simpl.
  { split; [constructor|by intros k ?%elem_of_nil]. }
  destruct (decide (chave row0 ∈ vistos)) as [Hin|Hnin]; [apply IH|].
  destruct (IH (chave row0 :: vistos)) as [Hnd Hfora].
  rewrite fmap_cons. split.
  - constructor; [|done]. intros Hk. apply (Hfora _ Hk). by left.
  - intros k [-> | Hk]%elem_of_cons; [done|].
    specialize (Hfora k Hk). rewrite not_elem_of_cons in Hfora. tauto.
Qed.

Lemma drop_duplicates_representa {K : Type} `{EqDecision K} (chave : linha -> K)
    (vistos : list K) (df : quadro) (row : linha) :
  row ∈ df ->
  chave row ∈ vistos
  \/ exists row', row' ∈ drop_duplicates chave vistos df /\ chave row' = chave row.
Proof.
  revert vistos. induction df as [|row0 df IH]; intros vistos; simpl.
  { by intros ?%elem_of_nil. }
  intros [-> | Hin]%elem_of_cons.
  - destruct (decide (chave row0 ∈ vistos)) as [Hv|Hv]; [by left|].
    right. exists row0. split; [by left|done].
  - destruct (decide (chave row0 ∈ vistos)) as [Hv|Hv]; [by apply IH|].
    destruct (IH (chave row0 :: vistos) Hin) as [[Heq | Hk]%elem_of_cons | (row' & Hr & Heq)].
    + right. exists row0. split; [by left|done].
    + by left.
    + right. exists row'. split; [by right|done].
Qed.

(** C4, amended. On a chunk that carries the key columns of its table,
    the deduplicator returns a sub-sequence of the chunk with at most one
    row per natural key and a row for every key of the chunk, and the row
    it keeps for a key is the first occurrence of that key. *)
Theorem C4_primeira_ocorrencia (t : tipo) (df : quadro) :
  principal t ->
  nas_colunas (chave_natural t) df = true ->
  NoDup (subconjunto (chave_natural t) <$> _remover_duplicatas t df)
  /\ _remover_duplicatas t df `sublist_of` df
  /\ (forall row, row ∈ df ->
        exists row', row' ∈ _remover_duplicatas t df
                     /\ subconjunto (chave_natural t) row'
                        = subconjunto (chave_natural t) row)
  /\ (forall row, row ∈ _remover_duplicatas t df <->
        exists i, df !! i = Some row
                  /\ forall j row', (j < i)%nat -> df !! j = Some row' ->
                       subconjunto (chave_natural t) row'
                       <> subconjunto (chave_natural t) row).
Proof.
  intros Ht Hcols.
  assert (Heq : _remover_duplicatas t df
                = drop_duplicates (subconjunto (chave_natural t)) [] df).
  { unfold _remover_duplicatas. by destruct Ht as [-> | [-> | ->]]; rewrite Hcols. }
  rewrite Heq. split; [apply drop_duplicates_chaves|].
  split; [apply drop_duplicates_sublist|]. split.
  - intros row Hrow.
    destruct (drop_duplicates_representa (subconjunto (chave_natural t)) [] df row Hrow)
      as [?%elem_of_nil | ?]; done.
  - intros row. rewrite drop_duplicates_ocorrencia. split.
    + intros (i & Hi & _ & Hprim). by exists i.
    + intros (i & Hi & Hprim). exists i. split; [done|]. split; [|done].
      apply not_elem_of_nil.
Qed.

Lemma C4_primeira_ocorrencia_witness :
  let r1 := ex_estabelecimento "12345678" "0001" "95" "BAR DO ZE" "32540000" in
  let r2 := ex_estabelecimento "12345678" "0001" "95" "BAR DO JOSE" "32540000" in
  NoDup (subconjunto (chave_natural Estabelecimento)
           <$> _remover_duplicatas Estabelecimento [r1; r2])
  /\ _remover_duplicatas Estabelecimento [r1; r2] `sublist_of` [r1; r2]
  /\ (forall row, row ∈ [r1; r2] ->
        exists row', row' ∈ _remover_duplicatas Estabelecimento [r1; r2]
                     /\ subconjunto (chave_natural Estabelecimento) row'
                        = subconjunto (chave_natural Estabelecimento) row)
  /\ (forall row, row ∈ _remover_duplicatas Estabelecimento [r1; r2] <->
        exists i, [r1; r2] !! i = Some row
                  /\ forall j row', (j < i)%nat -> [r1; r2] !! j = Some row' ->
                       subconjunto (chave_natural Estabelecimento) row'
                       <> subconjunto (chave_natural Estabelecimento) row).
Proof.
  intros r1 r2.
  apply (C4_primeira_ocorrencia Estabelecimento [r1; r2]).
  - right. by left.
  - calcula.
Defined.

(** C4 as stated fails: of two rows with one establishment key the
    deduplicator keeps the first, and the trade name stored is the one of
    the first row, not of the later one. *)
Lemma C4_contraexemplo :
  let r1 := ex_estabelecimento "12345678" "0001" "95" "BAR DO ZE" "32540000" in
  let r2 := ex_estabelecimento "12345678" "0001" "95" "BAR DO JOSE" "32540000" in
  subconjunto (chave_natural Estabelecimento) r1
    = subconjunto (chave_natural Estabelecimento) r2
  /\ _remover_duplicatas Estabelecimento [r1; r2] = [r1]
  /\ _remover_duplicatas Estabelecimento [r1; r2] <> [r2]
  /\ (fun r : registro => r !! "nome_fantasia")
       <$> tb_estabelecimento
             (importa_chunk Estabelecimento "2023-05" [r1; r2] banco_vazio).1
     = [Some (Texto "BAR DO ZE")].
Proof. repeat split; calcula. Qed.

(** ** Rows that fail *)

(** *** Texts that are no number *)

















(** *** Rows that raise *)






(** ** Python's sort *)

Section Ordenacao.

Context {A : Type} (menor : A -> A -> bool).

Hypothesis menor_assimetrico : forall x y, menor x y = true -> menor y x = false.
Hypothesis nao_depois_trans :
  forall x y z, nao_depois menor x y -> nao_depois menor y z -> nao_depois menor x z.

Lemma insere_Permutation (x : A) (l : list A) : insere menor x l ≡ₚ x :: l.
Proof.
  induction l as [|y l IH]; simpl; [done|].
  destruct (menor y x); [|done]. rewrite IH. apply Permutation_swap.
Qed.

Lemma insere_StronglySorted (x : A) (l : list A) :
  StronglySorted (nao_depois menor) l ->
  StronglySorted (nao_depois menor) (insere menor x l).
Proof.
  induction 1 as [|y l Hl IH Hy]; simpl.
  { repeat constructor. }
  destruct (menor y x) eqn:Hyx.
  - constructor; [done|].
    rewrite (insere_Permutation x l). constructor; [|done].
    by apply menor_assimetrico.
  - constructor; [by constructor|]. constructor; [done|].
    eapply Forall_impl; [exact Hy|]. intros z Hz.
    by apply (nao_depois_trans x y z).
Qed.

Lemma sorted_Permutation (l : list A) : sorted menor l ≡ₚ l.
Proof.
  unfold sorted. induction l as [|x l IH]; simpl; [done|].
  by rewrite insere_Permutation, IH.
Qed.

Lemma sorted_StronglySorted (l : list A) :
  StronglySorted (nao_depois menor) (sorted menor l).
Proof.
  unfold sorted. induction l as [|x l IH]; simpl; [constructor|].
  by apply insere_StronglySorted.
Qed.

End Ordenacao.

Lemma StronglySorted_mono {A : Type} (R R' : A -> A -> Prop) (l : list A) :
  (forall x y, R x y -> R' x y) -> StronglySorted R l -> StronglySorted R' l.
Proof.
  intros HR. induction 1 as [|x l Hl IH Hx]; constructor; [done|].
  eapply Forall_impl; [exact Hx|]. intros y. apply HR.
Qed.

(** ** The order of strings and of periods *)

Lemma string_ltb_assimetrico (x y : string) :
  String.ltb x y = true -> String.ltb y x = false.
Proof.
  unfold String.ltb. rewrite (String.compare_antisym y x).
  by destruct (String.compare x y).
Qed.

Lemma string_nao_depois_leb (x y : string) :
  nao_depois String.ltb x y <-> String.le x y.
Proof.
  unfold nao_depois, String.ltb, String.le, String.leb.
  rewrite (String.compare_antisym y x). by destruct (String.compare x y).
Qed.

Lemma string_nao_depois_trans (x y z : string) :
  nao_depois String.ltb x y -> nao_depois String.ltb y z -> nao_depois String.ltb x z.
Proof. rewrite !string_nao_depois_leb. apply transitivity. Qed.

Lemma string_le_compare (x y : string) :
  String.le x y <-> String.compare x y <> Gt.
Proof. unfold String.le, String.leb. by destruct (String.compare x y). Qed.

Lemma string_lt_trans (x y z : string) :
  String.compare x y = Lt -> String.compare y z = Lt -> String.compare x z = Lt.
Proof.
  intros Hxy Hyz.
  assert (Hle : String.le x z).
  { transitivity y; apply string_le_compare; congruence. }
  apply string_le_compare in Hle.
  destruct (String.compare x z) eqn:Hxz; [|done|done].
  apply String.compare_eq_iff in Hxz as ->.
  rewrite (String.compare_antisym y z), Hxy in Hyz. done.
Qed.

Lemma tupla_nao_depois (a b : string * string) :
  nao_depois tupla_lt a b <-> periodo_le a b.
Proof.
  unfold nao_depois, tupla_lt, periodo_le, String.ltb.
  rewrite (String.compare_antisym b.1 a.1), (String.compare_antisym b.2 a.2).
  destruct (String.compare a.1 b.1) eqn:H1; simpl.
  - apply String.compare_eq_iff in H1.
    destruct (String.compare a.2 b.2); simpl; split; try done.
    + intros _. by right.
    + intros _. by right.
    + by intros [? | [_ ?]].
  - split; [by left|done].
  - split; [done|]. intros [? | [Heq _]]; [done|].
    by rewrite Heq, string_compare_refl in H1.
Qed.

Lemma periodo_le_trans (a b c : string * string) :
  periodo_le a b -> periodo_le b c -> periodo_le a c.
Proof.
  unfold periodo_le. intros [Hab | [Hab1 Hab2]] [Hbc | [Hbc1 Hbc2]].
  - left. by eapply string_lt_trans.
  - left. by rewrite <- Hbc1.
  - left. by rewrite Hab1.
  - right. split; [congruence|].
    apply string_le_compare. transitivity b.2; by apply string_le_compare.
Qed.

Lemma tupla_lt_assimetrico (a b : string * string) :
  tupla_lt a b = true -> tupla_lt b a = false.
Proof.
  unfold tupla_lt. rewrite (String.compare_antisym b.1 a.1).
  destruct (String.compare a.1 b.1); simpl; try done.
  apply string_ltb_assimetrico.
Qed.

(** Periods written in decimal digits order as the numbers they denote. *)

Lemma le_digitos_valor (s : string) (acc : Z) (n : nat) :
  so_digitos s ->
  le_digitos s acc n
  = (acc * 10 ^ Z.of_nat (String.length s) + numero s, (n + String.length s)%nat, "").
Proof.
  unfold so_digitos, numero. revert acc n.
  induction s as [|a s IH]; intros acc n Hs; simpl.
  - replace (acc * 10 ^ Z.of_nat 0 + 0) with acc by lia.
    by replace (n + 0)%nat with n by lia.
  - simpl in Hs. apply Forall_cons in Hs as [[d Hd] Hs]. rewrite Hd.
    rewrite (IH (10 * acc + d) (S n) Hs), (IH (10 * 0 + d) 1%nat Hs). simpl.
    rewrite Nat2Z.inj_succ, Z.pow_succ_r by lia.
    replace (n + S (String.length s))%nat with (S (n + String.length s)) by lia.
    do 2 f_equal. ring.
Qed.

Lemma numero_cons (a : ascii) (s : string) (d : Z) :
  digito a = Some d -> so_digitos s ->
  numero (String a s) = d * 10 ^ Z.of_nat (String.length s) + numero s.
Proof.
  intros Hd Hs. unfold numero at 1. simpl. rewrite Hd.
  rewrite (le_digitos_valor s _ _ Hs). simpl. lia.
Qed.

Lemma digito_limites (a : ascii) (d : Z) : digito a = Some d -> 0 <= d <= 9.
Proof. unfold digito. case_match; [|done]. intros [= <-]. lia. Qed.

Lemma numero_limites (s : string) :
  so_digitos s -> 0 <= numero s < 10 ^ Z.of_nat (String.length s).
Proof.
  induction s as [|a s IH]; intros Hs.
  - unfold numero. simpl. lia.
  - unfold so_digitos in Hs. simpl in Hs. apply Forall_cons in Hs as [[d Hd] Hs].
    rewrite (numero_cons a s d Hd Hs). specialize (IH Hs).
    pose proof (digito_limites a d Hd).
    simpl String.length. rewrite Nat2Z.inj_succ, Z.pow_succ_r by lia. nia.
Qed.

Lemma digito_compare (a b : ascii) (x y : Z) :
  digito a = Some x -> digito b = Some y -> Ascii.compare a b = Z.compare x y.
Proof.
  unfold digito. cbv zeta.
  destruct (_ && _); [|done]. destruct (_ && _); [|done].
  intros [= <-] [= <-]. unfold Ascii.compare. rewrite <- N2Z.inj_compare.
  destruct (Z.compare_spec (Z.of_N (N_of_ascii a)) (Z.of_N (N_of_ascii b)));
    symmetry; [apply Z.compare_eq_iff|apply Z.compare_lt_iff|apply Z.compare_gt_iff]; lia.
Qed.

Lemma compare_numero (s t : string) :
  so_digitos s -> so_digitos t -> String.length s = String.length t ->
  String.compare s t = Z.compare (numero s) (numero t).
Proof.
  revert t. induction s as [|a s IH]; intros [|b t] Hs Ht Hlen; try done.
  unfold so_digitos in Hs, Ht. simpl in Hs, Ht.
  apply Forall_cons in Hs as [[x Hx] Hs], Ht as [[y Hy] Ht].
  injection Hlen as Hlen.
  rewrite (numero_cons a s x Hx Hs), (numero_cons b t y Hy Ht). simpl.
  rewrite (digito_compare a b x y Hx Hy), <- Hlen.
  pose proof (numero_limites s Hs). pose proof (numero_limites t Ht) as Hlt.
  rewrite <- Hlen in Hlt.
  destruct (Z.compare_spec x y) as [-> | Hxy | Hxy].
  - rewrite (IH t Hs Ht Hlen).
    destruct (Z.compare_spec (numero s) (numero t));
      symmetry; [apply Z.compare_eq_iff|apply Z.compare_lt_iff|apply Z.compare_gt_iff]; lia.
  - symmetry. apply Z.compare_lt_iff. nia.
  - symmetry. apply Z.compare_gt_iff. nia.
Qed.

(** X7. For periods written in decimal digits, the order of the sort key is
    the order of the calendar. *)
Lemma periodo_le_cronologico (a b : string * string) :
  so_digitos a.1 -> so_digitos b.1 -> String.length a.1 = String.length b.1 ->
  so_digitos a.2 -> so_digitos b.2 -> String.length a.2 = String.length b.2 ->
  periodo_le a b <->
  numero a.1 < numero b.1 \/ (numero a.1 = numero b.1 /\ numero a.2 <= numero b.2).
Proof.
  intros Ha1 Hb1 Hl1 Ha2 Hb2 Hl2. unfold periodo_le.
  rewrite (compare_numero _ _ Ha1 Hb1 Hl1), (compare_numero _ _ Ha2 Hb2 Hl2).
  rewrite Z.compare_lt_iff, <- Z.compare_le_iff. split.
  - intros [H | [-> H]]; [by left|right; by split].
  - intros [H | [Heq H]]; [by left|right]. split; [|done].
    apply Z.compare_eq_iff in Heq. rewrite <- (compare_numero _ _ Ha1 Hb1 Hl1) in Heq.
    by apply String.compare_eq_iff.
Qed.

Lemma formato_periodo_forma (nome : string) :
  formato_periodo nome = true <->
  exists a b c d e f,
    nome = String a (String b (String c (String d (String "-"
             (String e (String f EmptyString))))))
    /\ Forall (fun x => isdigit_char x = true) [a; b; c; d; e; f].
Proof.
  split.
  - destruct nome as [|a [|b [|c [|d [|h [|e [|f [|g nome]]]]]]]]; try done.
    unfold formato_periodo. simpl.
    destruct (Ascii.eqb_spec h "-") as [->|]; [|done]. simpl.
    rewrite !andb_true_iff. intros ((Ha & Hb & Hc & Hd & _) & He & Hf & _).
    exists a, b, c, d, e, f. split; [done|]. by repeat constructor.
  - intros (a & b & c & d & e & f & -> & H).
    rewrite !Forall_cons in H. destruct H as (Ha & Hb & Hc & Hd & He & Hf & _).
    unfold formato_periodo. simpl. by rewrite Ha, Hb, Hc, Hd, He, Hf.
Qed.

(** C9, amended. The files of one table are put in ascending order of the
    period (year, month) of their folder, compared as strings. The
    discovery of the folders never fails: it returns, ordered by name,
    exactly the directories whose name is four digits, a hyphen and two
    digits, and leaves every other entry out; the month is not checked to
    lie between 01 and 12. *)
Theorem C9_ordem_dos_periodos (arquivos : list arquivo) (diretorio_base : list entrada) :
  (arquivos_ordenados arquivos ≡ₚ arquivos
   /\ StronglySorted (fun x y => periodo_le (chave_periodo x) (chave_periodo y))
        (arquivos_ordenados arquivos))
  /\ exists pastas,
       encontrar_todas_pastas diretorio_base = Retorna pastas
       /\ StronglySorted (fun x y => String.compare (ent_name x) (ent_name y) <> Gt) pastas
       /\ forall e, e ∈ pastas <->
            e ∈ diretorio_base /\ ent_is_dir e = true
            /\ formato_periodo (ent_name e) = true.
Proof.
  split.
  - split; [apply sorted_Permutation|].
    eapply StronglySorted_mono; [|apply sorted_StronglySorted].
    + intros x y Hxy. by apply tupla_nao_depois in Hxy.
    + intros x y. apply tupla_lt_assimetrico.
    + intros x y z Hxy Hyz. unfold nao_depois in *.
      apply tupla_nao_depois. eapply periodo_le_trans; by apply tupla_nao_depois.
  - eexists. split; [reflexivity|]. split.
    + eapply StronglySorted_mono; [|apply sorted_StronglySorted].
      * intros x y Hxy. simpl in Hxy.
        by apply string_le_compare, string_nao_depois_leb.
      * intros x y. apply string_ltb_assimetrico.
      * intros x y z. apply string_nao_depois_trans.
    + intros e. rewrite sorted_Permutation.
      rewrite list_elem_of_In, filter_In, <- list_elem_of_In, andb_true_iff. tauto.
Qed.

(** C9 as stated fails: entries whose name has no period format are left
    out without any error, and a month 13 is taken as a period. *)
Lemma C9_contraexemplo :
  encontrar_todas_pastas
    [Entrada "2023-13" true []; Entrada "lixo" true []; Entrada "2023-5" true [];
     Entrada "2023-05" true []]
  = Retorna [Entrada "2023-05" true []; Entrada "2023-13" true []].
Proof. calcula. Qed.

(** ** The reference tables *)

Lemma tabela_de_importa_referencia_ne (e : estrutura) (b : banco) (t t' : tipo) :
  t <> t' -> tabela_de t (importa_referencia e b t') = tabela_de t b.
Proof.
  intros Hne. unfold importa_referencia.
  repeat case_match; try done; by apply tabela_de_com_tabela_ne.
Qed.

Lemma tabela_de_importa_referencia (e : estrutura) (b : banco) (t : tipo)
    (arquivo_ref : arquivo) (resto : list arquivo) (df : quadro) :
  e !! t = Some (arquivo_ref :: resto) ->
  arq_conteudo arquivo_ref = Retorna df ->
  tabela_de t (importa_referencia e b t) = to_sql (drop_duplicates id [] df).
Proof.
  intros He Hdf. unfold importa_referencia. rewrite He, Hdf.
  apply tabela_de_com_tabela.
Qed.

Lemma foldl_importa_referencia_fora (e : estrutura) (b : banco) (ts : list tipo) (t : tipo) :
  t ∉ ts -> tabela_de t (foldl (importa_referencia e) b ts) = tabela_de t b.
Proof.
  revert b. induction ts as [|t' ts IH]; intros b Ht; simpl; [done|].
  rewrite not_elem_of_cons in Ht. destruct Ht as [Hne Ht].
  rewrite IH by done. by apply tabela_de_importa_referencia_ne.
Qed.

Lemma foldl_importa_referencia (e : estrutura) (b : banco) (ts : list tipo) (t : tipo)
    (arquivo_ref : arquivo) (resto : list arquivo) (df : quadro) :
  NoDup ts -> t ∈ ts ->
  e !! t = Some (arquivo_ref :: resto) ->
  arq_conteudo arquivo_ref = Retorna df ->
  tabela_de t (foldl (importa_referencia e) b ts) = to_sql (drop_duplicates id [] df).
Proof.
  intros Hnd Ht He Hdf. revert b.
  induction Hnd as [|t' ts Hnin Hnd IH]; intros b; [by apply elem_of_nil in Ht|].
  simpl. apply elem_of_cons in Ht as [-> | Ht].
  - rewrite foldl_importa_referencia_fora by done.
    by eapply tabela_de_importa_referencia.
  - by apply IH.
Qed.

Lemma consolida_lookup (e1 e2 : estrutura) (t : tipo) :
  default [] (consolida e1 e2 !! t) = default [] (e1 !! t) ++ default [] (e2 !! t).
Proof.
  unfold consolida. rewrite lookup_union_with.
  destruct (e1 !! t), (e2 !! t); simpl; try done. by rewrite app_nil_r.
Qed.

Lemma escaneia_lookup (e0 : estrutura) (pastas : list entrada) (t : tipo) :
  default [] (foldl (fun e pasta => consolida e (identificar_arquivos_pasta pasta))
                e0 pastas !! t)
  = default [] (e0 !! t) ++ concat (arquivos_do_tipo t <$> pastas).
Proof.
  revert e0. induction pastas as [|pasta pastas IH]; intros e0; simpl.
  - by rewrite app_nil_r.
  - rewrite IH, consolida_lookup. by rewrite <- app_assoc.
Qed.

Lemma identificar_arquivos_pasta_parent (pasta : entrada) (t : tipo) (arq : arquivo) :
  arq ∈ arquivos_do_tipo t pasta -> arq_parent_name arq = ent_name pasta.
Proof.
  unfold arquivos_do_tipo, identificar_arquivos_pasta.
  assert (H : forall (itens : list item) (acc : estrutura),
             (forall t a, a ∈ default [] (acc !! t) -> arq_parent_name a = ent_name pasta) ->
             forall t a,
               a ∈ default []
                     (foldl
                        (fun (arquivos_encontrados : estrutura) (it : item) =>
                           if negb (it_is_file it) then arquivos_encontrados
                           else if String.eqb (upper (suffix (it_name it))) ".ZIP"
                                then arquivos_encontrados
                           else
                             match tipo_do_nome (upper (it_name it)) with
                             | Some t =>
                                 <[t := (default [] (arquivos_encontrados !! t)
                                         ++ [Arquivo (it_name it) (ent_name pasta)
                                               (it_conteudo it) (it_parcial it)])]>
                                   arquivos_encontrados
                             | None => arquivos_encontrados
                             end)
                        acc itens !! t) ->
               arq_parent_name a = ent_name pasta).
  { induction itens as [|it itens IH]; intros acc Hacc t0 a; simpl; [apply Hacc|].
    apply IH. intros t1 a1.
    destruct (negb (it_is_file it)); [apply Hacc|].
    destruct (String.eqb _ _); [apply Hacc|].
    destruct (tipo_do_nome _) as [t2|]; [|apply Hacc].
    destruct (decide (t2 = t1)) as [->|Hne].
    - rewrite lookup_insert_eq. simpl.
      intros [Ha | ->%list_elem_of_singleton]%elem_of_app; [by eapply Hacc|done].
    - rewrite lookup_insert_ne by done. apply Hacc. }
  apply H. intros t0 a. rewrite lookup_empty. by intros ?%elem_of_nil.
Qed.

Lemma concat_ordenado (R : string -> string -> Prop) (t : tipo) (pastas : list entrada) :
  (forall x, R x x) ->
  StronglySorted (fun x y => R (ent_name x) (ent_name y)) pastas ->
  StronglySorted (fun a a' => R (arq_parent_name a) (arq_parent_name a'))
                 (concat (arquivos_do_tipo t <$> pastas)).
Proof.
  intros Hrefl. induction 1 as [|pasta pastas Hs IH Hp]; simpl; [constructor|].
  apply StronglySorted_app_2; [| |done].
  - intros a a' Ha Ha'.
    rewrite (identificar_arquivos_pasta_parent pasta t a Ha).
    apply list_elem_of_In, in_concat in Ha' as (l & Hl & Ha').
    apply list_elem_of_In, list_elem_of_fmap in Hl as (pasta' & -> & Hpasta').
    apply list_elem_of_In in Ha'.
    rewrite (identificar_arquivos_pasta_parent pasta' t a' Ha').
    rewrite Forall_forall in Hp. by apply Hp.
  - assert (Hall : Forall (fun a => arq_parent_name a = ent_name pasta)
                     (arquivos_do_tipo t pasta)).
    { apply Forall_forall. intros a. apply identificar_arquivos_pasta_parent. }
    induction Hall as [|a l Ha Hl IHl]; constructor; [done|].
    eapply Forall_impl; [exact Hl|]. intros a' Ha'. simpl in Ha'.
    rewrite Ha, Ha'. apply Hrefl.
Qed.

Lemma drop_duplicates_id (df : quadro) :
  NoDup (drop_duplicates id [] df)
  /\ forall row, row ∈ drop_duplicates id [] df <-> row ∈ df.
Proof.
  split.
  - pose proof (drop_duplicates_chaves id [] df) as [Hnd _].
    by rewrite list_fmap_id in Hnd.
  - intros row. split.
    + intros Hrow. eapply elem_of_sublist; [exact Hrow|apply drop_duplicates_sublist].
    + intros Hrow.
      destruct (drop_duplicates_representa id [] df row Hrow)
        as [?%elem_of_nil | (row' & Hr & Heq)]; [done|].
      simpl in Heq. by subst.
Qed.

(** C7, amended. The loader replaces the whole contents of a reference
    table by the rows, without repetitions, of the first file of that type
    that the scan found, when that file can be read: the table no longer
    depends on what it held. The first file is one of the earliest period
    folder that has a file of the type, not of the latest. *)
Theorem C7_primeiro_arquivo (diretorio_base : list entrada) (e : estrutura) (b : banco)
    (t : tipo) (arquivo_ref : arquivo) (resto : list arquivo) (df : quadro) :
  t ∈ tabelas_referencia ->
  escanear_estrutura_completa diretorio_base = Retorna e ->
  e !! t = Some (arquivo_ref :: resto) ->
  arq_conteudo arquivo_ref = Retorna df ->
  tabela_de t (importar_tabelas_referencia e b) = to_sql (drop_duplicates id [] df)
  /\ NoDup (drop_duplicates id [] df)
  /\ (forall row, row ∈ drop_duplicates id [] df <-> row ∈ df)
  /\ Forall (fun a => String.compare (arq_parent_name arquivo_ref) (arq_parent_name a) <> Gt)
            resto.
Proof.
  intros Ht Hscan He Hdf. split; [|split; [|split]].
  - unfold importar_tabelas_referencia.
    eapply foldl_importa_referencia; try done.
    apply (bool_decide_unpack _). by vm_compute.
  - apply drop_duplicates_id.
  - apply drop_duplicates_id.
  - unfold escanear_estrutura_completa in Hscan. simpl in Hscan.
    injection Hscan as <-.
    pose proof (escaneia_lookup ∅
      (sorted (fun x y => String.ltb (ent_name x) (ent_name y))
         (List.filter (fun e0 => ent_is_dir e0 && formato_periodo (ent_name e0))
            diretorio_base)) t) as Hl.
    rewrite He, lookup_empty in Hl. simpl in Hl.
    assert (Hs : StronglySorted
                   (fun a a' => String.compare (arq_parent_name a) (arq_parent_name a') <> Gt)
                   (arquivo_ref :: resto)).
    { rewrite Hl. apply (concat_ordenado (fun x y => String.compare x y <> Gt)).
      - intros x. by rewrite string_compare_refl.
      - eapply StronglySorted_mono; [|apply sorted_StronglySorted].
        + intros x y Hxy. simpl in Hxy.
          by apply string_le_compare, string_nao_depois_leb.
        + intros x y. apply string_ltb_assimetrico.
        + intros x y z. apply string_nao_depois_trans. }
    by inversion Hs.
Qed.

Lemma C7_primeiro_arquivo_witness :
  let arq := Arquivo "F.K03200$Z.D30513.CNAECSV" "2023-05"
               (Retorna [ex_cnae "0111301" "Cultivo de arroz";
                         ex_cnae "0111301" "Cultivo de arroz";
                         ex_cnae "0111302" "Cultivo de milho"]) [] in
  let novo := Arquivo "F.K03200$Z.D40113.CNAECSV" "2024-01"
                (Retorna [ex_cnae "0111301" "Cultivo de arroz";
                          ex_cnae "9999999" "Atividade nova"]) [] in
  let e : estrutura := {[Cnae := [arq; novo]]} in
  let df := [ex_cnae "0111301" "Cultivo de arroz";
             ex_cnae "0111301" "Cultivo de arroz";
             ex_cnae "0111302" "Cultivo de milho"] in
  escanear_estrutura_completa ex_diretorio_base = Retorna e
  /\ tabela_de Cnae (importar_tabelas_referencia e ex_banco_estabelecimento)
     = to_sql (drop_duplicates id [] df)
  /\ NoDup (drop_duplicates id [] df)
  /\ (forall row, row ∈ drop_duplicates id [] df <-> row ∈ df)
  /\ Forall (fun a => String.compare (arq_parent_name arq) (arq_parent_name a) <> Gt)
            [novo].
Proof.
  intros arq novo e df.
  assert (H1 : escanear_estrutura_completa ex_diretorio_base = Retorna e) by calcula.
  split; [exact H1|].
  apply (C7_primeiro_arquivo ex_diretorio_base e ex_banco_estabelecimento Cnae
           arq [novo] df); [calcula|exact H1|calcula|calcula].
Defined.

(** C7 as stated fails: with the activity catalogue in the folders
    2023-05 and 2024-01, the table is loaded from the file of 2023-05, and
    the code that only the file of 2024-01 lists is not in it. *)
Lemma C7_contraexemplo :
  match importar_tudo ex_diretorio_base banco_vazio with
  | Retorna b =>
      (fun r : registro => (r !! "codigo", r !! "descricao")) <$> tb_cnae b
  | Levanta _ => []
  end
  = [(Some (Texto "0111301"), Some (Texto "Cultivo de arroz"));
     (Some (Texto "0111302"), Some (Texto "Cultivo de milho"))].
Proof. calcula. Qed.

(** * Further properties of the importer *)
(** An invariant of the row loop: what every turn that returns keeps,
    the loop keeps. *)
Lemma laco_invariante (t : tipo) corpo (P : banco -> nat -> nat -> Prop)
    (df : quadro) (b : banco) (i a : nat) :
  corpo_linha t = Some corpo ->
  (forall row b b' di da i a,
     row ∈ df -> passo t row b (Retorna (b', (di, da))) ->
     P b i a -> P b' (i + di)%nat (a + da)%nat) ->
  P b i a ->
  P (laco corpo df b i a).1 (laco corpo df b i a).2.1 (laco corpo df b i a).2.2.
Proof.
  intros Hcorpo. revert b i a.
  induction df as [|row df IH]; intros b i a Hpasso HP; simpl; [done|].
  pose proof (corpo_passo t corpo row b Hcorpo) as Hp.
  destruct (corpo row b) as [[b' [di da]]|e].
  - apply IH.
    + intros row' b1 b2 di' da' i' a' Hin. apply Hpasso. by right.
    + eapply Hpasso; [by left|exact Hp|exact HP].
  - apply IH; [|done].
    intros row' b1 b2 di' da' i' a' Hin. apply Hpasso. by right.
Qed.

Lemma laco_limite (t : tipo) corpo (df : quadro) (b : banco) (i a : nat) :
  corpo_linha t = Some corpo ->
  ((laco corpo df b i a).2.1 + (laco corpo df b i a).2.2 <= i + a + length df)%nat.
Proof.
  intros Hcorpo. revert b i a.
  induction df as [|row df IH]; intros b i a; simpl; [lia|].
  pose proof (corpo_passo t corpo row b Hcorpo) as Hp.
  destruct (corpo row b) as [[b' [di da]]|e].
  - specialize (IH b' (i + di)%nat (a + da)%nat).
    assert (di + da <= 1)%nat; [|lia].
    destruct Hp as [[e ?] | [[_ [? | [novo ?]]] | (_ & _ & ?)]]; simplify_eq; simpl; try lia.
    destruct (sql_existe _ _); lia.
  - specialize (IH b i a). lia.
Qed.

Lemma passo_outra_tabela (t t' : tipo) (row : linha) (b b' : banco) (n : nat * nat) :
  t <> t' -> passo t row b (Retorna (b', n)) -> tabela_de t' b' = tabela_de t' b.
Proof.
  intros Hne [[e ?] | [[_ [? | [novo ?]]] | (_ & _ & ?)]]; simplify_eq;
    [done|by apply tabela_de_com_tabela_ne..].
Qed.

Lemma passo_tamanho (t : tipo) (row : linha) (b b' : banco) (di da : nat) :
  passo t row b (Retorna (b', (di, da))) ->
  length (tabela_de t b') = (length (tabela_de t b) + di)%nat.
Proof.
  intros [[e ?] | [[_ [? | [novo ?]]] | (_ & _ & ?)]]; simplify_eq.
  - lia.
  - rewrite tabela_de_com_tabela, length_app. simpl. lia.
  - rewrite tabela_de_com_tabela, length_fmap. lia.
Qed.

Lemma upsert_tamanho (t : tipo) (df : quadro) (p : string) (b : banco) :
  length (tabela_de t (_upsert_chunk_inteligente t df p b).1)
  = (length (tabela_de t b) + (_upsert_chunk_inteligente t df p b).2.1)%nat.
Proof.
  unfold _upsert_chunk_inteligente.
  destruct (corpo_linha t) as [corpo|] eqn:Hc; [|simpl; lia].
  apply (laco_invariante t corpo
           (fun b' i _ => length (tabela_de t b') = (length (tabela_de t b) + i)%nat));
    [done| |lia].
  intros row b1 b2 di da i a _ Hp Hb1.
  rewrite (passo_tamanho t row b1 b2 di da Hp). lia.
Qed.

Lemma upsert_limite (t : tipo) (df : quadro) (p : string) (b : banco) :
  ((_upsert_chunk_inteligente t df p b).2.1
   + (_upsert_chunk_inteligente t df p b).2.2 <= length df)%nat.
Proof.
  unfold _upsert_chunk_inteligente.
  destruct (corpo_linha t) as [corpo|] eqn:Hc; [|simpl; lia].
  pose proof (laco_limite t corpo df b 0 0 Hc). lia.
Qed.

Lemma upsert_outra_tabela (t t' : tipo) (df : quadro) (p : string) (b : banco) :
  t' <> t -> tabela_de t' (_upsert_chunk_inteligente t df p b).1 = tabela_de t' b.
Proof.
  intros Hne. unfold _upsert_chunk_inteligente.
  destruct (corpo_linha t) as [corpo|] eqn:Hc; [|done].
  apply (laco_invariante t corpo (fun b' _ _ => tabela_de t' b' = tabela_de t' b));
    [done| |done].
  intros row b1 b2 di da i a _ Hp Hb1.
  rewrite <- Hb1. eapply passo_outra_tabela; [|exact Hp]. done.
Qed.

(** X11. The engine keeps the books: the table of the chunk's type grows by
    exactly the number of rows reported as inserted and never shrinks, a
    row of the chunk is counted at most once, and no other table is
    touched. *)
Theorem upsert_contabilidade (t : tipo) (df : quadro) (p : string) (b : banco) :
  length (tabela_de t (_upsert_chunk_inteligente t df p b).1)
    = (length (tabela_de t b) + (_upsert_chunk_inteligente t df p b).2.1)%nat
  /\ ((_upsert_chunk_inteligente t df p b).2.1
      + (_upsert_chunk_inteligente t df p b).2.2 <= length df)%nat
  /\ forall t', t' <> t ->
       tabela_de t' (_upsert_chunk_inteligente t df p b).1 = tabela_de t' b.
Proof.
  split; [apply upsert_tamanho|split; [apply upsert_limite|]].
  intros t' Hne. by apply upsert_outra_tabela.
Qed.

Lemma sql_insert_retorna (nn pk colunas : list string) (valores : list valor)
    (tb tb' : list registro) :
  sql_insert nn pk colunas valores tb = Retorna tb' ->
  tb' = tb ++ [sql_set (zip colunas valores) ∅]
  /\ Forall (fun c => is_Some (sql_set (zip colunas valores) ∅ !! c)) nn
  /\ (pk <> [] -> existsb (colide pk (sql_set (zip colunas valores) ∅)) tb = false).
Proof.
  unfold sql_insert. destruct colunas as [|c0 colunas]; [done|].
  destruct (forallb _ nn) eqn:Hnn; simpl; [|done].
  destruct pk as [|k pk].
  - intros [= <-]. split; [done|]. split; [|done].
    apply Forall_forall. intros c Hc.
    rewrite forallb_forall in Hnn.
    apply list_elem_of_In, Hnn in Hc. by apply bool_decide_eq_true in Hc.
  - destruct (existsb _ tb) eqn:Hex; [done|].
    intros [= <-]. split; [done|]. split; [|done].
    apply Forall_forall. intros c Hc.
    rewrite forallb_forall in Hnn.
    apply list_elem_of_In, Hnn in Hc. by apply bool_decide_eq_true in Hc.
Qed.

(** A turn that counts an insertion ran the INSERT of its branch, after a
    lookup that found nothing. *)
Lemma corpo_insere (t : tipo) corpo (row : linha) (b b' : banco) :
  corpo_linha t = Some corpo ->
  corpo row b = Retorna (b', (1%nat, 0%nat)) ->
  b' = com_tabela t (tabela_de t b ++ [novo_registro t row]) b
  /\ sql_existe (casa_chave t row) (tabela_de t b) = false
  /\ Forall (fun c => is_Some (novo_registro t row !! c)) (nao_nulos t)
  /\ (chave_primaria t <> [] ->
      existsb (colide (chave_primaria t) (novo_registro t row)) (tabela_de t b) = false).
Proof.
  intros Hc Hres.
  pose proof (corpo_passo t corpo row b Hc) as Hp. rewrite Hres in Hp.
  assert (Hex : sql_existe (casa_chave t row) (tabela_de t b) = false).
  { destruct Hp as [[e ?] | [[? _] | (_ & _ & ?)]]; [done|done|simplify_eq]. }
  clear Hp.
  destruct t; cbn [corpo_linha] in Hc; try discriminate Hc;
    injection Hc as <-; cbn [tabela_de chave_primaria nao_nulos] in Hex |- *.
  - unfold linha_empresa in Hres.
    apply liga_retorna in Hres as (k & Hk%celula_retorna & Hres).
    assert (Heq : (fun r : registro => sql_eq (r !! "cnpj_basico") (bind k))
                  = casa_chave Empresa row).
    { unfold casa_chave, pycel. rewrite Hk. reflexivity. }
    rewrite Heq, Hex in Hres. cbv iota in Hres.
    apply liga_retorna in Hres as (rz & Hrz%celula_retorna & Hres).
    apply liga_retorna in Hres as (valida & Hval & Hres).
    destruct valida; [|done].
    apply liga_retorna in Hres as (tb' & Hins & [= <-]).
    apply sql_insert_retorna in Hins as (-> & Hnn & Hpk).
    unfold novo_registro, valores_do_insert.
    split; [reflexivity|]. split; [exact Hex|]. split; [exact Hnn|exact Hpk].
  - unfold linha_estabelecimento in Hres.
    apply liga_retorna in Hres as (k1 & Hk1%celula_retorna & Hres).
    apply liga_retorna in Hres as (k2 & Hk2%celula_retorna & Hres).
    apply liga_retorna in Hres as (k3 & Hk3%celula_retorna & Hres).
    assert (Heq : onde_estabelecimento (bind k1) (bind k2) (bind k3)
                  = casa_chave Estabelecimento row).
    { unfold casa_chave, pycel. rewrite Hk1, Hk2, Hk3. reflexivity. }
    rewrite Heq, Hex in Hres. cbv iota in Hres.
    apply liga_retorna in Hres as (tb' & Hins & [= <-]).
    apply sql_insert_retorna in Hins as (-> & Hnn & Hpk).
    unfold novo_registro, valores_do_insert.
    split; [reflexivity|]. split; [exact Hex|]. split; [exact Hnn|exact Hpk].
  - unfold linha_socio in Hres.
    apply liga_retorna in Hres as (k1 & Hk1%celula_retorna & Hres).
    apply liga_retorna in Hres as (k2 & Hk2%celula_retorna & Hres).
    assert (Heq : onde_socio (bind k1) (bind k2)
                    (bind (row_get row "cpf_cnpj_socio" (PyStr "")))
                  = casa_chave Socio row).
    { unfold casa_chave, pycel. rewrite Hk1, Hk2. reflexivity. }
    rewrite Heq, Hex in Hres. cbv iota in Hres.
    apply liga_retorna in Hres as (tb' & Hins & [= <-]).
    apply sql_insert_retorna in Hins as (-> & Hnn & Hpk).
    unfold novo_registro, valores_do_insert.
    split; [reflexivity|]. split; [exact Hex|]. split; [exact Hnn|exact Hpk].
Qed.

Lemma laco_invariante_corpo (corpo : linha -> banco -> resultado (banco * (nat * nat)))
    (P : banco -> Prop) (df : quadro) (b : banco) (i a : nat) :
  (forall row b b' n, row ∈ df -> corpo row b = Retorna (b', n) -> P b -> P b') ->
  P b -> P (laco corpo df b i a).1.
Proof.
  revert b i a. induction df as [|row df IH]; intros b i a Hstep HP; simpl; [done|].
  destruct (corpo row b) as [[b' [di da]]|e] eqn:Hres.
  - apply IH.
    + intros row' b1 b2 n Hin. apply Hstep. by right.
    + eapply Hstep; [by left|exact Hres|exact HP].
  - apply IH; [|done].
    intros row' b1 b2 n Hin. apply Hstep. by right.
Qed.

Lemma atualiza_chave (t : tipo) (row : linha) (r : registro) (c : string) :
  c ∈ chave_natural t -> atualiza t row r !! c = r !! c.
Proof.
  intros Hc. unfold atualiza. destruct (verdadeiro _); [|done].
  by apply atualizado_chave.
Qed.

Lemma verdadeiro_sql_and (x y : option bool) :
  verdadeiro (sql_and x y) = verdadeiro x && verdadeiro y.
Proof. by destruct x as [[]|], y as [[]|]. Qed.

Lemma seleciona_casa (t : tipo) (row : linha) (r : registro) :
  verdadeiro (seleciona t row r) = true -> verdadeiro (casa_chave t row r) = true.
Proof.
  destruct t; try done. simpl. unfold onde_empresa.
  rewrite verdadeiro_sql_and. by intros [? _]%andb_true_iff.
Qed.

Lemma colide_ext (pk : list string) (r1 r2 r1' r2' : registro) :
  (forall c, c ∈ pk -> r1' !! c = r1 !! c) ->
  (forall c, c ∈ pk -> r2' !! c = r2 !! c) ->
  colide pk r1' r2' = colide pk r1 r2.
Proof.
  intros H1 H2. unfold colide. induction pk as [|c pk IH]; [done|].
  simpl. rewrite H1, H2 by left. f_equal. apply IH.
  - intros c' Hc'. apply H1. by right.
  - intros c' Hc'. apply H2. by right.
Qed.

Lemma chave_primaria_natural (t : tipo) (c : string) :
  c ∈ chave_primaria t -> principal t -> c ∈ chave_natural t.
Proof. intros Hc [-> | [-> | ->]]; simpl in *; [done|done|by apply elem_of_nil in Hc]. Qed.

Lemma passo_chave (t : tipo) (row : linha) (b b' : banco) (n : nat * nat) (c : string) :
  c ∈ chave_natural t ->
  passo t row b (Retorna (b', n)) ->
  preserva c (tabela_de t b) (tabela_de t b').
Proof.
  intros Hc [[e ?] | [[_ [? | [novo ?]]] | (_ & _ & ?)]]; simplify_eq.
  - apply preserva_refl.
  - rewrite tabela_de_com_tabela. intros i r Hr. exists r.
    split; [|done]. by apply lookup_app_l_Some.
  - rewrite tabela_de_com_tabela. intros i r Hr.
    exists (atualiza t row r). rewrite list_lookup_fmap, Hr. split; [done|].
    by apply atualiza_chave.
Qed.

Lemma laco_preserva_chave (t : tipo) corpo (df : quadro) (b : banco) (i a : nat)
    (c : string) :
  corpo_linha t = Some corpo -> c ∈ chave_natural t ->
  preserva c (tabela_de t b) (tabela_de t (laco corpo df b i a).1).
Proof.
  intros Hcorpo Hc.
  apply (laco_invariante t corpo
           (fun b' _ _ => preserva c (tabela_de t b) (tabela_de t b')));
    [done| |apply preserva_refl].
  intros row b1 b2 di da i' a' _ Hp Hb1.
  eapply preserva_trans; [exact Hb1|]. by eapply passo_chave.
Qed.

(** X14. The key of a stored record is for ever: whatever the chunk brings, every
    stored row is still at its place afterwards with the same value in
    every column of its natural key; no row is removed or moved. *)
Theorem upsert_chave_estavel (t : tipo) (df : quadro) (p : string) (b : banco)
    (c : string) :
  c ∈ chave_natural t ->
  preserva c (tabela_de t b) (tabela_de t (_upsert_chunk_inteligente t df p b).1).
Proof.
  intros Hc. unfold _upsert_chunk_inteligente.
  destruct (corpo_linha t) as [corpo|] eqn:Hcorpo; [|apply preserva_refl].
  by apply laco_preserva_chave.
Qed.

Lemma upsert_chave_estavel_witness :
  "cnpj_ordem" ∈ chave_natural Estabelecimento
  /\ preserva "cnpj_ordem"
       (tabela_de Estabelecimento ex_banco_estabelecimento)
       (tabela_de Estabelecimento
          (_upsert_chunk_inteligente Estabelecimento
             [prepara_linha Estabelecimento "2024-01"
                (ex_estabelecimento "12345678" "0001" "95" "BAR DO ZE" "32549999")]
             "2024-01" ex_banco_estabelecimento).1).
Proof.
  assert (H : "cnpj_ordem" ∈ chave_natural Estabelecimento) by calcula.
  split; [exact H|].
  exact (upsert_chave_estavel Estabelecimento _ "2024-01" ex_banco_estabelecimento
           "cnpj_ordem" H).
Defined.

(** X15. A stored row whose key no row of the chunk carries comes out of the
    chunk exactly as it went in. *)
Theorem upsert_so_muda_quem_casa (t : tipo) (df : quadro) (p : string) (b : banco)
    (i : nat) (r : registro) :
  tabela_de t b !! i = Some r ->
  Forall (fun row => verdadeiro (casa_chave t row r) = false) df ->
  tabela_de t (_upsert_chunk_inteligente t df p b).1 !! i = Some r.
Proof.
  intros Hi Hdf. unfold _upsert_chunk_inteligente.
  destruct (corpo_linha t) as [corpo|] eqn:Hcorpo; [|done].
  apply (laco_invariante t corpo (fun b' _ _ => tabela_de t b' !! i = Some r));
    [done| |done].
  intros row b1 b2 di da i' a' Hin Hp Hb1.
  rewrite Forall_forall in Hdf. specialize (Hdf row Hin).
  destruct Hp as [[e ?] | [[_ [? | [novo ?]]] | (_ & _ & ?)]]; simplify_eq.
  - done.
  - rewrite tabela_de_com_tabela. by apply lookup_app_l_Some.
  - rewrite tabela_de_com_tabela, list_lookup_fmap, Hb1. simpl. f_equal.
    unfold atualiza. destruct (verdadeiro (seleciona t row r)) eqn:Hs; [|done].
    apply seleciona_casa in Hs. congruence.
Qed.

Lemma sem_colisao_fmap (pk : list string) (f : registro -> registro) (tb : list registro) :
  (forall r c, c ∈ pk -> f r !! c = r !! c) ->
  sem_colisao pk tb -> sem_colisao pk (f <$> tb).
Proof.
  intros Hf Htb i j ri rj Hij Hi Hj.
  rewrite list_lookup_fmap in Hi, Hj.
  destruct (tb !! i) as [ri0|] eqn:Hi0; [|done].
  destruct (tb !! j) as [rj0|] eqn:Hj0; [|done].
  simpl in Hi, Hj. simplify_eq.
  rewrite (colide_ext pk ri0 rj0) by (intros; by apply Hf).
  by apply (Htb i j).
Qed.

Lemma compara_real_antisym (x y : real) : compara_real x y = CompOpp (compara_real y x).
Proof.
  destruct x as [a|[]], y as [b|[]]; try done. simpl. symmetry. apply Qcompare_antisym.
Qed.

Lemma sql_eq_sym (a b : valor) : sql_eq a b = sql_eq b a.
Proof.
  destruct a as [[s|x]|], b as [[s'|y]|]; try done; simpl; f_equal.
  - rewrite (String.compare_antisym s s'). by destruct (String.compare s' s).
  - rewrite (compara_real_antisym x y). by destruct (compara_real y x).
Qed.

Lemma colide_sym (pk : list string) (r1 r2 : registro) :
  colide pk r1 r2 = colide pk r2 r1.
Proof.
  unfold colide. induction pk as [|c pk IH]; [done|].
  simpl. by rewrite IH, sql_eq_sym.
Qed.

Lemma sem_colisao_app (pk : list string) (tb : list registro) (novo : registro) :
  sem_colisao pk tb ->
  existsb (colide pk novo) tb = false ->
  sem_colisao pk (tb ++ [novo]).
Proof.
  intros Htb Hnovo i j ri rj Hij Hi Hj.
  assert (Hfresh : forall k rk, tb !! k = Some rk -> colide pk novo rk = false).
  { intros k rk Hk. destruct (colide pk novo rk) eqn:Hc; [|done].
    assert (existsb (colide pk novo) tb = true); [|congruence].
    apply existsb_exists. exists rk. split; [|done].
    apply list_elem_of_In. by eapply list_elem_of_lookup_2. }
  apply lookup_app_Some in Hi as [Hi | [Hil Hi]];
    apply lookup_app_Some in Hj as [Hj | [Hjl Hj]].
  - by apply (Htb i j).
  - apply list_lookup_singleton_Some in Hj as [_ <-].
    rewrite colide_sym. by eapply Hfresh.
  - apply list_lookup_singleton_Some in Hi as [_ <-]. by eapply Hfresh.
  - apply list_lookup_singleton_Some in Hi as [Hi0 _].
    apply list_lookup_singleton_Some in Hj as [Hj0 _]. lia.
Qed.

Lemma corpo_sem_colisao (t : tipo) corpo (row : linha) (b b' : banco) (n : nat * nat) :
  corpo_linha t = Some corpo ->
  chave_primaria t <> [] ->
  corpo row b = Retorna (b', n) ->
  sem_colisao (chave_primaria t) (tabela_de t b) ->
  sem_colisao (chave_primaria t) (tabela_de t b').
Proof.
  intros Hc Hpk Hres Hb.
  pose proof (corpo_passo t corpo row b Hc) as Hp. rewrite Hres in Hp.
  destruct Hp as [[e ?] | [[_ [? | [novo ?]]] | (_ & _ & ?)]]; simplify_eq.
  - done.
  - destruct (corpo_insere t corpo row b _ Hc Hres) as (Hb' & _ & _ & Hfresh).
    rewrite Hb', tabela_de_com_tabela. apply sem_colisao_app; [done|].
    by apply Hfresh.
  - rewrite tabela_de_com_tabela. apply sem_colisao_fmap; [|done].
    intros r c Hin. apply atualiza_chave.
    apply chave_primaria_natural; [done|].
    destruct t; simpl in Hc; simplify_eq; unfold principal; auto.
Qed.

Lemma laco_sem_colisao (t : tipo) corpo (df : quadro) (b : banco) (i a : nat) :
  corpo_linha t = Some corpo -> chave_primaria t <> [] ->
  sem_colisao (chave_primaria t) (tabela_de t b) ->
  sem_colisao (chave_primaria t) (tabela_de t (laco corpo df b i a).1).
Proof.
  intros Hcorpo Hpk Hb.
  apply (laco_invariante_corpo corpo
           (fun b' => sem_colisao (chave_primaria t) (tabela_de t b'))); [|done].
  intros row b1 b2 n _ Hres Hb1.
  eapply corpo_sem_colisao; [exact Hcorpo|exact Hpk|exact Hres|exact Hb1].
Qed.

(** X16. The primary keys of [empresa] and [estabelecimento] stay unique: if no
    two stored rows agree on every column of the key, none do after the
    chunk, whatever its rows. *)
Theorem upsert_chave_primaria_unica (t : tipo) (df : quadro) (p : string) (b : banco) :
  t = Empresa \/ t = Estabelecimento ->
  sem_colisao (chave_primaria t) (tabela_de t b) ->
  sem_colisao (chave_primaria t) (tabela_de t (_upsert_chunk_inteligente t df p b).1).
Proof.
  intros Ht Hb. unfold _upsert_chunk_inteligente.
  destruct (corpo_linha t) as [corpo|] eqn:Hcorpo; [|done].
  apply laco_sem_colisao; [done| |done]. by destruct Ht as [-> | ->].
Qed.

Lemma limpa_em_branco (v : pyval) : em_branco v -> limpa_celula v = PyNone.
Proof. by intros [-> | ->]. Qed.

Lemma sql_eq_nulo (a : valor) : sql_eq a None = None.
Proof. by destruct a. Qed.

Lemma verdadeiro_and_nulo_l (x : option bool) : verdadeiro (sql_and None x) = false.
Proof. by destruct x as [[]|]. Qed.

Lemma sql_existe_nunca (onde : registro -> option bool) (tb : list registro) :
  (forall r, verdadeiro (onde r) = false) -> sql_existe onde tb = false.
Proof.
  intros H. unfold sql_existe. induction tb as [|r tb IH]; [done|].
  simpl. by rewrite H, IH.
Qed.

Lemma chave_nula_nao_casa (t : tipo) (row : linha) (c : string) (tb : list registro) :
  principal t -> c ∈ chave_natural t -> row !! c = Some PyNone ->
  sql_existe (casa_chave t row) tb = false.
Proof.
  intros Ht Hc Hrow. apply sql_existe_nunca. intros r.
  destruct Ht as [-> | [-> | ->]]; simpl in Hc;
    repeat (apply elem_of_cons in Hc as [-> | Hc]); try (by apply elem_of_nil in Hc);
    unfold casa_chave, onde_estabelecimento, onde_socio, pycel, row_get;
    rewrite Hrow; simpl; rewrite sql_eq_nulo, ?verdadeiro_sql_and; simpl;
    by rewrite ?andb_false_r.
Qed.

Lemma upsert_um (t : tipo) (row : linha) (p : string) (b : banco) :
  (_upsert_chunk_inteligente t [row] p b = (b, (0%nat, 0%nat)))
  \/ (exists corpo b' n, corpo_linha t = Some corpo
        /\ corpo row b = Retorna (b', n)
        /\ _upsert_chunk_inteligente t [row] p b = (b', n)).
Proof.
  unfold _upsert_chunk_inteligente.
  destruct (corpo_linha t) as [corpo|] eqn:Hc; [|by left].
  simpl. destruct (corpo row b) as [[b' [di da]]|e] eqn:Hres; [|by left].
  right. by exists corpo, b', (di, da).
Qed.

(** X17. A row with a blank cell in a column of its natural key is never
    matched to a stored record, in any of the three tables: the lookup
    finds nothing whatever the store holds, so the row is not counted as
    an update and every stored row stays as it is; the row is dropped or
    appended as a new record. *)
Theorem chave_em_branco_nunca_casa (t : tipo) (row : linha) (p : string) (b : banco)
    (c : string) (v : pyval) :
  principal t -> c ∈ chave_natural t -> row !! c = Some v -> em_branco v ->
  sql_existe (casa_chave t (prepara_linha t p row)) (tabela_de t b) = false
  /\ exists resto,
       tabela_de t (importa_chunk t p [row] b).1 = tabela_de t b ++ resto
       /\ (importa_chunk t p [row] b).2 = (length resto, 0%nat).
Proof.
  intros Ht Hc Hrow Hv.
  assert (Hex : sql_existe (casa_chave t (prepara_linha t p row)) (tabela_de t b) = false).
  { apply (chave_nula_nao_casa t _ c); [done|done|].
    pose proof (chave_fora_do_set t) as Hfora. rewrite Forall_forall in Hfora.
    destruct (Hfora c Hc) as (_ & H2 & H3).
    rewrite prepara_linha_lookup_outra, Hrow by done.
    simpl. by rewrite limpa_em_branco. }
  split; [exact Hex|].
  rewrite importa_chunk_um.
  destruct (upsert_um t (prepara_linha t p row) p b)
    as [-> | (corpo & b' & n & Hcorpo & Hres & ->)].
  - exists []. by rewrite app_nil_r.
  - pose proof (corpo_passo t corpo (prepara_linha t p row) b Hcorpo) as Hp.
    rewrite Hres in Hp.
    destruct Hp as [[e ?] | [[_ [? | [novo ?]]] | (Hsim & _)]]; simplify_eq.
    + exists []. by rewrite app_nil_r.
    + exists [novo]. cbn [fst snd]. by rewrite tabela_de_com_tabela.
    + congruence.
Qed.

Lemma chave_em_branco_nunca_casa_witness :
  let row := ex_estabelecimento "12345678" "" "95" "BAR DO ZE" "32540000" in
  sql_existe (casa_chave Estabelecimento (prepara_linha Estabelecimento "2024-01" row))
    (tabela_de Estabelecimento ex_banco_estabelecimento) = false
  /\ exists resto,
       tabela_de Estabelecimento
         (importa_chunk Estabelecimento "2024-01" [row] ex_banco_estabelecimento).1
       = tabela_de Estabelecimento ex_banco_estabelecimento ++ resto
       /\ (importa_chunk Estabelecimento "2024-01" [row] ex_banco_estabelecimento).2
          = (length resto, 0%nat).
Proof.
  intros row.
  apply (chave_em_branco_nunca_casa Estabelecimento row "2024-01"
           ex_banco_estabelecimento "cnpj_ordem" (PyStr ""));
    [right; by left|calcula|calcula|by right].
Defined.

Lemma laco_parado (corpo : linha -> banco -> resultado (banco * (nat * nat)))
    (df : quadro) (b : banco) (i a : nat) :
  Forall (fun row => (exists e, corpo row b = Levanta e)
                     \/ corpo row b = Retorna (b, (0%nat, 0%nat))) df ->
  laco corpo df b i a = (b, (i, a)).
Proof.
  induction 1 as [|row df [[e Hrow] | Hrow] _ IH]; simpl; [done|..]; rewrite Hrow.
  - exact IH.
  - by rewrite !Nat.add_0_r.
Qed.

Lemma importa_chunk_sublista (t : tipo) (p : string) (chunk : quadro) (b : banco) :
  exists df, df `sublist_of` prepara_chunk t p chunk
             /\ importa_chunk t p chunk b = _upsert_chunk_inteligente t df p b.
Proof.
  unfold importa_chunk. destruct chunk as [|row chunk].
  - exists []. split; [done|]. unfold _upsert_chunk_inteligente.
    by destruct (corpo_linha t).
  - exists (_remover_duplicatas t (prepara_chunk t p (row :: chunk))).
    split; [apply _remover_duplicatas_sublist|].
    destruct (_remover_duplicatas t (prepara_chunk t p (row :: chunk))); [|done].
    unfold _upsert_chunk_inteligente. by destruct (corpo_linha t).
Qed.

Lemma linha_empresa_sem_razao (row : linha) (p : string) (b : banco) :
  (forall v, row !! "razao_social" = Some v -> razao_em_branco v) ->
  sql_existe (casa_chave Empresa (prepara_linha Empresa p row)) (tb_empresa b) = false ->
  (exists e, linha_empresa (prepara_linha Empresa p row) b = Levanta e)
  \/ linha_empresa (prepara_linha Empresa p row) b = Retorna (b, (0%nat, 0%nat)).
Proof.
  intros Hrz Hex.
  destruct (resultado_casos (linha_empresa (prepara_linha Empresa p row) b))
    as [?|[res Hres]]; [by left|].
  right. rewrite Hres. unfold linha_empresa in Hres.
  apply liga_retorna in Hres as (k & Hk%celula_retorna & Hres).
  assert (Heq : (fun r : registro => sql_eq (r !! "cnpj_basico") (bind k))
                = casa_chave Empresa (prepara_linha Empresa p row)).
  { unfold casa_chave, pycel. rewrite Hk. reflexivity. }
  rewrite Heq, Hex in Hres. cbv iota in Hres.
  apply liga_retorna in Hres as (rz & Hrz'%celula_retorna & Hres).
  apply liga_retorna in Hres as (valida & Hval & Hres).
  rewrite (prepara_linha_lookup_outra Empresa p row "razao_social") in Hrz' by done.
  destruct (row !! "razao_social") as [v|] eqn:Hv; [|done].
  cbn [fmap option_fmap option_map] in Hrz'. injection Hrz' as <-.
  assert (valida = false) as ->; [|by injection Hres as <-].
  destruct (Hrz v eq_refl) as [-> | (s & -> & Hs)].
  - cbn [limpa_celula razao_social_valida] in Hval. congruence.
  - destruct s as [|a s].
    + cbn [limpa_celula razao_social_valida] in Hval. congruence.
    + cbn [limpa_celula razao_social_valida] in Hval. rewrite Hs in Hval.
      simpl in Hval. congruence.
Qed.

(** X19. Insert gating of [empresa]: rows whose company is not in the store
    and whose legal name is missing, empty or only white space create
    nothing: the chunk leaves the store as it is and reports no insertion
    and no update. *)
Theorem empresa_sem_razao_nao_entra (df : quadro) (p : string) (b : banco) :
  Forall (fun row : linha =>
            (forall v, row !! "razao_social" = Some v -> razao_em_branco v)
            /\ sql_existe (casa_chave Empresa (prepara_linha Empresa p row))
                 (tb_empresa b) = false) df ->
  importa_chunk Empresa p df b = (b, (0%nat, 0%nat)).
Proof.
  intros Hdf.
  destruct (importa_chunk_sublista Empresa p df b) as (df' & Hsub & ->).
  unfold _upsert_chunk_inteligente. cbn [corpo_linha].
  apply laco_parado.
  eapply Forall_sublist; [exact Hsub|].
  unfold prepara_chunk. apply Forall_fmap.
  eapply Forall_impl; [exact Hdf|].
  intros row [Hrz Hex]. by apply linha_empresa_sem_razao.
Qed.

Lemma empresa_sem_razao_nao_entra_witness :
  importa_chunk Empresa "2023-05"
    [ex_empresa "12345678" "" "2062" "10000,00" "03";
     ex_empresa "87654321" "   " "2062" "500,00" "01"] banco_vazio
  = (banco_vazio, (0%nat, 0%nat)).
Proof.
  apply empresa_sem_razao_nao_entra.
  apply Forall_cons_2; [|apply Forall_cons_2; [|apply Forall_nil_2]].
  - split; [|calcula]. intros v Hv.
    assert (H : ex_empresa "12345678" "" "2062" "10000,00" "03" !! "razao_social"
                = Some (PyStr "")) by calcula.
    rewrite H in Hv. injection Hv as <-. right. by exists "".
  - split; [|calcula]. intros v Hv.
    assert (H : ex_empresa "87654321" "   " "2062" "500,00" "01" !! "razao_social"
                = Some (PyStr "   ")) by calcula.
    rewrite H in Hv. injection Hv as <-. right. by exists "   ".
Defined.

Lemma zip_fmap_diag {A B : Type} (f : A -> B) (l : list A) :
  zip l (f <$> l) = (fun x => (x, f x)) <$> l.
Proof. induction l as [|x l IH]; [done|]. simpl. f_equal. exact IH. Qed.

Lemma atribuido_fmap (c : string) (f : string -> valor) (cols : list string) :
  atribuido c ((fun x => (x, f x)) <$> cols)
  = if decide (c ∈ cols) then Some (f c) else None.
Proof.
  induction cols as [|c0 resto IH]; [done|].
  rewrite fmap_cons. cbn [atribuido]. rewrite IH. simpl.
  destruct (decide (c ∈ resto)) as [Hin|Hnin].
  - rewrite decide_True; [done|by right].
  - destruct (decide (c0 = c)) as [->|Hne].
    + rewrite decide_True; [done|by left].
    + rewrite decide_False; [done|]. intros [?|?]%elem_of_cons; by subst.
Qed.

Lemma elem_of_colunas_preenchidas (t : tipo) (row : linha) (c : string) :
  c ∈ colunas_preenchidas t row <->
  c ∈ estrutura_colunas t /\ exists v, row !! c = Some v /\ v <> PyNone.
Proof.
  unfold colunas_preenchidas.
  rewrite list_elem_of_In, filter_In, <- list_elem_of_In.
  split; intros [Hc H]; (split; [done|]).
  - destruct (row !! c) as [[]|]; try done; by eexists.
  - destruct H as (v & -> & Hv). by destruct v.
Qed.

Lemma novo_registro_lookup (t : tipo) (row : linha) (c : string) :
  novo_registro t row !! c
  = if decide (c ∈ colunas_preenchidas t row)
    then match t with
         | Empresa => bind (valor_do_insert_empresa c (row_get row c PyNone))
         | _ => bind (row_get row c PyNone)
         end
    else None.
Proof.
  unfold novo_registro. rewrite lookup_sql_set, lookup_empty.
  unfold valores_do_insert.
  destruct t; rewrite zip_fmap_diag, atribuido_fmap; by case_decide.
Qed.

Lemma novo_registro_texto (t : tipo) (row : linha) (c s : string) :
  c ∈ estrutura_colunas t -> c <> "capital_social" ->
  row !! c = Some (PyStr s) ->
  novo_registro t row !! c = Some (Texto s).
Proof.
  intros Hc Hcap Hrow. rewrite novo_registro_lookup.
  rewrite decide_True.
  - unfold row_get, valor_do_insert_empresa. rewrite Hrow. simpl.
    apply String.eqb_neq in Hcap. rewrite Hcap. by destruct t.
  - apply elem_of_colunas_preenchidas. split; [done|]. by eexists.
Qed.

Lemma novo_registro_fora (t : tipo) (row : linha) (c : string) :
  c ∉ estrutura_colunas t -> novo_registro t row !! c = None.
Proof.
  intros Hc. rewrite novo_registro_lookup. rewrite decide_False; [done|].
  intros [? _]%elem_of_colunas_preenchidas. done.
Qed.

Lemma carimbo_fora_do_esquema (t : tipo) : "data_atualizacao" ∉ estrutura_colunas t.
Proof. destruct t; apply (bool_decide_unpack _); by vm_compute. Qed.

Lemma sql_insert_sucesso (nn pk colunas : list string) (valores : list valor)
    (tb : list registro) :
  colunas <> [] ->
  Forall (fun c => is_Some (sql_set (zip colunas valores) ∅ !! c)) nn ->
  (pk <> [] -> existsb (colide pk (sql_set (zip colunas valores) ∅)) tb = false) ->
  sql_insert nn pk colunas valores tb
  = Retorna (tb ++ [sql_set (zip colunas valores) ∅]).
Proof.
  intros Hcols Hnn Hpk. unfold sql_insert.
  destruct colunas as [|c0 colunas]; [done|].
  assert (Hb : forallb
                 (fun c => bool_decide
                    (is_Some (sql_set (zip (c0 :: colunas) valores) ∅ !! c))) nn = true).
  { apply forallb_forall. intros c Hc%list_elem_of_In.
    rewrite Forall_forall in Hnn. by apply bool_decide_eq_true, Hnn. }
  rewrite Hb. simpl negb. cbv iota.
  destruct pk as [|k pk]; [done|].
  by rewrite Hpk.
Qed.

Lemma razao_social_valida_texto (s : string) :
  strip s <> "" -> razao_social_valida (PyStr s) = Retorna true.
Proof.
  intros Hs. destruct s as [|a s]; [done|].
  cbn [razao_social_valida]. by apply String.eqb_neq in Hs as ->.
Qed.

(** With its key read and not found, its legal name valid and the
    constraints of the table met, a turn runs its INSERT. *)
Lemma corpo_novo (t : tipo) corpo (row : linha) (b : banco) :
  corpo_linha t = Some corpo ->
  Forall (fun c => is_Some (row !! c)) (chave_natural t) ->
  sql_existe (casa_chave t row) (tabela_de t b) = false ->
  (t = Empresa -> exists s, row !! "razao_social" = Some (PyStr s) /\ strip s <> "") ->
  colunas_preenchidas t row <> [] ->
  Forall (fun c => is_Some (novo_registro t row !! c)) (nao_nulos t) ->
  (chave_primaria t <> [] ->
   existsb (colide (chave_primaria t) (novo_registro t row)) (tabela_de t b) = false) ->
  corpo row b
  = Retorna (com_tabela t (tabela_de t b ++ [novo_registro t row]) b, (1%nat, 0%nat)).
Proof.
  intros Hcorpo Hk Hex Hrz Hcols Hnn Hpk.
  unfold novo_registro, valores_do_insert in *.
  destruct t; cbn [corpo_linha] in Hcorpo; try discriminate Hcorpo;
    injection Hcorpo as <-;
    cbn [chave_natural tabela_de] in *;
    rewrite !Forall_cons in Hk.
  - destruct Hk as ([k Hk] & _).
    destruct (Hrz eq_refl) as (s & Hs & Hstrip).
    assert (Heq : (fun r : registro => sql_eq (r !! "cnpj_basico") (bind k))
                  = casa_chave Empresa row).
    { unfold casa_chave, pycel. rewrite Hk. reflexivity. }
    unfold linha_empresa, celula. rewrite Hk. cbn [liga].
    rewrite Heq, Hex. cbv iota. rewrite Hs. cbn [liga].
    rewrite (razao_social_valida_texto s Hstrip). cbn [liga]. cbv iota.
    rewrite (sql_insert_sucesso _ _ _ _ _ Hcols Hnn Hpk). reflexivity.
  - destruct Hk as ([k1 Hk1] & [k2 Hk2] & [k3 Hk3] & _).
    assert (Heq : onde_estabelecimento (bind k1) (bind k2) (bind k3)
                  = casa_chave Estabelecimento row).
    { unfold casa_chave, pycel. rewrite Hk1, Hk2, Hk3. reflexivity. }
    unfold linha_estabelecimento, celula. rewrite Hk1, Hk2, Hk3. cbn [liga].
    rewrite Heq, Hex. cbv iota.
    rewrite (sql_insert_sucesso _ _ _ _ _ Hcols Hnn Hpk). reflexivity.
  - destruct Hk as ([k1 Hk1] & [k2 Hk2] & _).
    assert (Heq : onde_socio (bind k1) (bind k2)
                    (bind (row_get row "cpf_cnpj_socio" (PyStr "")))
                  = casa_chave Socio row).
    { unfold casa_chave, pycel. rewrite Hk1, Hk2. reflexivity. }
    unfold linha_socio, celula. rewrite Hk1, Hk2. cbn [liga].
    rewrite Heq, Hex. cbv iota.
    rewrite (sql_insert_sucesso _ _ _ _ _ Hcols Hnn Hpk). reflexivity.
Qed.

(** The prepared row carries the key of the raw one. *)
Lemma mesma_chave_prepara (t : tipo) (p : string) (row : linha) (r : registro) :
  mesma_chave t row r -> mesma_chave t (prepara_linha t p row) r.
Proof.
  unfold mesma_chave. intros Hk.
  pose proof (chave_fora_do_set t) as Hfora.
  rewrite Forall_forall in Hk, Hfora. apply Forall_forall. intros c Hc.
  destruct (Hk c Hc) as (s & Hs & Hrow & Hr). destruct (Hfora c Hc) as (_ & H2 & H3).
  exists s. split; [done|]. split; [|done]. by apply pycel_prepara.
Qed.

Lemma colide_casa (t : tipo) (row : linha) (novo r : registro) :
  t = Empresa \/ t = Estabelecimento ->
  mesma_chave t row novo ->
  colide (chave_primaria t) novo r = verdadeiro (casa_chave t row r).
Proof.
  unfold mesma_chave.
  intros [-> | ->] Hk; cbn [chave_natural] in Hk; rewrite !Forall_cons in Hk.
  - destruct Hk as ((s & _ & Hrow & Hn) & _).
    unfold colide, casa_chave, pycel. cbn [chave_primaria forallb].
    rewrite Hrow, Hn. cbn [default bind].
    by rewrite andb_true_r, sql_eq_sym.
  - destruct Hk as ((s1 & _ & Hrow1 & Hn1) & (s2 & _ & Hrow2 & Hn2)
                    & (s3 & _ & Hrow3 & Hn3) & _).
    unfold colide, casa_chave, onde_estabelecimento, pycel.
    cbn [chave_primaria forallb].
    rewrite Hrow1, Hrow2, Hrow3, Hn1, Hn2, Hn3. cbn [default bind].
    rewrite !verdadeiro_sql_and, andb_true_r.
    rewrite (sql_eq_sym (r !! "cnpj_basico")), (sql_eq_sym (r !! "cnpj_ordem")),
      (sql_eq_sym (r !! "cnpj_dv")).
    by rewrite andb_assoc.
Qed.

Lemma existsb_ext' {A : Type} (f g : A -> bool) (l : list A) :
  (forall x, f x = g x) -> existsb f l = existsb g l.
Proof. intros H. induction l as [|x l IH]; [done|]. simpl. by rewrite H, IH. Qed.

Lemma strip_vazio_nao (s : string) : strip s <> "" -> s <> "".
Proof. by intros H ->. Qed.

(** X18. A row whose key is not in the store is appended as a new record: the
    count of insertions goes up by one and the stored rows stay as they
    are. The new record carries the key of the row, it has no period
    stamp (the INSERT does not write [data_atualizacao]), and the lookup
    of the same key now finds it. *)
Theorem insercao_de_chave_nova (t : tipo) (row : linha) (p : string) (b : banco) :
  principal t ->
  Forall (fun c => exists s, s <> "" /\ row !! c = Some (PyStr s)) (chave_natural t) ->
  (t = Empresa -> exists s, row !! "razao_social" = Some (PyStr s) /\ strip s <> "") ->
  sql_existe (casa_chave t (prepara_linha t p row)) (tabela_de t b) = false ->
  exists novo,
    importa_chunk t p [row] b
      = (com_tabela t (tabela_de t b ++ [novo]) b, (1%nat, 0%nat))
    /\ mesma_chave t row novo
    /\ novo !! "data_atualizacao" = None
    /\ sql_existe (casa_chave t (prepara_linha t p row)) (tabela_de t b ++ [novo]) = true.
Proof.
  intros Ht Hk Hrz Hex.
  set (row' := prepara_linha t p row) in *.
  exists (novo_registro t row').
  pose proof (chave_fora_do_set t) as Hfora.
  pose proof (chave_natural_no_esquema t) as Hesq.
  assert (Hrow' : forall c s, c ∈ chave_natural t -> s <> "" ->
                    row !! c = Some (PyStr s) -> row' !! c = Some (PyStr s)).
  { intros c s Hc Hs Hrow. rewrite Forall_forall in Hfora.
    destruct (Hfora c Hc) as (_ & H2 & H3). by apply pycel_prepara. }
  assert (Hmesma : mesma_chave t row (novo_registro t row')).
  { unfold mesma_chave. rewrite Forall_forall in Hk, Hfora, Hesq.
    apply Forall_forall. intros c Hc.
    destruct (Hk c Hc) as (s & Hs & Hrow). destruct (Hfora c Hc) as (_ & _ & H3).
    exists s. split; [done|]. split; [done|].
    apply novo_registro_texto; [by apply Hesq|done|by apply Hrow']. }
  assert (Hcorpo : exists corpo, corpo_linha t = Some corpo).
  { destruct Ht as [-> | [-> | ->]]; by eexists. }
  destruct Hcorpo as [corpo Hcorpo].
  assert (Hres : corpo row' b
                 = Retorna (com_tabela t (tabela_de t b ++ [novo_registro t row']) b,
                            (1%nat, 0%nat))).
  { apply corpo_novo; try done.
    - rewrite Forall_forall in Hk. apply Forall_forall. intros c Hc.
      destruct (Hk c Hc) as (s & Hs & Hrow). rewrite (Hrow' c s); done.
    - intros ->. destruct (Hrz eq_refl) as (s & Hs & Hstrip). exists s.
      split; [|done]. subst row'.
      apply pycel_prepara; [done|done| |done]. by apply strip_vazio_nao.
    - assert (Hc : "cnpj_basico" ∈ chave_natural t).
      { destruct Ht as [-> | [-> | ->]]; by left. }
      rewrite Forall_forall in Hk, Hesq, Hfora.
      destruct (Hk _ Hc) as (s & Hs & Hrow).
      intros Hnil.
      assert (Hin : "cnpj_basico" ∈ colunas_preenchidas t row').
      { apply elem_of_colunas_preenchidas. split; [by apply Hesq|].
        exists (PyStr s). split; [by apply Hrow'|done]. }
      rewrite Hnil in Hin. by apply elem_of_nil in Hin.
    - destruct Ht as [-> | [-> | ->]]; cbn [nao_nulos].
      + destruct (Hrz eq_refl) as (s & Hs & Hstrip).
        apply Forall_cons_2; [|done].
        rewrite (novo_registro_texto Empresa row' "razao_social" s); [by eexists| |done|].
        * apply (bool_decide_unpack _). by vm_compute.
        * subst row'. apply pycel_prepara; [done|done| |done]. by apply strip_vazio_nao.
      + done.
      + apply Forall_cons_2; [|done].
        unfold mesma_chave in Hmesma. rewrite Forall_forall in Hmesma.
        destruct (Hmesma "nome_socio_razao_social") as (s & _ & _ & ->); [|by eexists].
        apply (bool_decide_unpack _). by vm_compute.
    - intros Hpk.
      assert (Ht' : t = Empresa \/ t = Estabelecimento).
      { destruct Ht as [-> | [-> | ->]]; auto. done. }
      rewrite (existsb_ext' _ (fun r => verdadeiro (casa_chave t row' r))); [exact Hex|].
      intros r. apply colide_casa; [done|].
      by apply mesma_chave_prepara. }
  split; [|split; [done|split]].
  - rewrite importa_chunk_um. unfold _upsert_chunk_inteligente. rewrite Hcorpo.
    by apply laco_um.
  - apply novo_registro_fora, carimbo_fora_do_esquema.
  - unfold sql_existe. rewrite existsb_app. simpl.
    pose proof (mesma_chave_casa t p row _ Ht Hmesma) as H. fold row' in H.
    rewrite H. by rewrite orb_true_r.
Qed.

Lemma insercao_de_chave_nova_witness :
  let row := ex_socio "12345678" "MARIA DE SOUZA" "222" "22" in
  exists novo,
    importa_chunk Socio "2023-06" [row] ex_banco_socio
      = (com_tabela Socio (tabela_de Socio ex_banco_socio ++ [novo]) ex_banco_socio,
         (1%nat, 0%nat))
    /\ mesma_chave Socio row novo
    /\ novo !! "data_atualizacao" = None
    /\ sql_existe (casa_chave Socio (prepara_linha Socio "2023-06" row))
         (tabela_de Socio ex_banco_socio ++ [novo]) = true.
Proof.
  intros row.
  apply (insercao_de_chave_nova Socio row "2023-06" ex_banco_socio).
  - right. by right.
  - apply Forall_cons_2; [exists "12345678"; split; [done|calcula]|].
    apply Forall_cons_2; [exists "MARIA DE SOUZA"; split; [done|calcula]|].
    apply Forall_cons_2; [exists "222"; split; [done|calcula]|].
    apply Forall_nil_2.
  - discriminate.
  - calcula.
Defined.

(** X21. Chronological supersession for [estabelecimento] and [socio]: a row
    whose key is stored writes each of its non-blank text cells over the
    stored value of that column (a telephone that was blank in 2023-05 is
    filled by the row of 2024-01). *)
Theorem mescla_substitui (t : tipo) (row : linha) (p : string) (b : banco)
    (i : nat) (r : registro) :
  t = Estabelecimento \/ t = Socio ->
  Forall (fun c => is_Some (row !! c)) (estrutura_colunas t) ->
  tabela_de t b !! i = Some r ->
  mesma_chave t row r ->
  exists r',
    tabela_de t (importa_chunk t p [row] b).1 !! i = Some r'
    /\ forall F s, F ∈ colunas_coalesce t -> F ∉ colunas_data -> s <> "" ->
         row !! F = Some (PyStr s) -> r' !! F = Some (Texto s).
Proof.
  intros Ht Hrow Hi Hk.
  assert (Hp : principal t) by (destruct Ht; [right; by left|right; by right]).
  destruct (prepara_linha_lidas t p row Hrow) as [Hchave Hlidas].
  pose proof (mesma_chave_casa t p row r Hp Hk) as Hcasa.
  pose proof (sql_existe_lookup _ _ _ _ Hi Hcasa) as Hex.
  rewrite importa_chunk_um.
  assert (Hcel : forall c, c ∈ colunas_coalesce t ->
                   prepara_linha t p row !! c = limpa_celula <$> row !! c).
  { intros c Hc. by apply prepara_linha_lookup_coalesce. }
  generalize dependent (prepara_linha t p row). intros row' Hchave Hlidas Hcasa Hex Hcel.
  assert (Hsel : seleciona t row' = casa_chave t row') by (by destruct Ht; subst).
  destruct (corpo_linha t) as [corpo|] eqn:Hcorpo; [|by destruct Ht; subst].
  pose proof (corpo_atualiza t corpo row' b Hcorpo Hchave Hlidas Hex) as Hres.
  unfold _upsert_chunk_inteligente. rewrite Hcorpo.
  rewrite (laco_um _ _ _ _ _ _ Hres). cbn [fst].
  exists (atualiza t row' r). rewrite tabela_de_com_tabela, list_lookup_fmap, Hi.
  split; [done|]. intros F s HF _ Hs HrowF.
  unfold atualiza. rewrite Hsel, Hcasa.
  rewrite lookup_atualizado_coalesce by done.
  unfold pycel. rewrite Hcel, HrowF by done.
  change (limpa_celula <$> Some (PyStr s)) with (Some (limpa_celula (PyStr s))).
  rewrite limpa_texto by done. by apply mescla_texto.
Qed.

Lemma mescla_substitui_witness :
  let row := ex_estabelecimento "12345678" "0001" "95" "BAR DO ZE" "32549999" in
  exists r',
    tabela_de Estabelecimento
      (importa_chunk Estabelecimento "2024-01" [row] ex_banco_estabelecimento).1 !! 0%nat
    = Some r'
    /\ forall F s, F ∈ colunas_coalesce Estabelecimento -> F ∉ colunas_data -> s <> "" ->
         row !! F = Some (PyStr s) -> r' !! F = Some (Texto s).
Proof.
  intros row.
  apply (mescla_substitui Estabelecimento row "2024-01" ex_banco_estabelecimento
           0%nat ex_registro_estabelecimento); [by left|calcula|calcula|].
  unfold mesma_chave.
  apply Forall_cons_2; [exists "12345678"; split; [done|split; calcula]|].
  apply Forall_cons_2; [exists "0001"; split; [done|split; calcula]|].
  apply Forall_cons_2; [exists "95"; split; [done|split; calcula]|].
  apply Forall_nil_2.
Defined.

Lemma mescla_nao_em_branco (p antigo : valor) :
  ~ texto_em_branco antigo -> ~ texto_em_branco (mescla p antigo).
Proof.
  intros Ha. unfold mescla, NULLIF.
  destruct p as [[s|q]|]; [| |done].
  - destruct s as [|a s]; [done|]. simpl. by intros [?|?].
  - simpl. by intros [?|?].
Qed.

Lemma linha_empresa_insere_razao (row : linha) (b b' : banco) :
  linha_empresa row b = Retorna (b', (1%nat, 0%nat)) ->
  exists s, s <> "" /\ row !! "razao_social" = Some (PyStr s).
Proof.
  intros Hres. unfold linha_empresa in Hres.
  apply liga_retorna in Hres as (k & Hk%celula_retorna & Hres).
  destruct (sql_existe _ _).
  - apply liga_retorna in Hres as (antes & _ & Hres).
    apply liga_retorna in Hres as (depois & _ & Hres).
    apply liga_retorna in Hres as (st & _ & Hres).
    destruct (sql_update _ _ _). done.
  - apply liga_retorna in Hres as (rz & Hrz%celula_retorna & Hres).
    apply liga_retorna in Hres as (valida & Hval & Hres).
    destruct valida; [|done].
    destruct rz as [|s|q]; [done| |].
    + exists s. split; [|done]. by intros ->.
    + simpl in Hval. by destruct (q_nao_zero q).
Qed.

Lemma laco_razao (df : quadro) (b : banco) (i a : nat) :
  Forall razao_preenchida (tb_empresa b) ->
  Forall razao_preenchida (tb_empresa (laco linha_empresa df b i a).1).
Proof.
  intros Hb.
  apply (laco_invariante_corpo linha_empresa
           (fun b' => Forall razao_preenchida (tb_empresa b'))); [|done].
  intros row b1 b2 n _ Hres Hb1.
  pose proof (linha_empresa_passo row b1) as Hp. rewrite Hres in Hp.
  destruct Hp as [[e ?] | [[_ [? | [novo ?]]] | (_ & _ & ?)]]; simplify_eq.
  - done.
  - destruct (corpo_insere Empresa linha_empresa row b1 _ eq_refl Hres) as (Hb' & _).
    destruct (linha_empresa_insere_razao row b1 _ Hres) as (s & Hs & Hrow).
    rewrite Hb'.
    change (tb_empresa ?x) with (tabela_de Empresa x).
    rewrite tabela_de_com_tabela. apply Forall_app. split; [done|].
    apply Forall_cons_2; [|done]. unfold razao_preenchida.
    rewrite (novo_registro_texto Empresa row "razao_social" s); [| |done|done].
    + intros [?|?]; congruence.
    + apply (bool_decide_unpack _). by vm_compute.
  - change (tb_empresa ?x) with (tabela_de Empresa x).
    rewrite tabela_de_com_tabela. apply Forall_fmap.
    eapply Forall_impl; [exact Hb1|]. intros r Hr. simpl.
    unfold atualiza. destruct (verdadeiro _); [|done].
    unfold razao_preenchida.
    rewrite lookup_atualizado_coalesce by (apply (bool_decide_unpack _); by vm_compute).
    by apply mescla_nao_em_branco.
Qed.

(** X20. A stored company always has a legal name: if no row of [empresa] has
    a NULL or empty [razao_social], none has after the chunk, whatever its
    rows bring. *)
Theorem empresa_sempre_com_razao (df : quadro) (p : string) (b : banco) :
  Forall razao_preenchida (tb_empresa b) ->
  Forall razao_preenchida (tb_empresa (_upsert_chunk_inteligente Empresa df p b).1).
Proof.
  intros Hb. unfold _upsert_chunk_inteligente. cbn [corpo_linha].
  by apply laco_razao.
Qed.

Lemma linha_sem_chave_levanta (t : tipo) corpo (row : linha) (b : banco) :
  corpo_linha t = Some corpo ->
  row !! "cnpj_basico" = None ->
  corpo row b = Levanta (KeyError "cnpj_basico").
Proof.
  intros Hcorpo Hrow.
  destruct t; cbn [corpo_linha] in Hcorpo; try discriminate Hcorpo;
    injection Hcorpo as <-;
    unfold linha_empresa, linha_estabelecimento, linha_socio, celula;
    by rewrite Hrow.
Qed.

(** X13. A chunk whose rows do not carry the label [cnpj_basico] (the frame
    of a file whose column count is not that of the schema keeps the
    labels it was read with) imports nothing: every row fails at its
    first read and is skipped, the store is left as it is and no row is
    counted. *)
Theorem chunk_sem_rotulos_nao_importa (t : tipo) (chunk : quadro) (p : string) (b : banco) :
  Forall (fun row : linha => row !! "cnpj_basico" = None) chunk ->
  importa_chunk t p chunk b = (b, (0%nat, 0%nat)).
Proof.
  intros Hdf.
  destruct (importa_chunk_sublista t p chunk b) as (df' & Hsub & ->).
  unfold _upsert_chunk_inteligente.
  destruct (corpo_linha t) as [corpo|] eqn:Hcorpo; [|done].
  apply laco_parado.
  eapply Forall_sublist; [exact Hsub|].
  unfold prepara_chunk. apply Forall_fmap.
  eapply Forall_impl; [exact Hdf|].
  intros row Hrow. left. exists (KeyError "cnpj_basico").
  apply (linha_sem_chave_levanta t); [done|].
  rewrite prepara_linha_lookup_outra, Hrow; [done|done|done].
Qed.

Lemma chunk_sem_rotulos_nao_importa_witness :
  importa_chunk Empresa "2023-05" ex_quadro_estreito ex_banco_empresa_incompleta
  = (ex_banco_empresa_incompleta, (0%nat, 0%nat)).
Proof.
  apply chunk_sem_rotulos_nao_importa.
  apply Forall_cons_2; [calcula|apply Forall_nil_2].
Defined.

Lemma empresa_sempre_com_razao_witness :
  Forall razao_preenchida
    (tb_empresa
       (_upsert_chunk_inteligente Empresa
          [prepara_linha Empresa "2023-06"
             (ex_empresa "12345678" "" "2062" "0,00" "03");
           prepara_linha Empresa "2023-06"
             (ex_empresa "87654321" "BETA SA" "" "500,00" "01")]
          "2023-06" ex_banco_empresa_incompleta).1).
Proof.
  apply empresa_sempre_com_razao.
  assert (H : tb_empresa ex_banco_empresa_incompleta = [ex_registro_empresa_incompleta])
    by calcula.
  rewrite H. apply Forall_cons_2; [|apply Forall_nil_2].
  assert (Hr : ex_registro_empresa_incompleta !! "razao_social"
               = Some (Texto "ACME LTDA")) by calcula.
  unfold razao_preenchida. rewrite Hr. intros [?|?]; discriminate.
Defined.

Lemma upsert_chave_primaria_unica_witness :
  sem_colisao (chave_primaria Estabelecimento)
    (tabela_de Estabelecimento
       (_upsert_chunk_inteligente Estabelecimento
          [prepara_linha Estabelecimento "2024-01"
             (ex_estabelecimento "12345678" "0001" "95" "BAR DO ZE" "32549999");
           prepara_linha Estabelecimento "2024-01"
             (ex_estabelecimento "12345678" "0002" "76" "BAR DO ZE II" "")]
          "2024-01" ex_banco_estabelecimento).1).
Proof.
  apply upsert_chave_primaria_unica; [by right|].
  intros i j ri rj Hij Hi Hj.
  assert (Hl : length (tabela_de Estabelecimento ex_banco_estabelecimento) = 1%nat)
    by calcula.
  apply lookup_lt_Some in Hi, Hj. lia.
Defined.

Lemma upsert_so_muda_quem_casa_witness :
  tabela_de Estabelecimento
    (_upsert_chunk_inteligente Estabelecimento
       [prepara_linha Estabelecimento "2024-01"
          (ex_estabelecimento "12345678" "0002" "76" "BAR DO ZE II" "32549999")]
       "2024-01" ex_banco_estabelecimento).1 !! 0%nat
  = Some ex_registro_estabelecimento.
Proof.
  apply upsert_so_muda_quem_casa; [calcula|].
  apply Forall_cons_2; [calcula|apply Forall_nil_2].
Defined.

(** ** From the chunk to the run *)

Section Do_chunk_ao_arquivo.

Variable R : banco -> banco -> Prop.
Variable t : tipo.
Hypothesis R_refl : forall b, R b b.
Hypothesis R_trans : forall b1 b2 b3, R b1 b2 -> R b2 b3 -> R b1 b3.
Hypothesis R_upsert : forall df p b, R b (_upsert_chunk_inteligente t df p b).1.

Lemma importa_chunk_rel (p : string) (chunk : quadro) (b : banco) :
  R b (importa_chunk t p chunk b).1.
Proof.
  destruct (importa_chunk_sublista t p chunk b) as (df & _ & ->). apply R_upsert.
Qed.

Lemma importa_chunks_rel (p : string) (chunks : list quadro) (b : banco) (i a : nat) :
  R b (importa_chunks t p chunks b i a).1.
Proof.
  revert b i a. induction chunks as [|chunk chunks IH]; intros b i a; simpl; [done|].
  pose proof (importa_chunk_rel p chunk b) as H.
  destruct (importa_chunk t p chunk b) as [b' [di da]].
  eapply R_trans; [exact H|apply IH].
Qed.

Lemma _importar_arquivo_principal_rel (arq : arquivo) (p : string) (b : banco) :
  R b (_importar_arquivo_principal t arq p b).1.
Proof.
  unfold _importar_arquivo_principal.
  destruct (arq_conteudo arq); [|cbn [fst]]; apply importa_chunks_rel.
Qed.

Lemma importa_arquivos_rel (arquivos : list arquivo) (b : banco) (i a : nat) :
  R b (importa_arquivos t arquivos b i a).1.
Proof.
  revert b i a. induction arquivos as [|arq arquivos IH]; intros b i a; simpl; [done|].
  pose proof (_importar_arquivo_principal_rel arq (arq_parent_name arq) b) as H.
  destruct (_importar_arquivo_principal t arq (arq_parent_name arq) b) as [b' [di da]].
  eapply R_trans; [exact H|apply IH].
Qed.

End Do_chunk_ao_arquivo.

Lemma importar_dados_principais_rel (R : banco -> banco -> Prop)
    (e : estrutura) (b : banco) :
  (forall b, R b b) ->
  (forall b1 b2 b3, R b1 b2 -> R b2 b3 -> R b1 b3) ->
  (forall t df p b, principal t -> R b (_upsert_chunk_inteligente t df p b).1) ->
  R b (importar_dados_principais e b).
Proof.
  intros Hrefl Htrans Hstep. unfold importar_dados_principais, tabelas_principais.
  cbn [foldl].
  assert (H : forall t b, principal t ->
            R b match e !! t with
                | Some arquivos =>
                    (importa_arquivos t (arquivos_ordenados arquivos) b 0 0).1
                | None => b
                end).
  { intros t b0 Ht. destruct (e !! t); [|done].
    apply importa_arquivos_rel; [done|done|]. intros. by apply Hstep. }
  eapply Htrans; [|apply H; right; by right].
  eapply Htrans; [|apply H; right; by left].
  apply H. by left.
Qed.

Lemma soma_em_chunks (passos n : nat) (linhas : quadro) :
  (sum_list (length <$> em_chunks passos n linhas) <= length linhas)%nat.
Proof.
  revert linhas. induction passos as [|passos IH]; intros linhas; [simpl; lia|].
  destruct linhas as [|row linhas]; [simpl; lia|].
  cbn [em_chunks]. rewrite fmap_cons. cbn [sum_list sum_list_with].
  specialize (IH (drop n (row :: linhas))). unfold sum_list, id in *.
  pose proof (take_drop n (row :: linhas)) as Htd.
  apply (f_equal length) in Htd. rewrite length_app in Htd. lia.
Qed.

Lemma importa_chunks_conta (t : tipo) (p : string) (chunks : list quadro) (b : banco)
    (i a : nat) :
  (length (tabela_de t (importa_chunks t p chunks b i a).1) + i
   = length (tabela_de t b) + (importa_chunks t p chunks b i a).2.1)%nat
  /\ ((importa_chunks t p chunks b i a).2.1 + (importa_chunks t p chunks b i a).2.2
      <= i + a + sum_list (length <$> chunks))%nat.
Proof.
  revert b i a. induction chunks as [|chunk chunks IH]; intros b i a; [simpl; lia|].
  rewrite fmap_cons. cbn [importa_chunks sum_list sum_list_with].
  destruct (importa_chunk_sublista t p chunk b) as (df & Hsub & Heq).
  pose proof (upsert_tamanho t df p b) as H1.
  pose proof (upsert_limite t df p b) as H2.
  rewrite <- Heq in H1, H2.
  apply sublist_length in Hsub. unfold prepara_chunk in Hsub.
  rewrite length_fmap in Hsub.
  destruct (importa_chunk t p chunk b) as [b' [di da]]. cbn [fst snd] in H1, H2.
  destruct (IH b' (i + di)%nat (a + da)%nat) as [IH1 IH2].
  unfold sum_list, id in *. lia.
Qed.

(** A file that fits in one chunk is read in one chunk. *)
Lemma em_chunks_um (n : nat) (linhas : quadro) :
  linhas <> [] -> (length linhas <= n)%nat ->
  em_chunks (length linhas) n linhas = [linhas].
Proof.
  destruct linhas as [|row linhas]; [done|]. intros _ Hn.
  cbn [length em_chunks]. rewrite take_ge, drop_ge by done.
  by destruct (length linhas).
Qed.

Lemma drop_duplicates_replicate {K : Type} `{EqDecision K} (chave : linha -> K)
    (vistos : list K) (row : linha) (n : nat) :
  chave row ∈ vistos -> drop_duplicates chave vistos (replicate n row) = [].
Proof.
  intros Hv. induction n as [|n IH]; [done|].
  cbn [replicate drop_duplicates]. by rewrite decide_True.
Qed.

(** Of the copies of one row the deduplication keeps the first. *)
Lemma _remover_duplicatas_replicate (t : tipo) (row : linha) (n : nat) :
  principal t ->
  Forall (fun c => is_Some (row !! c)) (chave_natural t) ->
  _remover_duplicatas t (replicate (S n) row) = [row].
Proof.
  intros Ht Hrow.
  assert (Hcols : nas_colunas (chave_natural t) (replicate (S n) row) = true).
  { unfold nas_colunas. apply forallb_forall. intros c Hc%list_elem_of_In.
    apply forallb_forall. intros r Hr%list_elem_of_In%elem_of_replicate.
    destruct Hr as [-> _]. apply bool_decide_eq_true.
    rewrite Forall_forall in Hrow. by apply Hrow. }
  assert (Hd : drop_duplicates (subconjunto (chave_natural t)) [] (replicate (S n) row)
               = [row]).
  { cbn [replicate drop_duplicates].
    rewrite decide_False by apply not_elem_of_nil.
    rewrite drop_duplicates_replicate; [done|by left]. }
  unfold _remover_duplicatas. rewrite Hcols, Hd.
  by destruct Ht as [->|[->| ->]].
Qed.

Lemma importa_chunk_replicate (t : tipo) (p : string) (row : linha) (n : nat) (b : banco) :
  principal t ->
  Forall (fun c => is_Some (row !! c)) (chave_natural t) ->
  importa_chunk t p (replicate (S n) row) b = importa_chunk t p [row] b.
Proof.
  intros Ht Hrow. rewrite importa_chunk_um. unfold importa_chunk.
  change (replicate (S n) row) with (row :: replicate n row) at 1.
  cbv iota. unfold prepara_chunk. rewrite fmap_replicate.
  rewrite _remover_duplicatas_replicate; [done|done|].
  eapply Forall_impl; [exact Hrow|]. intros c. apply prepara_linha_presente.
Qed.

(** X12. The books of a file. When the file is read to its end, the table
    of its type grows by exactly the number of insertions returned and a
    row of the file is counted at most once. When the reader raises, the
    function returns (0, 0) although the chunks read before the error stay
    applied: the table does not shrink, it grows by at most the rows of
    those chunks, and the store is as it was if the error came before the
    first chunk. In both cases every other table stays as it is. *)
Theorem arquivo_contabilidade (t : tipo) (arq : arquivo) (p : string) (b : banco) :
  (forall linhas, arq_conteudo arq = Retorna linhas ->
     length (tabela_de t (_importar_arquivo_principal t arq p b).1)
       = (length (tabela_de t b) + (_importar_arquivo_principal t arq p b).2.1)%nat
     /\ ((_importar_arquivo_principal t arq p b).2.1
         + (_importar_arquivo_principal t arq p b).2.2 <= length linhas)%nat)
  /\ (forall e, arq_conteudo arq = Levanta e ->
        (_importar_arquivo_principal t arq p b).2 = (0%nat, 0%nat)
        /\ (length (tabela_de t b)
            <= length (tabela_de t (_importar_arquivo_principal t arq p b).1)
            <= length (tabela_de t b) + length (arq_parcial arq))%nat
        /\ (arq_parcial arq = [] -> (_importar_arquivo_principal t arq p b).1 = b))
  /\ (forall t', t' <> t ->
        tabela_de t' (_importar_arquivo_principal t arq p b).1 = tabela_de t' b).
Proof.
  split; [|split].
  - intros linhas Hl. unfold _importar_arquivo_principal. rewrite Hl.
    pose proof (importa_chunks_conta t p
                  (em_chunks (length linhas) chunk_size linhas) b 0 0) as [H1 H2].
    pose proof (soma_em_chunks (length linhas) chunk_size linhas). lia.
  - intros e He. unfold _importar_arquivo_principal. rewrite He. cbn [fst snd].
    split; [done|]. split.
    + pose proof (importa_chunks_conta t p
                    (em_chunks (length (arq_parcial arq)) chunk_size (arq_parcial arq))
                    b 0 0) as [H1 H2].
      pose proof (soma_em_chunks (length (arq_parcial arq)) chunk_size (arq_parcial arq)).
      lia.
    + by intros ->.
  - intros t' Hne.
    apply (_importar_arquivo_principal_rel
             (fun b1 b2 => tabela_de t' b2 = tabela_de t' b1) t); [done| |].
    + intros b1 b2 b3 H12 H23. by rewrite H23.
    + intros df p' b'. by apply upsert_outra_tabela.
Qed.

Lemma arquivo_contabilidade_witness :
  let row := ex_empresa "12345678" "ACME LTDA" "2062" "10000,00" "03" in
  let arq := Arquivo "K3241.K03200Y0.D30513.EMPRECSV" "2023-05"
               (Levanta OperationalError) (replicate chunk_size row) in
  let res := _importar_arquivo_principal Empresa arq "2023-05" banco_vazio in
  length (arq_parcial arq) = chunk_size
  /\ res.2 = (0%nat, 0%nat)
  /\ (length (tb_empresa banco_vazio) <= length (tb_empresa res.1)
      <= length (tb_empresa banco_vazio) + length (arq_parcial arq))%nat
  /\ length (tb_empresa res.1) = 1%nat.
Proof.
  intros row arq res.
  assert (Hlen : length (arq_parcial arq) = chunk_size) by apply length_replicate.
  split; [exact Hlen|].
  destruct (proj1 (proj2 (arquivo_contabilidade Empresa arq "2023-05" banco_vazio))
              OperationalError eq_refl) as (Hcont & Hlim & _).
  split; [exact Hcont|]. split; [exact Hlim|].
  unfold res, _importar_arquivo_principal. cbn [arq_conteudo arq_parcial arq].
  rewrite em_chunks_um.
  - cbn [importa_chunks].
    change chunk_size with (S (Nat.pred chunk_size)).
    rewrite importa_chunk_replicate; [calcula|by left|].
    repeat (apply Forall_cons_2; [calcula|]). apply Forall_nil_2.
  - change chunk_size with (S (Nat.pred chunk_size)). done.
  - by rewrite length_replicate.
Defined.

Lemma principais_preserva_chave (e : estrutura) (b : banco) (t : tipo) (c : string) :
  c ∈ chave_natural t ->
  preserva c (tabela_de t b) (tabela_de t (importar_dados_principais e b)).
Proof.
  intros Hc.
  apply (importar_dados_principais_rel
           (fun b1 b2 => preserva c (tabela_de t b1) (tabela_de t b2))).
  - intros b0. apply preserva_refl.
  - intros b1 b2 b3. apply preserva_trans.
  - intros t0 df p b0 _. destruct (decide (t = t0)) as [->|Hne].
    + unfold _upsert_chunk_inteligente.
      destruct (corpo_linha t0) as [corpo|] eqn:Hcorpo; [|apply preserva_refl].
      by apply laco_preserva_chave.
    + rewrite upsert_outra_tabela by done. apply preserva_refl.
Qed.

Lemma principais_sem_colisao (e : estrutura) (b : banco) (t : tipo) :
  t = Empresa \/ t = Estabelecimento ->
  sem_colisao (chave_primaria t) (tabela_de t b) ->
  sem_colisao (chave_primaria t) (tabela_de t (importar_dados_principais e b)).
Proof.
  intros Ht.
  apply (importar_dados_principais_rel
           (fun b1 b2 => sem_colisao (chave_primaria t) (tabela_de t b1) ->
                         sem_colisao (chave_primaria t) (tabela_de t b2))).
  - done.
  - intros b1 b2 b3 H12 H23 H1. by apply H23, H12.
  - intros t0 df p b0 _ H0. destruct (decide (t = t0)) as [<-|Hne].
    + unfold _upsert_chunk_inteligente.
      destruct (corpo_linha t) as [corpo|] eqn:Hcorpo; [|done].
      apply laco_sem_colisao; [done| |done]. by destruct Ht as [-> | ->].
    + by rewrite upsert_outra_tabela.
Qed.

Lemma principais_razao (e : estrutura) (b : banco) :
  Forall razao_preenchida (tb_empresa b) ->
  Forall razao_preenchida (tb_empresa (importar_dados_principais e b)).
Proof.
  apply (importar_dados_principais_rel
           (fun b1 b2 => Forall razao_preenchida (tb_empresa b1) ->
                         Forall razao_preenchida (tb_empresa b2))).
  - done.
  - intros b1 b2 b3 H12 H23 H1. by apply H23, H12.
  - intros t0 df p b0 _ H0. destruct (decide (Empresa = t0)) as [<-|Hne].
    + unfold _upsert_chunk_inteligente. cbn [corpo_linha]. by apply laco_razao.
    + change (tb_empresa ?x) with (tabela_de Empresa x).
      by rewrite upsert_outra_tabela.
Qed.

Lemma principais_nao_tocam (e : estrutura) (b : banco) (t : tipo) :
  ~ principal t -> tabela_de t (importar_dados_principais e b) = tabela_de t b.
Proof.
  intros Ht.
  apply (importar_dados_principais_rel (fun b1 b2 => tabela_de t b2 = tabela_de t b1)).
  - done.
  - intros b1 b2 b3 H12 H23. by rewrite H23.
  - intros t0 df p b0 Ht0. apply upsert_outra_tabela. by intros ->.
Qed.

Lemma referencia_nao_toca (e : estrutura) (b : banco) (t : tipo) :
  principal t -> tabela_de t (importar_tabelas_referencia e b) = tabela_de t b.
Proof.
  intros Ht. unfold importar_tabelas_referencia.
  apply foldl_importa_referencia_fora.
  destruct Ht as [-> | [-> | ->]]; apply (bool_decide_unpack _); by vm_compute.
Qed.

Lemma escanear_retorna (diretorio_base : list entrada) :
  exists e, escanear_estrutura_completa diretorio_base = Retorna e.
Proof. unfold escanear_estrutura_completa, encontrar_todas_pastas. simpl. by eexists. Qed.

Lemma importar_tudo_casos (diretorio_base : list entrada) (b : banco) :
  importar_tudo diretorio_base b = Retorna b
  \/ exists e, importar_tudo diretorio_base b
               = Retorna (importar_dados_principais e (importar_tabelas_referencia e b)).
Proof.
  unfold importar_tudo.
  destruct (escanear_retorna diretorio_base) as [e ->]. cbn [liga].
  destruct (decide (e = ∅)); [by left|right; by exists e].
Qed.

(** X10. The two loaders keep to their own tables: the import of the main
    data leaves the six reference tables as they were, and the loader of
    the reference tables leaves [empresa], [estabelecimento] and [socio]
    as they were. *)
Theorem cada_importador_em_suas_tabelas (e : estrutura) (b : banco) :
  (forall t, t ∈ tabelas_referencia ->
     tabela_de t (importar_dados_principais e b) = tabela_de t b)
  /\ (forall t, t ∈ tabelas_principais ->
        tabela_de t (importar_tabelas_referencia e b) = tabela_de t b).
Proof.
  split.
  - intros t Ht. apply principais_nao_tocam.
    intros [-> | [-> | ->]]; revert Ht; apply (bool_decide_unpack _); by vm_compute.
  - intros t Ht. apply referencia_nao_toca.
    unfold tabelas_principais in Ht.
    repeat (apply elem_of_cons in Ht as [-> | Ht]); unfold principal; auto.
    by apply elem_of_nil in Ht.
Qed.

(** X24. A whole run is conservative: it returns, no stored company,
    establishment or partner is removed, moved or given another key, the
    primary keys of [empresa] and [estabelecimento] stay unique if they
    were, and every company keeps a legal name if every one had one. *)
Theorem importar_tudo_conserva (diretorio_base : list entrada) (b : banco) :
  exists b',
    importar_tudo diretorio_base b = Retorna b'
    /\ (forall t c, c ∈ chave_natural t ->
          preserva c (tabela_de t b) (tabela_de t b'))
    /\ (forall t, t = Empresa \/ t = Estabelecimento ->
          sem_colisao (chave_primaria t) (tabela_de t b) ->
          sem_colisao (chave_primaria t) (tabela_de t b'))
    /\ (Forall razao_preenchida (tb_empresa b) ->
        Forall razao_preenchida (tb_empresa b')).
Proof.
  destruct (importar_tudo_casos diretorio_base b) as [-> | [e ->]].
  - exists b. split; [done|]. split; [|done]. intros t c _. apply preserva_refl.
  - eexists. split; [done|]. split; [|split].
    + intros t c Hc.
      assert (Ht : principal t).
      { destruct t; unfold principal; auto; by apply elem_of_nil in Hc. }
      rewrite <- (referencia_nao_toca e b t Ht) at 1.
      by apply principais_preserva_chave.
    + intros t Ht Hb. apply principais_sem_colisao; [done|].
      rewrite referencia_nao_toca; [done|].
      destruct Ht as [-> | ->]; unfold principal; auto.
    + intros Hb. apply principais_razao.
      change (tb_empresa ?x) with (tabela_de Empresa x).
      rewrite referencia_nao_toca; [done|by left].
Qed.

(** ** The scan of the folders *)

Lemma identificar_agrupa (pasta : entrada) (itens : list item) (acc : estrutura)
    (t : tipo) :
  let f := fun (arquivos_encontrados : estrutura) (it : item) =>
             if negb (it_is_file it) then arquivos_encontrados
             else if String.eqb (upper (suffix (it_name it))) ".ZIP"
                  then arquivos_encontrados
             else
               match tipo_do_nome (upper (it_name it)) with
               | Some t =>
                   <[t := (default [] (arquivos_encontrados !! t)
                           ++ [Arquivo (it_name it) (ent_name pasta) (it_conteudo it) (it_parcial it)])]>
                     arquivos_encontrados
               | None => arquivos_encontrados
               end in
  default [] (foldl f acc itens !! t)
    = default [] (acc !! t) ++ (arquivo_de pasta <$> filter (classificado t) itens)
  /\ (acc !! t <> Some [] -> foldl f acc itens !! t <> Some []).
Proof.
  intros f. revert acc. induction itens as [|it itens IH]; intros acc.
  - simpl. by rewrite app_nil_r.
  - cbn [foldl]. destruct (IH (f acc it)) as [IH1 IH2].
    assert (Hstep : default [] (f acc it !! t)
                    = default [] (acc !! t)
                      ++ (if classificado t it then [arquivo_de pasta it] else [])
                    /\ (acc !! t <> Some [] -> f acc it !! t <> Some [])).
    { unfold f, classificado.
      destruct (it_is_file it); simpl; [|by rewrite app_nil_r].
      destruct (String.eqb _ ".ZIP"); simpl; [by rewrite app_nil_r|].
      destruct (tipo_do_nome _) as [t0|]; [|by rewrite bool_decide_false, app_nil_r].
      destruct (decide (t0 = t)) as [->|Hne].
      - rewrite bool_decide_true by done. rewrite lookup_insert_eq. simpl.
        split; [done|]. intros _ [= H]. by destruct (default [] (acc !! t)).
      - rewrite bool_decide_false by congruence.
        rewrite lookup_insert_ne by done. by rewrite app_nil_r. }
    destruct Hstep as [Hs1 Hs2]. split.
    + rewrite IH1, Hs1, filter_cons.
      destruct (classificado t it) eqn:Hc.
      * rewrite decide_True by done. rewrite fmap_cons. by rewrite <- app_assoc.
      * rewrite decide_False by (by intros []). by rewrite app_nil_r.
    + intros Hacc. by apply IH2, Hs2.
Qed.

(** X1. [identificar_arquivos_pasta] groups by type: the list filed under a
    type holds, in listing order, exactly the entries of the folder that
    are files, do not have the ZIP suffix and have a name of that type.
    Directories, ZIP archives and names of no type are in no list, no
    entry is in two lists, and no list is empty. *)
Theorem identificar_arquivos_pasta_filtra (pasta : entrada) (t : tipo) :
  default [] (identificar_arquivos_pasta pasta !! t)
    = arquivo_de pasta <$> filter (classificado t) (ent_itens pasta)
  /\ identificar_arquivos_pasta pasta !! t <> Some []
  /\ forall it t', classificado t it = true -> classificado t' it = true -> t = t'.
Proof.
  split; [|split].
  - unfold identificar_arquivos_pasta.
    destruct (identificar_agrupa pasta (ent_itens pasta) ∅ t) as [H _].
    by rewrite H, lookup_empty.
  - unfold identificar_arquivos_pasta.
    destruct (identificar_agrupa pasta (ent_itens pasta) ∅ t) as [_ H].
    apply H. by rewrite lookup_empty.
  - unfold classificado. intros it t' H1 H2.
    apply andb_true_iff in H1 as [_ H1%bool_decide_eq_true].
    apply andb_true_iff in H2 as [_ H2%bool_decide_eq_true]. congruence.
Qed.

Lemma consolida_nao_vazia (e1 e2 : estrutura) (t : tipo) :
  e1 !! t <> Some [] -> e2 !! t <> Some [] -> consolida e1 e2 !! t <> Some [].
Proof.
  unfold consolida. rewrite lookup_union_with.
  destruct (e1 !! t) as [l1|], (e2 !! t) as [l2|]; simpl; try done.
  intros H1 H2 [= H]. apply app_eq_nil in H as [-> _]. done.
Qed.

Lemma escaneia_nao_vazia (e0 : estrutura) (pastas : list entrada) (t : tipo) :
  e0 !! t <> Some [] ->
  foldl (fun e pasta => consolida e (identificar_arquivos_pasta pasta)) e0 pastas !! t
  <> Some [].
Proof.
  revert e0. induction pastas as [|pasta pastas IH]; intros e0 H0; simpl; [done|].
  apply IH. apply consolida_nao_vazia; [done|].
  unfold identificar_arquivos_pasta.
  destruct (identificar_agrupa pasta (ent_itens pasta) ∅ t) as [_ H].
  apply H. by rewrite lookup_empty.
Qed.

Lemma pastas_encontradas (diretorio_base : list entrada) :
  exists pastas,
    encontrar_todas_pastas diretorio_base = Retorna pastas
    /\ pastas ≡ₚ List.filter (fun e => ent_is_dir e && formato_periodo (ent_name e))
                   diretorio_base
    /\ StronglySorted (fun x y => nao_depois String.ltb (ent_name x) (ent_name y)) pastas.
Proof.
  eexists. split; [reflexivity|]. split.
  - apply sorted_Permutation.
  - apply (sorted_StronglySorted (fun x y => String.ltb (ent_name x) (ent_name y))).
    + intros x y. apply string_ltb_assimetrico.
    + intros x y z. apply string_nao_depois_trans.
Qed.

(** X4. The scan files every recognised file of every period folder under
    its type: the list of a type is the concatenation, folder after
    folder in the order of the folder names, of what each folder holds of
    that type, and a type with no file has no entry (no list is empty). *)
Theorem escanear_agrupa (diretorio_base : list entrada) :
  exists pastas e,
    encontrar_todas_pastas diretorio_base = Retorna pastas
    /\ escanear_estrutura_completa diretorio_base = Retorna e
    /\ forall t,
         default [] (e !! t) = concat (arquivos_do_tipo t <$> pastas)
         /\ e !! t <> Some [].
Proof.
  destruct (pastas_encontradas diretorio_base) as (pastas & Hp & _).
  exists pastas. eexists. split; [done|].
  unfold escanear_estrutura_completa. rewrite Hp. cbn [liga]. split; [done|].
  intros t. split.
  - by rewrite escaneia_lookup, lookup_empty.
  - apply escaneia_nao_vazia. by rewrite lookup_empty.
Qed.

Lemma sorted_ja_ordenado {A : Type} (menor : A -> A -> bool) (l : list A) :
  StronglySorted (nao_depois menor) l -> sorted menor l = l.
Proof.
  unfold sorted. induction 1 as [|x l Hl IH Hx]; simpl; [done|].
  rewrite IH. destruct l as [|y l]; [done|].
  simpl. apply Forall_cons in Hx as [Hxy _]. unfold nao_depois in Hxy.
  by rewrite Hxy.
Qed.

Lemma StronglySorted_mono_in {A : Type} (R R' : A -> A -> Prop) (l : list A) :
  (forall x y, x ∈ l -> y ∈ l -> R x y -> R' x y) ->
  StronglySorted R l -> StronglySorted R' l.
Proof.
  intros HR Hl. induction Hl as [|x l Hl IH Hx]; constructor.
  - apply IH. intros y z Hy Hz. apply HR; by right.
  - apply Forall_forall. intros y Hy. rewrite Forall_forall in Hx.
    apply HR; [by left|by right|by apply Hx].
Qed.

Lemma ascii_compare_refl (a : ascii) : Ascii.compare a a = Eq.
Proof. unfold Ascii.compare. apply N.compare_refl. Qed.

(** On folder names of the form YYYY-MM the order of the names is the
    order of the sort keys. *)
Lemma ordem_do_nome_e_da_chave (x y : string) :
  formato_periodo x = true -> formato_periodo y = true ->
  nao_depois String.ltb x y ->
  nao_depois tupla_lt (chave_do_nome x) (chave_do_nome y).
Proof.
  intros (a & b & c & d & e & f & -> & _)%formato_periodo_forma
         (a' & b' & c' & d' & e' & f' & -> & _)%formato_periodo_forma.
  unfold nao_depois, String.ltb, tupla_lt, chave_do_nome, ate, fatia.
  cbn [substring fst snd Nat.sub String.compare].
  change (Ascii.compare "-" "-") with Eq.
  destruct (Ascii.compare a' a), (Ascii.compare b' b), (Ascii.compare c' c),
    (Ascii.compare d' d); try done;
    cbn [String.compare]; unfold String.ltb; cbn [String.compare];
    destruct (Ascii.compare e' e), (Ascii.compare f' f); done.
Qed.

Lemma tupla_lt_irreflexivo (k : string * string) : tupla_lt k k = false.
Proof.
  unfold tupla_lt, String.ltb. by rewrite !string_compare_refl.
Qed.

(** X6. After the scan the sort by period has nothing left to do: the list
    of every type is already in the order of the periods, the files of
    one folder in the order the folder lists them, and
    [importar_dados_principais] processes it as it is. *)
Theorem ordenacao_sem_efeito (diretorio_base : list entrada) :
  exists e,
    escanear_estrutura_completa diretorio_base = Retorna e
    /\ forall t arquivos, e !! t = Some arquivos ->
         arquivos_ordenados arquivos = arquivos.
Proof.
  destruct (pastas_encontradas diretorio_base) as (pastas & Hp & Hperm & Hsorted).
  eexists. split.
  { unfold escanear_estrutura_completa. rewrite Hp. reflexivity. }
  intros t arquivos He.
  pose proof (escaneia_lookup ∅ pastas t) as Hl.
  rewrite He, lookup_empty in Hl. simpl in Hl. subst arquivos.
  apply sorted_ja_ordenado.
  apply (concat_ordenado
           (fun x y => nao_depois tupla_lt (chave_do_nome x) (chave_do_nome y)) t pastas).
  - intros x. apply tupla_lt_irreflexivo.
  - eapply StronglySorted_mono_in; [|exact Hsorted].
    intros x y Hx Hy Hxy. simpl in Hxy |- *.
    assert (Hf : forall z, z ∈ pastas -> formato_periodo (ent_name z) = true).
    { intros z Hz. rewrite Hperm in Hz.
      apply list_elem_of_In, filter_In in Hz as [_ Hz].
      by apply andb_true_iff in Hz as [_ Hz]. }
    apply ordem_do_nome_e_da_chave; auto.
Qed.

Lemma filter_Permutation' {A : Type} (f : A -> bool) (l1 l2 : list A) :
  l1 ≡ₚ l2 -> List.filter f l1 ≡ₚ List.filter f l2.
Proof.
  induction 1 as [|x l1 l2 _ IH|x y l|l1 l2 l3 _ IH1 _ IH2]; simpl.
  - done.
  - destruct (f x); [by constructor|done].
  - destruct (f x), (f y); try done. apply Permutation_swap.
  - by etrans.
Qed.

Lemma NoDup_fmap_elem {A B : Type} (f : A -> B) (l : list A) (x y : A) :
  NoDup (f <$> l) -> x ∈ l -> y ∈ l -> f x = f y -> x = y.
Proof.
  intros Hnd [i Hi]%list_elem_of_lookup [j Hj]%list_elem_of_lookup Hxy.
  assert (i = j) as ->; [|congruence].
  eapply NoDup_lookup; [exact Hnd| |].
  - by rewrite list_lookup_fmap, Hi.
  - rewrite list_lookup_fmap, Hj. simpl. by rewrite Hxy.
Qed.

Lemma string_nao_depois_antissimetrico (x y : string) :
  nao_depois String.ltb x y -> nao_depois String.ltb y x -> x = y.
Proof.
  unfold nao_depois, String.ltb. intros H1 H2.
  apply String.compare_eq_iff.
  rewrite (String.compare_antisym y x) in H1.
  destruct (String.compare x y); simpl in *; done.
Qed.

(** X5. The order in which the operating system lists the period folders
    does not matter: two listings of the same folders, no two of one
    name, give the same sequence of folders, the same structure and the
    same run. *)
Theorem listagem_em_qualquer_ordem (d1 d2 : list entrada) (b : banco) :
  d1 ≡ₚ d2 -> NoDup (ent_name <$> d1) ->
  encontrar_todas_pastas d1 = encontrar_todas_pastas d2
  /\ escanear_estrutura_completa d1 = escanear_estrutura_completa d2
  /\ importar_tudo d1 b = importar_tudo d2 b.
Proof.
  intros Hperm Hnd.
  assert (H : encontrar_todas_pastas d1 = encontrar_todas_pastas d2).
  { destruct (pastas_encontradas d1) as (p1 & -> & Hp1 & Hs1).
    destruct (pastas_encontradas d2) as (p2 & -> & Hp2 & Hs2).
    f_equal.
    assert (Hin1 : forall x, x ∈ p1 -> x ∈ d1).
    { intros x Hx. rewrite Hp1 in Hx.
      by apply list_elem_of_In, filter_In in Hx as [Hx%list_elem_of_In _]. }
    assert (Hin2 : forall x, x ∈ p2 -> x ∈ d1).
    { intros x Hx. rewrite Hp2 in Hx.
      apply list_elem_of_In, filter_In in Hx as [Hx%list_elem_of_In _].
      by rewrite Hperm. }
    eapply StronglySorted_unique_strong; [|exact Hs1|exact Hs2|].
    - intros x1 x2 Hx1 Hx2 H12 H21.
      apply (NoDup_fmap_elem ent_name d1); auto.
      by apply string_nao_depois_antissimetrico.
    - rewrite Hp1, Hp2. by apply filter_Permutation'. }
  split; [exact H|].
  assert (H' : escanear_estrutura_completa d1 = escanear_estrutura_completa d2).
  { unfold escanear_estrutura_completa. by rewrite H. }
  split; [exact H'|]. unfold importar_tudo. by rewrite H'.
Qed.

Lemma listagem_em_qualquer_ordem_witness :
  encontrar_todas_pastas ex_diretorio_base
    = encontrar_todas_pastas (reverse ex_diretorio_base)
  /\ escanear_estrutura_completa ex_diretorio_base
     = escanear_estrutura_completa (reverse ex_diretorio_base)
  /\ importar_tudo ex_diretorio_base banco_vazio
     = importar_tudo (reverse ex_diretorio_base) banco_vazio.
Proof.
  apply listagem_em_qualquer_ordem.
  - apply Permutation_swap.
  - apply (bool_decide_unpack _). by vm_compute.
Defined.

Lemma get_fora (s : string) (k : nat) : (String.length s <= k)%nat -> get k s = None.
Proof.
  revert k. induction s as [|a s IH]; intros k Hk; [done|].
  destruct k as [|k]; simpl in *; [lia|]. apply IH. lia.
Qed.

Lemma string_length_app (s1 s2 : string) :
  String.length (s1 ++ s2) = (String.length s1 + String.length s2)%nat.
Proof. induction s1 as [|a s1 IH]; [done|]. simpl. by rewrite IH. Qed.

Lemma substring_prefixo (p r n : string) (m : nat) :
  substring m (String.length (p ++ r)) n = (p ++ r)%string ->
  substring m (String.length p) n = p.
Proof.
  intros H. apply get_correct. intros k.
  destruct (decide (k < String.length p)%nat) as [Hk|Hk].
  - rewrite substring_correct1 by done.
    rewrite (append_correct1 p r k) by done. rewrite <- H.
    rewrite substring_correct1; [done|].
    rewrite string_length_app. lia.
  - rewrite substring_correct2 by lia. symmetry. apply get_fora. lia.
Qed.

Lemma contem_prefixo (p r n : string) :
  p <> "" -> contem (p ++ r) n = true -> contem p n = true.
Proof.
  unfold contem. intros Hp H.
  destruct (index 0 (p ++ r) n) as [m|] eqn:Hm; [|done].
  apply index_correct1, substring_prefixo in Hm.
  destruct (index 0 p n) eqn:Hi; [done|].
  exfalso. eapply (index_correct3 0 m p n); [done|done|lia|done].
Qed.

Lemma contem_prefixo_nao (p r n : string) :
  p <> "" -> contem p n = false -> contem (p ++ r) n = false.
Proof.
  intros Hp H. destruct (contem (p ++ r) n) eqn:Hc; [|done].
  apply contem_prefixo in Hc; [congruence|done].
Qed.

(** X2. Which names the classification passes over: a name is of no type
    exactly when none of the ten short substrings of the cascade occurs in
    it. Every pattern of the mapping begins with one of them, so the
    mapping decides which type a name gets, never whether it gets one. *)
Theorem nome_sem_tipo (nome_upper : string) :
  tipo_do_nome nome_upper = None
  <-> Forall (fun indicio => contem indicio nome_upper = false) indicios.
Proof.
  unfold indicios. rewrite !Forall_cons. split.
  - unfold tipo_do_nome.
    destruct (primeiro_padrao _ _); [done|].
    destruct (contem "EMPRE" _); [done|].
    destruct (contem "ESTAB" _); [done|].
    destruct (contem "FILIAL" _); [done|].
    destruct (contem "SOCIO" _); [done|].
    destruct (contem "CNAE" _); [done|].
    destruct (contem "MUNIC" _); [done|].
    destruct (contem "NATJ" _); [done|].
    destruct (contem "PAIS" _); [done|].
    destruct (contem "QUAL" _); [done|].
    destruct (contem "MOTIC" _); [done|].
    intros _. repeat split; done.
  - intros (H1 & H2 & H3 & H4 & H5 & H6 & H7 & H8 & H9 & H10 & _).
    unfold tipo_do_nome, mapeamento_arquivos. cbn [primeiro_padrao].
    rewrite (contem_prefixo_nao "EMPRE" "CSV"), (contem_prefixo_nao "ESTAB" "LELE"),
      (contem_prefixo_nao "ESTAB" "ELE"), (contem_prefixo_nao "ESTAB" "EL"),
      (contem_prefixo_nao "SOCIO" "CSV"), (contem_prefixo_nao "CNAE" "CSV"),
      (contem_prefixo_nao "MUNIC" "CSV"), (contem_prefixo_nao "NATJ" "UCSV"),
      (contem_prefixo_nao "PAIS" "CSV"), (contem_prefixo_nao "QUAL" "SCSV"),
      (contem_prefixo_nao "MOTIC" "SV") by done.
    by rewrite H1, H2, H3, H4, H5, H6, H7, H8, H9, H10.
Qed.

(** A character becomes one character, the point only from the point, or
    the two letters SS. *)
Lemma upper_char_forma (c : ascii) :
  upper_char c = "SS"
  \/ exists d, upper_char c = String d "" /\ (d = "."%char -> c = "."%char).
Proof.
  destruct c as [[] [] [] [] [] [] [] []]; vm_compute;
    first [by left | right; eexists; split; [reflexivity|intros H; by inversion H]].
Qed.

Lemma upper_cons (c d : ascii) (s t : string) :
  upper (String c s) = String d t ->
  (d = "S"%char /\ t = String "S" (upper s) /\ c <> "."%char)
  \/ (upper s = t /\ (d = "."%char -> c = "."%char) /\ (d <> "."%char -> c <> "."%char)).
Proof.
  cbn [upper]. destruct (upper_char_forma c) as [H|(d' & H & Hd)]; rewrite H.
  - intros [= <- <-]. left. repeat split. intros ->. by vm_compute in H.
  - intros [= <- <-]. right. repeat split; [done|].
    intros Hne ->. by vm_compute in H; injection H as <-.
Qed.

Lemma upper_vazio (s : string) : upper s = "" -> s = "".
Proof.
  destruct s as [|c s]; [done|]. cbn [upper].
  by destruct (upper_char_forma c) as [->|(d & -> & _)].
Qed.

Lemma upper_zip (ext : string) :
  upper ext = ".ZIP" ->
  exists c1 c2 c3, ext = String "." (String c1 (String c2 (String c3 "")))
                   /\ c1 <> "."%char /\ c2 <> "."%char /\ c3 <> "."%char.
Proof.
  destruct ext as [|c0 [|c1 [|c2 [|c3 ext]]]].
  - by vm_compute.
  - intros [(? & _)|(H & _)]%upper_cons; [done|by vm_compute in H].
  - intros [(? & _)|(H & _)]%upper_cons; [done|].
    apply upper_cons in H as [(? & _)|(H & _)]; [done|by vm_compute in H].
  - intros [(? & _)|(H & _)]%upper_cons; [done|].
    apply upper_cons in H as [(? & _)|(H & _)]; [done|].
    apply upper_cons in H as [(? & _)|(H & _)]; [done|by vm_compute in H].
  - intros [(? & _)|(H0 & Hp & _)]%upper_cons; [done|].
    apply upper_cons in H0 as [(? & _)|(H1 & _ & Hc1)]; [done|].
    apply upper_cons in H1 as [(? & _)|(H2 & _ & Hc2)]; [done|].
    apply upper_cons in H2 as [(? & _)|(H3 & _ & Hc3)]; [done|].
    apply upper_vazio in H3 as ->. rewrite (Hp eq_refl).
    exists c1, c2, c3. repeat split; [apply Hc1|apply Hc2|apply Hc3]; done.
Qed.

Lemma rfind_ponto_app (s1 s2 : string) (i : nat) (achado : option nat) :
  rfind_ponto (s1 ++ s2) i achado
  = rfind_ponto s2 (i + String.length s1) (rfind_ponto s1 i achado).
Proof.
  revert i achado. induction s1 as [|a s1 IH]; intros i achado; simpl.
  - by rewrite Nat.add_0_r.
  - rewrite IH. f_equal. lia.
Qed.

Lemma substring_tudo (s : string) : substring 0 (String.length s) s = s.
Proof. induction s as [|a s IH]; [done|]. simpl. by rewrite IH. Qed.

Lemma substring_app_r (s1 s2 : string) :
  substring (String.length s1) (String.length s2) (s1 ++ s2) = s2.
Proof. induction s1 as [|a s1 IH]; simpl; [apply substring_tudo|done]. Qed.

Lemma suffix_zip (stem ext : string) :
  stem <> "" -> upper ext = ".ZIP" -> suffix (stem ++ ext) = ext.
Proof.
  intros Hstem (c1 & c2 & c3 & -> & H1 & H2 & H3)%upper_zip.
  apply Ascii.eqb_neq in H1, H2, H3.
  unfold suffix. rewrite rfind_ponto_app. cbn [rfind_ponto].
  rewrite H1, H2, H3. change (Ascii.eqb "." ".") with true. cbv iota.
  rewrite Nat.add_0_l.
  assert (Hlen : (0 < String.length stem)%nat).
  { destruct stem; [done|simpl; lia]. }
  rewrite string_length_app. cbn [String.length].
  replace (0 <? String.length stem)%nat with true by (symmetry; by apply Nat.ltb_lt).
  replace (String.length stem <? String.length stem + 4 - 1)%nat with true
    by (symmetry; apply Nat.ltb_lt; lia).
  cbn [andb]. unfold desde. rewrite string_length_app. cbn [String.length].
  replace (String.length stem + 4 - String.length stem)%nat with 4%nat by lia.
  apply (substring_app_r stem (String "." (String c1 (String c2 (String c3 ""))))).
Qed.

Lemma arquivos_do_tipo_classificado (pasta : entrada) (t : tipo) (arq : arquivo) :
  arq ∈ arquivos_do_tipo t pasta ->
  exists it, it ∈ ent_itens pasta /\ classificado t it = true
             /\ arq = arquivo_de pasta it.
Proof.
  unfold arquivos_do_tipo, identificar_arquivos_pasta.
  destruct (identificar_agrupa pasta (ent_itens pasta) ∅ t) as [H _].
  rewrite H, lookup_empty. simpl.
  intros (it & -> & Hit)%list_elem_of_fmap.
  apply list_elem_of_filter in Hit as [Hc Hit].
  exists it. split; [done|]. split; [|done]. by apply Is_true_true.
Qed.

(** X3. Compressed archives are passed over: an entry whose name is a stem
    that does not begin with a dot followed by the suffix .zip, in any
    letter case, is filed under no type, whatever its stem says. *)
Theorem zip_nunca_classificado (pasta : entrada) (t : tipo) (arq : arquivo)
    (a : ascii) (stem ext : string) :
  a <> "."%char -> upper ext = ".ZIP" ->
  arq ∈ arquivos_do_tipo t pasta ->
  arq_name arq <> (String a stem ++ ext)%string.
Proof.
  intros _ Hext (it & _ & Hc & ->)%arquivos_do_tipo_classificado Hname.
  unfold arquivo_de in Hname. cbn [arq_name] in Hname.
  unfold classificado in Hc. rewrite Hname, suffix_zip in Hc by done.
  rewrite Hext in Hc. by rewrite andb_false_r in Hc.
Qed.

Lemma zip_nunca_classificado_witness :
  arq_name (Arquivo "K3241.K03200Y0.D30513.EMPRECSV" "2023-05"
              (Retorna [ex_empresa "12345678" "ACME LTDA" "2062" "10000,00" "03"]) [])
  <> ("Empresas0" ++ ".zip")%string
  /\ arquivos_do_tipo Empresa ex_pasta_zip
     = [Arquivo "K3241.K03200Y0.D30513.EMPRECSV" "2023-05"
          (Retorna [ex_empresa "12345678" "ACME LTDA" "2062" "10000,00" "03"]) []].
Proof.
  split; [|calcula].
  apply (zip_nunca_classificado ex_pasta_zip Empresa _ "E" "mpresas0" ".zip");
    [done|reflexivity|calcula].
Defined.

(** ** The loader of the reference tables *)

Lemma foldl_importa_referencia_igual (e : estrutura) (b : banco) (ts : list tipo) (t : tipo) :
  (forall b0, tabela_de t (importa_referencia e b0 t) = tabela_de t b0) ->
  tabela_de t (foldl (importa_referencia e) b ts) = tabela_de t b.
Proof.
  intros Ht. revert b. induction ts as [|t' ts IH]; intros b; simpl; [done|].
  rewrite IH. destruct (decide (t = t')) as [<-|Hne]; [apply Ht|].
  by apply tabela_de_importa_referencia_ne.
Qed.

Lemma importa_referencia_sem_arquivo (e : estrutura) (b : banco) (t : tipo) :
  (forall arquivo_ref resto df,
     e !! t = Some (arquivo_ref :: resto) -> arq_conteudo arquivo_ref <> Retorna df) ->
  importa_referencia e b t = b.
Proof.
  intros H. unfold importa_referencia.
  destruct (e !! t) as [[|arquivo_ref resto]|] eqn:He; try done.
  destruct (arq_conteudo arquivo_ref) as [df|err] eqn:Hc; [|done].
  by destruct (H arquivo_ref resto df eq_refl).
Qed.

(** X8. The loader looks at one file only: when the first file the scan
    found for a reference table cannot be read, the table is left as it
    was, even if a later folder has a file of the type that can. *)
Theorem referencia_so_o_primeiro (e : estrutura) (b : banco) (t : tipo)
    (arquivo_ref : arquivo) (resto : list arquivo) (err : excecao) :
  e !! t = Some (arquivo_ref :: resto) ->
  arq_conteudo arquivo_ref = Levanta err ->
  tabela_de t (importar_tabelas_referencia e b) = tabela_de t b.
Proof.
  intros He Herr. unfold importar_tabelas_referencia.
  apply foldl_importa_referencia_igual. intros b0.
  rewrite importa_referencia_sem_arquivo; [done|].
  intros a r df Ha. rewrite He in Ha. injection Ha as <- <-. by rewrite Herr.
Qed.

Lemma banco_ext (b1 b2 : banco) :
  (forall t, tabela_de t b1 = tabela_de t b2) -> b1 = b2.
Proof.
  intros H. destruct b1, b2.
  pose proof (H Empresa). pose proof (H Estabelecimento). pose proof (H Socio).
  pose proof (H Cnae). pose proof (H Municipio). pose proof (H NaturezaJuridica).
  pose proof (H Pais). pose proof (H QualificacaoSocio). pose proof (H MotivoSituacao).
  simpl in *. congruence.
Qed.

Lemma tabelas_referencia_NoDup : NoDup tabelas_referencia.
Proof. apply (bool_decide_unpack _). by vm_compute. Qed.

(** X9. Loading the reference tables is idempotent: a second load from the
    same structure leaves the store exactly as the first one left it. *)
Theorem referencia_idempotente (e : estrutura) (b : banco) :
  importar_tabelas_referencia e (importar_tabelas_referencia e b)
  = importar_tabelas_referencia e b.
Proof.
  apply banco_ext. intros t. unfold importar_tabelas_referencia.
  destruct (decide (t ∈ tabelas_referencia)) as [Hin|Hnin].
  - destruct (e !! t) as [[|arquivo_ref resto]|] eqn:He.
    + apply foldl_importa_referencia_igual. intros b0.
      rewrite importa_referencia_sem_arquivo; [done|]. intros a r df Ha. congruence.
    + destruct (arq_conteudo arquivo_ref) as [df|err] eqn:Hc.
      * rewrite !(foldl_importa_referencia e _ _ t arquivo_ref resto df);
          auto using tabelas_referencia_NoDup.
      * apply foldl_importa_referencia_igual. intros b0.
        rewrite importa_referencia_sem_arquivo; [done|].
        intros a r df Ha. rewrite He in Ha. injection Ha as <- <-. by rewrite Hc.
    + apply foldl_importa_referencia_igual. intros b0.
      rewrite importa_referencia_sem_arquivo; [done|]. intros a r df Ha. congruence.
  - by rewrite !foldl_importa_referencia_fora.
Qed.

Lemma referencia_so_o_primeiro_witness :
  tabela_de Cnae (importar_tabelas_referencia ex_estrutura_ilegivel banco_vazio)
  = tabela_de Cnae banco_vazio.
Proof.
  apply (referencia_so_o_primeiro ex_estrutura_ilegivel banco_vazio Cnae
           (Arquivo "F.K03200$Z.D30513.CNAECSV" "2023-05" (Levanta OperationalError) [])
           [Arquivo "F.K03200$Z.D40113.CNAECSV" "2024-01"
              (Retorna [ex_cnae "0111301" "Cultivo de arroz"]) []]
           OperationalError); calcula.
Defined.

(** ** The stamp and the calendar *)

Lemma carimbo_de_forma (p : string) :
  formato_periodo p = true -> carimbo_de p = (p ++ "-01")%string.
Proof.
  intros (a & b & c & d & e & f & -> & _)%formato_periodo_forma. reflexivity.
Qed.

Lemma compare_carimbo (p q : string) :
  formato_periodo p = true -> formato_periodo q = true ->
  String.compare (carimbo_de p) (carimbo_de q)
  = match String.compare (ate 4 p) (ate 4 q) with
    | Eq => String.compare (fatia 5 7 p) (fatia 5 7 q)
    | c => c
    end.
Proof.
  intros (a & b & c & d & e & f & -> & _)%formato_periodo_forma
         (a' & b' & c' & d' & e' & f' & -> & _)%formato_periodo_forma.
  unfold carimbo_de, ate, fatia. simpl.
  change (Ascii.compare "-" "-") with Eq.
  change (Ascii.compare "0" "0") with Eq.
  change (Ascii.compare "1" "1") with Eq.
  destruct (Ascii.compare a a'), (Ascii.compare b b'), (Ascii.compare c c'),
    (Ascii.compare d d'); try done;
    destruct (Ascii.compare e e'), (Ascii.compare f f'); done.
Qed.

Lemma formato_comprimentos (p : string) :
  formato_periodo p = true ->
  String.length (ate 4 p) = 4%nat /\ String.length (fatia 5 7 p) = 2%nat.
Proof.
  by intros (a & b & c & d & e & f & -> & _)%formato_periodo_forma.
Qed.

(** X23. The guard [? > data_atualizacao] compares texts, and for periods
    written in decimal digits that is the order of the calendar: the
    stamp of one folder is greater than the stamp of another exactly when
    its year is later, or the year is the same and its month is later. *)
Theorem carimbo_cronologico (p q : string) :
  periodo_decimal p -> periodo_decimal q ->
  sql_gt (Some (Texto (carimbo_de p))) (Some (Texto (carimbo_de q))) = Some true
  <-> numero (ate 4 q) < numero (ate 4 p)
      \/ (numero (ate 4 q) = numero (ate 4 p)
          /\ numero (fatia 5 7 q) < numero (fatia 5 7 p)).
Proof.
  intros (Hp & Hpa & Hpm) (Hq & Hqa & Hqm).
  destruct (formato_comprimentos p Hp) as [Hl1 Hl2].
  destruct (formato_comprimentos q Hq) as [Hl3 Hl4].
  simpl. rewrite compare_carimbo by done.
  rewrite (compare_numero (ate 4 p) (ate 4 q)) by (done || congruence).
  rewrite (compare_numero (fatia 5 7 p) (fatia 5 7 q)) by (done || congruence).
  destruct (Z.compare_spec (numero (ate 4 p)) (numero (ate 4 q))) as [Heq|Hlt|Hgt].
  - destruct (Z.compare_spec (numero (fatia 5 7 p)) (numero (fatia 5 7 q))).
    + split; [done|]. lia.
    + split; [done|]. lia.
    + split; [|done]. intros _. right. lia.
  - split; [done|]. lia.
  - split; [|done]. intros _. by left.
Qed.

Lemma carimbo_cronologico_witness :
  sql_gt (Some (Texto (carimbo_de "2024-01"))) (Some (Texto (carimbo_de "2023-05")))
    = Some true
  <-> numero (ate 4 "2023-05") < numero (ate 4 "2024-01")
      \/ (numero (ate 4 "2023-05") = numero (ate 4 "2024-01")
          /\ numero (fatia 5 7 "2023-05") < numero (fatia 5 7 "2024-01")).
Proof.
  apply carimbo_cronologico; unfold periodo_decimal, so_digitos;
    (split; [reflexivity|split; calcula]).
Defined.

(** ** Companies without a stamp *)

Lemma onde_empresa_sem_carimbo (k carimbo : valor) (r : registro) :
  completa_sem_carimbo r -> verdadeiro (onde_empresa k carimbo r) = false.
Proof.
  intros ((s1 & Hs1 & H1) & (s2 & Hs2 & H2) & H3).
  unfold onde_empresa. rewrite H1, H2, H3.
  rewrite !(sql_eq_vazio_nao _) by done.
  replace (sql_gt carimbo None) with (@None bool) by (by destruct carimbo).
  simpl. apply sql_and_desconhecido.
Qed.

Lemma upsert_sem_carimbo (df : quadro) (p : string) (b : banco) (i : nat) (r : registro) :
  tb_empresa b !! i = Some r -> completa_sem_carimbo r ->
  tb_empresa (_upsert_chunk_inteligente Empresa df p b).1 !! i = Some r.
Proof.
  intros Hi Hr. unfold _upsert_chunk_inteligente. cbn [corpo_linha].
  apply (laco_invariante Empresa linha_empresa
           (fun b' _ _ => tb_empresa b' !! i = Some r)); [done| |done].
  intros row b1 b2 di da i' a' _ Hp Hb1.
  destruct Hp as [[e ?] | [[_ [? | [novo ?]]] | (_ & _ & ?)]]; simplify_eq.
  - done.
  - change (tb_empresa ?x) with (tabela_de Empresa x).
    rewrite tabela_de_com_tabela. by apply lookup_app_l_Some.
  - change (tb_empresa ?x) with (tabela_de Empresa x).
    rewrite tabela_de_com_tabela, list_lookup_fmap.
    change (tabela_de Empresa b1) with (tb_empresa b1). rewrite Hb1. simpl. f_equal.
    unfold atualiza, seleciona. by rewrite onde_empresa_sem_carimbo.
Qed.

(** X22. A complete company is frozen. The INSERT of [empresa] writes no
    [data_atualizacao], and the guard of the UPDATE is not true for a row
    whose legal name and legal nature are filled and whose stamp is NULL
    (the comparison with NULL is unknown): such a row is never changed
    again, by no chunk and by no later run of the main import, whatever
    the rows bring. *)
Theorem empresa_completa_congelada (b : banco) (i : nat) (r : registro) :
  tb_empresa b !! i = Some r -> completa_sem_carimbo r ->
  (forall df p, tb_empresa (_upsert_chunk_inteligente Empresa df p b).1 !! i = Some r)
  /\ (forall chunk p, tb_empresa (importa_chunk Empresa p chunk b).1 !! i = Some r)
  /\ (forall e, tb_empresa (importar_dados_principais e b) !! i = Some r).
Proof.
  intros Hi Hr. split; [|split].
  - intros df p. by apply upsert_sem_carimbo.
  - intros chunk p.
    destruct (importa_chunk_sublista Empresa p chunk b) as (df & _ & ->).
    by apply upsert_sem_carimbo.
  - intros e. revert Hi.
    apply (importar_dados_principais_rel
             (fun b1 b2 => tb_empresa b1 !! i = Some r -> tb_empresa b2 !! i = Some r)).
    + done.
    + intros b1 b2 b3 H12 H23 H1. by apply H23, H12.
    + intros t df p b0 _ H0. destruct (decide (t = Empresa)) as [->|Hne].
      * by apply upsert_sem_carimbo.
      * change (tb_empresa ?x) with (tabela_de Empresa x).
        rewrite upsert_outra_tabela by done. exact H0.
Qed.

Lemma empresa_completa_congelada_witness :
  let r := ex_registro_empresa_nova in
  (tb_empresa ex_banco_empresa_nova !! 0%nat = Some r /\ completa_sem_carimbo r)
  /\ (forall df p,
        tb_empresa (_upsert_chunk_inteligente Empresa df p ex_banco_empresa_nova).1
          !! 0%nat = Some r)
  /\ (forall chunk p,
        tb_empresa (importa_chunk Empresa p chunk ex_banco_empresa_nova).1 !! 0%nat
        = Some r)
  /\ (forall e,
        tb_empresa (importar_dados_principais e ex_banco_empresa_nova) !! 0%nat = Some r).
Proof.
  intros r.
  assert (H1 : tb_empresa ex_banco_empresa_nova !! 0%nat = Some r) by calcula.
  assert (H2 : completa_sem_carimbo r).
  { split; [exists "ACME LTDA"; split; [done|calcula]|].
    split; [exists "2062"; split; [done|calcula]|calcula]. }
  split; [by split|].
  exact (empresa_completa_congelada ex_banco_empresa_nova 0%nat r H1 H2).
Defined.

Lemma periodo_le_cronologico_witness :
  periodo_le ("2023", "05") ("2024", "01")
  <-> numero "2023" < numero "2024"
      \/ (numero "2023" = numero "2024" /\ numero "05" <= numero "01").
Proof.
  apply (periodo_le_cronologico ("2023", "05") ("2024", "01"));
    unfold so_digitos; cbn [fst snd]; calcula.
Defined.

(** ** The geocoding script *)

Lemma string_app_assoc (s1 s2 s3 : string) :
  (s1 +:+ s2) +:+ s3 = s1 +:+ (s2 +:+ s3).
Proof.
  induction s1 as [|a s1 IH]; [done|].
  change (String a ((s1 +:+ s2) +:+ s3) = String a (s1 +:+ (s2 +:+ s3))).
  by rewrite IH.
Qed.

Section Geocodificacao.

Import Georreferenciar.

Variable geocode : pyval -> resposta.

Lemma construir_endereco_casos (logradouro numero : pyval) :
  match construir_endereco logradouro numero with
  | Devolve v => exists s, v = PyStr (s +:+ "Garopaba, SC")
  | Falha _ =>
      exists q, q_nao_zero q = true /\ (logradouro = PyFloat q \/ numero = PyFloat q)
  end.
Proof.
  unfold construir_endereco.
  destruct numero as [|n|q]; cbn [numero_valido].
  - destruct logradouro as [|l|q]; cbn [verdade].
    + by exists "".
    + destruct (String.eqb l ""); simpl; [by exists ""|exists (l +:+ ", "); by rewrite string_app_assoc].
    + destruct (q_nao_zero q) eqn:Hq; simpl; [|by exists ""].
      exists q. auto.
  - destruct (negb (String.eqb n "") && isdigit (strip n)).
    + destruct logradouro as [|l|q]; cbn [verdade].
      * simpl. exists (n +:+ ", "). by rewrite string_app_assoc.
      * destruct (String.eqb l ""); simpl; [exists (n +:+ ", "); by rewrite string_app_assoc|].
        exists (l +:+ ", " +:+ n +:+ ", ").
        by rewrite !string_app_assoc.
      * destruct (q_nao_zero q) eqn:Hq; simpl; [|exists (n +:+ ", "); by rewrite string_app_assoc].
        exists q. auto.
    + destruct logradouro as [|l|q]; cbn [verdade].
      * by exists "".
      * destruct (String.eqb l ""); simpl; [by exists ""|exists (l +:+ ", "); by rewrite string_app_assoc].
      * destruct (q_nao_zero q) eqn:Hq; simpl; [|by exists ""].
        exists q. auto.
  - destruct (q_nao_zero q) eqn:Hq.
    + exists q. auto.
    + destruct logradouro as [|l|q']; cbn [verdade].
      * by exists "".
      * destruct (String.eqb l ""); simpl; [by exists ""|exists (l +:+ ", "); by rewrite string_app_assoc].
      * destruct (q_nao_zero q') eqn:Hq'; simpl; [|by exists ""].
        exists q'. auto.
Qed.


(** X25. [construir_endereco] never returns [None]: what it returns is a
    text that ends with the town, and it raises only when the street or
    the number is a nonzero number instead of a text; the caller's branch
    for an invalid number is therefore never taken. For a street and a
    number that are texts, the number is part of the address, as it is
    written, exactly when it is made of digits once stripped. *)
Theorem construir_endereco_nunca_none (logradouro numero : pyval) :
  match construir_endereco logradouro numero with
  | Devolve v => exists s, v = PyStr (s +:+ "Garopaba, SC")
  | Falha _ =>
      exists q, q_nao_zero q = true /\ (logradouro = PyFloat q \/ numero = PyFloat q)
  end
  /\ forall l n, logradouro = PyStr l -> numero = PyStr n -> l <> "" ->
       construir_endereco logradouro numero
       = Devolve (PyStr (if isdigit (strip n)
                         then l +:+ ", " +:+ n +:+ ", Garopaba, SC"
                         else l +:+ ", Garopaba, SC")).
Proof.
  split; [apply construir_endereco_casos|].
  intros l n -> -> Hl. unfold construir_endereco. cbn [numero_valido verdade].
  apply String.eqb_neq in Hl. rewrite Hl. cbn [negb].
  destruct n as [|a n]; [reflexivity|].
  replace (String.eqb (String a n) "") with false by reflexivity. cbn [negb andb].
  destruct (isdigit (strip (String a n))); reflexivity.
Qed.

Lemma laco_registros_contadores (registros : list consulta) (i : nat) (st : estado) :
  let res := laco_registros geocode registros i st in
  enderecos_invalidos res.1 = enderecos_invalidos st
  /\ (res.2 = None ->
      enderecos_validos res.1 = (enderecos_validos st + length registros)%nat
      /\ total_processados res.1 = (total_processados st + length registros)%nat).
Proof.
  revert i st. induction registros as [|reg registros IH]; intros i st; simpl.
  - split; [done|]. intros _. lia.
  - pose proof (construir_endereco_casos (q_logradouro reg) (q_numero reg)) as H.
    destruct (construir_endereco (q_logradouro reg) (q_numero reg)) as [v|e].
    + destruct H as [s ->].
      match goal with |- context [laco_registros geocode registros (S i) ?st'] =>
        destruct (IH (S i) st') as [IH1 IH2] end.
      simpl in IH1, IH2. split; [done|]. intros Hn.
      destruct (IH2 Hn) as [-> ->]. lia.
    + simpl. split; [done|]. done.
Qed.

Lemma laco_registros_sem_excecao (registros : list consulta) (i : nat) (st : estado) :
  Forall (fun reg => forall q, q_logradouro reg <> PyFloat q /\ q_numero reg <> PyFloat q)
         registros ->
  (laco_registros geocode registros i st).2 = None.
Proof.
  intros Hregs. revert i st.
  induction Hregs as [|reg registros Hreg _ IH]; intros i st; simpl; [done|].
  pose proof (construir_endereco_casos (q_logradouro reg) (q_numero reg)) as H.
  destruct (construir_endereco (q_logradouro reg) (q_numero reg)) as [v|e].
  - destruct H as [s ->]. apply IH.
  - destruct H as (q & _ & [Hq | Hq]); by destruct (Hreg q).
Qed.

Lemma busca_em_texto (tb : list registro) :
  enderecos_em_texto tb ->
  Forall (fun reg => forall q, q_logradouro reg <> PyFloat q /\ q_numero reg <> PyFloat q)
         (busca tb).
Proof.
  intros Htb. unfold busca. apply Forall_fmap.
  apply Forall_forall. intros r Hr%list_elem_of_In%filter_In. destruct Hr as [Hr _].
  apply list_elem_of_In in Hr.
  unfold enderecos_em_texto in Htb. rewrite Forall_forall in Htb.
  intros q. simpl. split.
  - destruct (r !! "logradouro") as [[s|x]|] eqn:E; simpl; try congruence.
    by destruct (Htb r Hr x) as [H1 _].
  - destruct (r !! "numero") as [[s|x]|] eqn:E; simpl; try congruence.
    by destruct (Htb r Hr x) as [_ H2].
Qed.

(** X26. Every record the query returns is geocoded: when the run reaches its
    statistics the count of invalid addresses is zero and the counts of
    valid and of processed addresses are the number of records, house
    numbers such as S/N included; and it reaches them whenever no street
    and no number of the table is stored as a number. *)
Theorem todo_registro_e_processado (tb : list registro) :
  (forall est, (geocodificar_enderecos geocode tb).2 = Some est ->
     est_invalidos est = 0%nat
     /\ est_validos est = est_registros est
     /\ est_processados est = est_registros est)
  /\ (enderecos_em_texto tb -> is_Some (geocodificar_enderecos geocode tb).2).
Proof.
  unfold geocodificar_enderecos. split.
  - intros est.
    pose proof (laco_registros_contadores (busca tb) 1 (Estado tb tb 0 0 0)) as [H1 H2].
    destruct (laco_registros geocode (busca tb) 1 (Estado tb tb 0 0 0)) as [st [e|]];
      [done|].
    simpl in *. intros [= <-]. simpl. destruct (H2 eq_refl) as [-> ->]. by rewrite H1.
  - intros Htb.
    pose proof (laco_registros_sem_excecao (busca tb) 1 (Estado tb tb 0 0 0)
                  (busca_em_texto tb Htb)) as H.
    destruct (laco_registros geocode (busca tb) 1 (Estado tb tb 0 0 0)) as [st [e|]];
      [done|]. by eexists.
Qed.

Lemma salvar_coordenada_preserva (k1 k2 k3 : pyval) (wkt : string) (tb : list registro)
    (c : string) :
  c <> "coordenada_wkt" -> preserva c tb (salvar_coordenada k1 k2 k3 wkt tb).
Proof.
  intros Hc i r Hr. unfold salvar_coordenada. rewrite sql_update_tabela.
  rewrite list_lookup_fmap, Hr. cbn [fmap option_fmap option_map].
  eexists. split; [reflexivity|].
  destruct (verdadeiro _); [|done].
  rewrite lookup_sql_set. cbn [atribuido fst snd].
  by rewrite decide_False by done.
Qed.

Lemma salvar_coordenada_length (k1 k2 k3 : pyval) (wkt : string) (tb : list registro) :
  length (salvar_coordenada k1 k2 k3 wkt tb) = length tb.
Proof. unfold salvar_coordenada. rewrite sql_update_tabela. apply length_fmap. Qed.

Lemma laco_registros_preserva (registros : list consulta) (i : nat) (st : estado)
    (tb : list registro) (c : string) :
  c <> "coordenada_wkt" ->
  preserva c tb (em_curso st) /\ length (em_curso st) = length tb ->
  preserva c tb (confirmado st) /\ length (confirmado st) = length tb ->
  (preserva c tb (em_curso (laco_registros geocode registros i st).1)
   /\ length (em_curso (laco_registros geocode registros i st).1) = length tb)
  /\ (preserva c tb (confirmado (laco_registros geocode registros i st).1)
      /\ length (confirmado (laco_registros geocode registros i st).1) = length tb).
Proof.
  intros Hc. revert i st.
  induction registros as [|reg registros IH]; intros i st Hcur Hcom;
    cbn [laco_registros]; [done|].
  destruct (construir_endereco (q_logradouro reg) (q_numero reg)) as [v|e]; [|done].
  assert (Hnovo : forall wkt,
            preserva c tb (salvar_coordenada (q_cnpj_basico reg) (q_cnpj_ordem reg)
                             (q_cnpj_dv reg) wkt (em_curso st))
            /\ length (salvar_coordenada (q_cnpj_basico reg) (q_cnpj_ordem reg)
                         (q_cnpj_dv reg) wkt (em_curso st)) = length tb).
  { intros wkt. destruct Hcur as [H1 H2]. split.
    - eapply preserva_trans; [exact H1|]. by apply salvar_coordenada_preserva.
    - by rewrite salvar_coordenada_length. }
  destruct v as [|s|q]; apply IH; cbn [em_curso confirmado]; try done;
    try apply Hnovo; (destruct (i mod 10 =? 0)%nat; [apply Hnovo|done]).
Qed.

(** X27. The script writes the coordinate column and nothing else: whether it
    ends with a commit or with a rollback, the table has the rows it had,
    each at its place with every other column as it was. *)
Theorem so_a_coordenada_muda (tb : list registro) (c : string) :
  c <> "coordenada_wkt" ->
  preserva c tb (geocodificar_enderecos geocode tb).1
  /\ length (geocodificar_enderecos geocode tb).1 = length tb.
Proof.
  intros Hc. unfold geocodificar_enderecos.
  pose proof (laco_registros_preserva (busca tb) 1 (Estado tb tb 0 0 0) tb c Hc) as H.
  cbn [em_curso confirmado] in H.
  destruct H as [H1 H2]; try (split; [apply preserva_refl|done]).
  by destruct (laco_registros geocode (busca tb) 1 (Estado tb tb 0 0 0)) as [st [e|]].
Qed.

End Geocodificacao.

Lemma so_a_coordenada_muda_witness :
  preserva "numero" ex_tratados
    (Georreferenciar.geocodificar_enderecos ex_geocode ex_tratados).1
  /\ length (Georreferenciar.geocodificar_enderecos ex_geocode ex_tratados).1
     = length ex_tratados.
Proof. apply so_a_coordenada_muda. done. Defined.
